(** * Narrahunt phase 2: artifact extraction, scoring, frontier and controller

    A shallow embedding of [artifact_extractor.py], of the frontier and
    controller code of [detective_agent.py] and of [LLMIntegration._extract_json]
    of [llm_integration.py].  Python strings are ASCII strings; Python ints
    are [Z]; dicts with fixed keys are records, [dict.get(k, d)] with a
    missing key is an [option] field read with its default; Python sets of
    strings are duplicate-free lists of strings. *)

From Stdlib Require Import ZArith List Bool Lia Ascii String.
From Stdlib Require Import Sorting.Sorted Sorting.Permutation Structures.OrdersEx DecimalString.
Import ListNotations.
Open Scope string_scope.
Open Scope Z_scope.

(* ------------------------------------------------------------------ *)
(** ** Python string helpers *)

Module Py.

(** [str.isspace] on ASCII: space, \t \n \v \f \r and \x1c..\x1f.  This is
    also what [\s] matches in a [str] pattern and what [split()] and
    [strip()] treat as whitespace. *)
Definition isspace (c : ascii) : bool :=
  let n := nat_of_ascii c in
  (Nat.eqb n 32 || ((9 <=? n) && (n <=? 13)) || ((28 <=? n) && (n <=? 31)))%nat.

(** [str.lower] on ASCII. *)
Definition lower_char (c : ascii) : ascii :=
  let n := nat_of_ascii c in
  if ((65 <=? n) && (n <=? 90))%nat then ascii_of_nat (n + 32) else c.

Fixpoint lower (s : string) : string :=
  match s with
  | EmptyString => EmptyString
  | String c r => String (lower_char c) (lower r)
  end.

(** [s.startswith(p)] *)
Fixpoint startswith (s p : string) : bool :=
  match p, s with
  | EmptyString, _ => true
  | String _ _, EmptyString => false
  | String c p', String d s' => Ascii.eqb c d && startswith s' p'
  end.

(** [needle in hay] for strings. *)
Fixpoint contains (hay needle : string) : bool :=
  startswith hay needle ||
  match hay with
  | EmptyString => false
  | String _ r => contains r needle
  end.

Fixpoint rev_str (s : string) : string :=
  match s with
  | EmptyString => EmptyString
  | String c r => rev_str r ++ String c EmptyString
  end.

(** [s.endswith(suf)] *)
Definition endswith (s suf : string) : bool := startswith (rev_str s) (rev_str suf).

(** [x in xs] for a list (or set) of strings. *)
Definition mem (x : string) (xs : list string) : bool := existsb (String.eqb x) xs.

(** [set.add] *)
Definition set_add (x : string) (xs : list string) : list string :=
  if mem x xs then xs else xs ++ [x].

(** [re.sub(r'\s+', '', s)] *)
Fixpoint remove_ws (s : string) : string :=
  match s with
  | EmptyString => EmptyString
  | String c r => if isspace c then remove_ws r else String c (remove_ws r)
  end.

Fixpoint lstrip (s : string) : string :=
  match s with
  | String c r => if isspace c then lstrip r else s
  | EmptyString => EmptyString
  end.

(** [s.strip()] *)
Definition strip (s : string) : string := rev_str (lstrip (rev_str (lstrip s))).

(** [str(x)] of an optional string, [None] printing as ["None"]. *)
Definition show_opt (o : option string) : string :=
  match o with Some s => s | None => "None" end.

(** Python truthiness of an optional string: [None] and the empty string are falsy. *)
Definition truthy (o : option string) : bool :=
  match o with Some (String _ _) => true | _ => false end.

End Py.

(* ------------------------------------------------------------------ *)
(** ** [urllib.parse.urlparse(url).netloc] *)

Module Url.

Definition is_alpha (c : ascii) : bool :=
  let n := nat_of_ascii c in ((65 <=? n) && (n <=? 90) || (97 <=? n) && (n <=? 122))%nat.
Definition is_digit (c : ascii) : bool :=
  let n := nat_of_ascii c in ((48 <=? n) && (n <=? 57))%nat.
Definition is_scheme_char (c : ascii) : bool :=
  is_alpha c || is_digit c || Ascii.eqb c "+" || Ascii.eqb c "-" || Ascii.eqb c ".".

(** The leading C0 control characters and spaces stripped by [urlsplit],
    and the tab/newline characters it removes everywhere. *)
Definition is_c0_or_space (c : ascii) : bool := (nat_of_ascii c <=? 32)%nat.
Definition is_unsafe (c : ascii) : bool :=
  Ascii.eqb c (ascii_of_nat 9) || Ascii.eqb c (ascii_of_nat 10) || Ascii.eqb c (ascii_of_nat 13).

Fixpoint lstrip_c0 (s : string) : string :=
  match s with
  | String c r => if is_c0_or_space c then lstrip_c0 r else s
  | EmptyString => EmptyString
  end.

Fixpoint drop_unsafe (s : string) : string :=
  match s with
  | EmptyString => EmptyString
  | String c r => if is_unsafe c then drop_unsafe r else String c (drop_unsafe r)
  end.

(** The scheme split of [urlsplit]: [Some rest] when [url] starts with a
    letter followed by scheme characters and a [':']. *)
Fixpoint split_scheme_tail (s : string) : option string :=
  match s with
  | EmptyString => None
  | String c r =>
      if Ascii.eqb c ":" then Some r
      else if is_scheme_char c then split_scheme_tail r else None
  end.

Definition split_scheme (s : string) : string :=
  match s with
  | String c r =>
      if is_alpha c then
        match split_scheme_tail r with Some rest => rest | None => s end
      else s
  | EmptyString => s
  end.

Fixpoint take_netloc (s : string) : string :=
  match s with
  | EmptyString => EmptyString
  | String c r =>
      if Ascii.eqb c "/" || Ascii.eqb c "?" || Ascii.eqb c "#" then EmptyString
      else String c (take_netloc r)
  end.

Definition netloc (url : string) : string :=
  let u := split_scheme (drop_unsafe (lstrip_c0 url)) in
  match u with
  | String "/" (String "/" r) => take_netloc r
  | _ => EmptyString
  end.

End Url.

(* ------------------------------------------------------------------ *)
(** ** [artifact_extractor.py] *)

Module Extractor.

Definition TRUSTED_DOMAINS : list string :=
  ["ethereum.org"; "ethereum.foundation"; "eips.ethereum.org"; "blog.ethereum.org"; "vitalik.ca"].

Definition COMMUNITY_DOMAINS : list string :=
  ["medium.com"; "hackernoon.com"; "reddit.com"; "github.com"; "steemit.com"; "mirror.xyz"].

Definition WARNING_PHRASES : list string :=
  ["do not use in production"; "example only"; "not for production"; "test key";
   "sample key"; "dummy key"; "do not use"; "for testing"].

(** [score_artifact(url, content, date)]; [date] is [None] or a string. *)
Definition score_artifact (url content : string) (date : option string) : Z :=
  let domain := Url.netloc url in
  let s0 := 0 in
  let s1 := if existsb (Py.endswith domain) TRUSTED_DOMAINS then s0 + 3 else s0 in
  let s2 := if Py.endswith domain ".org" then s1 + 1 else s1 in
  let s3 := if existsb (Py.endswith domain) COMMUNITY_DOMAINS then s2 - 5 else s2 in
  let s4 := match date with
            | Some d => if Py.truthy date && String.ltb d "2022-01-01" then s3 + 1 else s3
            | None => s3
            end in
  let content_lower := Py.lower content in
  let s5 := if existsb (Py.contains content_lower) WARNING_PHRASES then s4 - 10 else s4 in
  if (20 <? Z.of_nat (String.length content)) then s5 + 2 else s5.

(** An artifact dictionary as built by the [extract_*] functions. *)
Record artifact := mk_artifact {
  a_type : string;
  a_content : string;
  a_summary : string;
  a_location : string;
  a_hash : string;
  a_score : Z;
  a_url : string;
  a_date : option string
}.

(** A candidate found by one of the passes, before the duplicate check:
    its type, content, summary and location. *)
Record candidate := mk_candidate {
  c_type : string;
  c_content : string;
  c_summary : string;
  c_location : string
}.

(** Hex digits [0-9a-fA-F]. *)
Definition is_hex (c : ascii) : bool :=
  let n := nat_of_ascii c in
  ((48 <=? n) && (n <=? 57) || (65 <=? n) && (n <=? 70) || (97 <=? n) && (n <=? 102))%nat.

(** [[0-9a-fA-F]{n}] at the start of [s]: the matched text and the rest. *)
Fixpoint take_hex (n : nat) (s : string) : option (string * string) :=
  match n with
  | O => Some (EmptyString, s)
  | S k =>
      match s with
      | String c r =>
          if is_hex c then
            match take_hex k r with
            | Some (h, rest) => Some (String c h, rest)
            | None => None
            end
          else None
      | EmptyString => None
      end
  end.

Fixpoint skip_ws (s : string) : string :=
  match s with
  | String c r => if Py.isspace c then skip_ws r else s
  | EmptyString => s
  end.

(** Case-insensitive [startswith] for a lower-case literal [p]; returns the rest. *)
Fixpoint ci_prefix (p s : string) : option string :=
  match p, s with
  | EmptyString, _ => Some s
  | String c p', String d s' => if Ascii.eqb c (Py.lower_char d) then ci_prefix p' s' else None
  | String _ _, EmptyString => None
  end.

(** The double quote character. *)
Definition dquote : ascii := ascii_of_nat 34.

Definition is_quote (c : ascii) : bool := Ascii.eqb c "'" || Ascii.eqb c dquote.

Definition opt_orelse {A} (o1 : option A) (o2 : unit -> option A) : option A :=
  match o1 with Some x => Some x | None => o2 tt end.

(** [re.finditer] for a pattern that never matches the empty string: [m]
    tries a match at the start of its argument, returning the group and the
    text after the match. *)
Fixpoint finditer (m : string -> option (string * string)) (fuel : nat) (s : string)
  : list string :=
  match fuel with
  | O => []
  | S f =>
      match m s with
      | Some (g, rest) => g :: finditer m f rest
      | None =>
          match s with
          | EmptyString => []
          | String _ r => finditer m f r
          end
      end
  end.

Definition findall (m : string -> option (string * string)) (s : string) : list string :=
  finditer m (S (String.length s)) s.

(** [0x[0-9a-fA-F]{n}], group 0. *)
Definition match_0x_hex (n : nat) (s : string) : option (string * string) :=
  match s with
  | String "0" (String "x" r) =>
      match take_hex n r with
      | Some (h, rest) => Some ("0x" ++ h, rest)
      | None => None
      end
  | _ => None
  end.

(** After the key label: optional whitespace, an optional quote, the 64
    hex digits (group 1) and an optional quote. *)
Definition match_key_body (s : string) : option (string * string) :=
  let u := skip_ws s in
  let after_hex r :=
    match take_hex 64 r with
    | Some (h, String q rest) => if is_quote q then Some (h, rest) else Some (h, String q rest)
    | Some (h, EmptyString) => Some (h, EmptyString)
    | None => None
    end in
  match u with
  | String q r => if is_quote q then opt_orelse (after_hex r) (fun _ => after_hex u) else after_hex u
  | EmptyString => after_hex u
  end.

(** [(?:\s*[:=])?] followed by the body, with backtracking to the empty option. *)
Definition match_key_tail (s : string) : option (string * string) :=
  match skip_ws s with
  | String c r =>
      if Ascii.eqb c ":" || Ascii.eqb c "=" then
        opt_orelse (match_key_body r) (fun _ => match_key_body s)
      else match_key_body s
  | EmptyString => match_key_body s
  end.

(** [(?:private\s*key|secret\s*key|key)] with [re.IGNORECASE]. *)
Definition match_label_key (p : string) (s : string) : option (string * string) :=
  match ci_prefix p s with
  | Some r =>
      match ci_prefix "key" (skip_ws r) with
      | Some r' => match_key_tail r'
      | None => None
      end
  | None => None
  end.

Definition match_private_key (s : string) : option (string * string) :=
  opt_orelse (match_label_key "private" s) (fun _ =>
  opt_orelse (match_label_key "secret" s) (fun _ =>
  match ci_prefix "key" s with Some r => match_key_tail r | None => None end)).

Section Passes.

(** [hashlib.sha256(...).hexdigest()], any function. *)
Variable sha256 : string -> string.

(** [generate_hash(content)] *)
Definition generate_hash (content : string) : string :=
  sha256 (Py.remove_ws (Py.lower content)).

(** The loop body shared by every pass: compute the hash, skip the
    candidate when it is in [artifact_hashes], otherwise record it, score
    it and append the artifact. *)
Fixpoint dedup_pass (url : string) (date : option string) (cands : list candidate)
    (hashes : list string) : list artifact * list string :=
  match cands with
  | [] => ([], hashes)
  | c :: cs =>
      let h := generate_hash (c_content c) in
      if Py.mem h hashes then dedup_pass url date cs hashes
      else
        let hashes' := (hashes ++ [h])%list in
        let score := score_artifact url (c_content c) date in
        let a := mk_artifact (c_type c) (c_content c) (c_summary c) (c_location c)
                   h score url date in
        let (rest, hs) := dedup_pass url date cs hashes' in
        (a :: rest, hs)
  end.

Variable find_location : string -> string.

Definition private_key_summary (k : string) : string :=
  "[private key redacted - " ++ NilEmpty.string_of_uint (Nat.to_uint (String.length k)) ++ " chars]".

(** [extract_wallet_addresses(soup, url, date, artifact_hashes)]; [text] is
    [soup.get_text()]. *)
Definition wallet_candidates (text : string) : list candidate :=
  map (fun a => mk_candidate "wallet_address" a a (find_location a))
      (findall (match_0x_hex 40) text).

Definition extract_wallet_addresses (text url : string) (date : option string)
    (hashes : list string) : list artifact * list string :=
  dedup_pass url date (wallet_candidates text) hashes.

(** [extract_private_keys(soup, url, date, artifact_hashes)]: the labelled
    64-hex-digit keys, then the [0x]-prefixed 64-hex-digit strings. *)
Definition private_key_candidates (text : string) : list candidate :=
  map (fun k => mk_candidate "private_key" k (private_key_summary k) (find_location k))
      (findall match_private_key text).

Definition hex64_candidates (text : string) : list candidate :=
  map (fun k => mk_candidate "private_key" k (private_key_summary k) (find_location k))
      (findall (match_0x_hex 64) text).

Definition extract_private_keys (text url : string) (date : option string)
    (hashes : list string) : list artifact * list string :=
  let (a1, h1) := dedup_pass url date (private_key_candidates text) hashes in
  let (a2, h2) := dedup_pass url date (hex64_candidates text) h1 in
  ((a1 ++ a2)%list, h2).

End Passes.

End Extractor.

(** [extract_artifacts_from_html(html_content, url, date)].

    The HTML parser and the passes that only look inside [<pre>], [<code>]
    and [<p>] elements (Solidity contracts, JSON keystores, seed phrases,
    API keys) are given by the candidates they produce, in the order the
    code visits them; the wallet-address and private-key passes are the
    regular-expression scans above over [soup.get_text()].  Every pass goes
    through the same duplicate check against the one [artifact_hashes] set
    of the call.  The candidates of the Solidity and seed-phrase passes are
    computed in [Solidity] and [Seeds] below; [store_artifacts] is modelled
    in [Store]. *)
Module Entry.
Section Entry.

Variable sha256 : string -> string.
Variable Soup : Type.
(** [BeautifulSoup(html_content, 'html.parser')], [None] when it raises. *)
Variable parse_html : string -> option Soup.
Variable get_text : Soup -> string.
Variable find_location : Soup -> string -> string.
Variable solidity_candidates : Soup -> list Extractor.candidate.
Variable keystore_candidates : Soup -> list Extractor.candidate.
Variable seed_candidates : Soup -> list Extractor.candidate.
Variable api_candidates : Soup -> list Extractor.candidate.

Definition extract_artifacts_from_html (html_content : option string) (url : string)
    (date : option string) : list Extractor.artifact :=
  match html_content with
  | None => []
  | Some html =>
      if (Z.of_nat (String.length html) <? 100) then []
      else
        match parse_html html with
        | None => []
        | Some soup =>
            let text := get_text soup in
            let loc := find_location soup in
            let h0 := [] in
            let (solidity, h1) := Extractor.dedup_pass sha256 url date (solidity_candidates soup) h0 in
            let (wallets, h2) := Extractor.extract_wallet_addresses sha256 loc text url date h1 in
            let (keys, h3) := Extractor.extract_private_keys sha256 loc text url date h2 in
            let (stores, h4) := Extractor.dedup_pass sha256 url date (keystore_candidates soup) h3 in
            let (seeds, h5) := Extractor.dedup_pass sha256 url date (seed_candidates soup) h4 in
            let (apis, _) := Extractor.dedup_pass sha256 url date (api_candidates soup) h5 in
            (solidity ++ wallets ++ keys ++ stores ++ seeds ++ apis)%list
        end
  end.

End Entry.
End Entry.

(* ------------------------------------------------------------------ *)
(** ** [DetectiveAgent._process_artifacts] *)

Module Process.
Import Extractor.

(** A discovery dictionary. *)
Record discovery := mk_discovery {
  d_id : string;
  d_type : string;
  d_content : string;
  d_summary : string;
  d_source_url : string;
  d_original_url : option string;
  d_is_wayback : bool;
  d_date : option string;
  d_score : Z;
  d_iteration : Z
}.

(** The part of the agent state [_process_artifacts] reads and writes. *)
Record agent := mk_agent {
  discoveries : list discovery;
  entity_aliases : list string;
  current_iteration : Z
}.

Definition HIGH_VALUE_TYPES : list string := ["username"; "alias"; "wallet_address"; "private_key"].
Definition NAME_TYPES : list string := ["username"; "alias"; "wallet_address"].

(** [_is_duplicate_discovery] *)
Definition is_duplicate_discovery (st : agent) (d : discovery) : bool :=
  existsb (fun e => String.eqb (d_id e) (d_id d)
                    || (String.eqb (d_content e) (d_content d) && negb (String.eqb (d_content d) EmptyString)))
          (discoveries st).

(** The adjusted score computed in the loop body. *)
Definition adjusted_score (st : agent) (a : artifact) : Z :=
  let score := a_score a in
  let score := if Py.mem (a_type a) HIGH_VALUE_TYPES then score + 2 else score in
  let content := Py.lower (a_content a) in
  if existsb (fun alias => Py.contains content (Py.lower alias)) (entity_aliases st)
  then score + 1 else score.

(** One iteration of the [for artifact in artifacts] loop. *)
Definition process_one (source_url : string) (is_wayback : bool) (original_url : option string)
    (st : agent) (a : artifact) : agent * option discovery :=
  let score := adjusted_score st a in
  if score <=? 0 then (st, None)
  else
    let d := mk_discovery (a_hash a) (a_type a) (a_content a) (a_summary a) source_url
               (if is_wayback then original_url else Some source_url) is_wayback
               (a_date a) score (current_iteration st) in
    if is_duplicate_discovery st d then (st, None)
    else
      let aliases := if Py.mem (a_type a) NAME_TYPES
                     then Py.set_add (a_content a) (entity_aliases st)
                     else entity_aliases st in
      (mk_agent (discoveries st ++ [d])%list aliases (current_iteration st), Some d).

Fixpoint process_loop (source_url : string) (is_wayback : bool) (original_url : option string)
    (st : agent) (arts : list artifact) : agent * list discovery :=
  match arts with
  | [] => (st, [])
  | a :: rest =>
      let (st1, od) := process_one source_url is_wayback original_url st a in
      let (st2, ds) := process_loop source_url is_wayback original_url st1 rest in
      (st2, match od with Some d => d :: ds | None => ds end)
  end.

(** [_process_artifacts(artifacts, source_url, is_wayback, original_url)] *)
Definition process_artifacts (st : agent) (arts : list artifact) (source_url : string)
    (is_wayback : bool) (original_url : option string) : agent * list discovery :=
  match arts with
  | [] => (st, [])
  | _ => process_loop source_url is_wayback original_url st arts
  end.

End Process.

(* ------------------------------------------------------------------ *)
(** ** The research queue of [detective_agent.py] *)

Module Frontier.

(** A target dictionary: the keys the queue code reads. *)
Record target := mk_target {
  t_type : option string;
  t_url : option string;
  t_query : option string;
  t_priority : option Z;
  t_use_wayback : bool
}.

(** [x.get('priority', 0)] *)
Definition prio (t : target) : Z :=
  match t_priority t with Some p => p | None => 0 end.

Definition opt_mem (o : option string) (xs : list string) : bool :=
  match o with Some s => Py.mem s xs | None => false end.

Definition is_type (t : target) (k : string) : bool :=
  match t_type t with Some s => String.eqb s k | None => false end.

(** The filter of [_update_research_queue]: [true] keeps the target. *)
Definition keep (investigated : list string) (t : target) : bool :=
  negb (is_type t "website" && opt_mem (t_url t) investigated)
  && negb (is_type t "wayback" && Py.mem ("wayback:" ++ Py.show_opt (t_url t)) investigated)
  && negb (is_type t "search" && Py.mem ("search:" ++ Py.show_opt (t_query t)) investigated)
  && negb (is_type t "github" && opt_mem (t_url t) investigated).

(** [list.sort(key=priority, reverse=True)].  Python's sort is stable, also
    with [reverse=True]: the result is the unique ordering that is
    descending in priority and keeps equal priorities in their previous
    relative order.  It is computed here by insertion. *)
Fixpoint insert_desc (t : target) (q : list target) : list target :=
  match q with
  | [] => [t]
  | u :: q' => if prio u <? prio t then t :: u :: q' else u :: insert_desc t q'
  end.

Definition sort_desc (l : list target) : list target :=
  fold_left (fun acc t => insert_desc t acc) l [].

(** [_update_research_queue(new_targets)] *)
Definition update_research_queue (investigated : list string) (queue new_targets : list target)
  : list target :=
  sort_desc (queue ++ filter (keep investigated) new_targets)%list.

(** [_get_next_investigation_target()]: [research_queue.pop(0)]. *)
Definition get_next (queue : list target) : option target * list target :=
  match queue with
  | [] => (None, [])
  | t :: rest => (Some t, rest)
  end.

(** A sequence of queue operations: a push with the visited set current at
    that moment, or a pop. *)
Inductive op :=
| Push (investigated : list string) (ts : list target)
| Pop.

(** Runs the operations from [queue]; returns the final queue and the
    popped targets in the order they were popped. *)
Fixpoint run_ops (ops : list op) (queue : list target) : list target * list target :=
  match ops with
  | [] => (queue, [])
  | Push inv ts :: rest => run_ops rest (update_research_queue inv queue ts)
  | Pop :: rest =>
      match get_next queue with
      | (Some t, q') => let (qf, popped) := run_ops rest q' in (qf, t :: popped)
      | (None, q') => run_ops rest q'
      end
  end.

(** The targets that survived the filter of each push, in push order. *)
Fixpoint admitted (ops : list op) : list target :=
  match ops with
  | [] => []
  | Push inv ts :: rest => (filter (keep inv) ts ++ admitted rest)%list
  | Pop :: rest => admitted rest
  end.

End Frontier.

(* ------------------------------------------------------------------ *)
(** ** What dispatching a target records in [investigated_urls] *)

Module Dispatch.
Import Frontier.

(** The outcome of the [try] block around [fetch_page] in a handler:
    it completed with content, [fetch_page] returned no content, or
    something inside the block raised. *)
Inductive fetch_result := Fetched | FetchEmpty | FetchRaised.

Fixpoint take_digits (s : string) : string * string :=
  match s with
  | String c r =>
      if Url.is_digit c then let (d, rest) := take_digits r in (String c d, rest)
      else (EmptyString, s)
  | EmptyString => (EmptyString, EmptyString)
  end.

(** [.] does not match a newline. *)
Fixpoint take_line (s : string) : string :=
  match s with
  | String c r => if Ascii.eqb c (ascii_of_nat 10) then EmptyString else String c (take_line r)
  | EmptyString => EmptyString
  end.

Fixpoint drop_n (n : nat) (s : string) : string :=
  match n, s with
  | O, _ => s
  | S k, String _ r => drop_n k r
  | S _, EmptyString => EmptyString
  end.

(** [re.match(r'https://web\.archive\.org/web/(\d{4,14})\*/(.+)', url)]:
    groups 1 and 2. *)
Definition parse_calendar (url : string) : option (string * string) :=
  let pre := "https://web.archive.org/web/" in
  if Py.startswith url pre then
    let (ts, rest) := take_digits (drop_n (String.length pre) url) in
    if ((4 <=? String.length ts) && (String.length ts <=? 14))%nat then
      match rest with
      | String "*" (String "/" r) =>
          let orig := take_line r in
          match orig with EmptyString => None | _ => Some (ts, orig) end
      | _ => None
      end
    else None
  else None.

(** [s.replace(old, new)] for a non-empty [old]. *)
Fixpoint replace_fuel (fuel : nat) (old new s : string) : string :=
  match fuel with
  | O => s
  | S f =>
      if Py.startswith s old then new ++ replace_fuel f old new (drop_n (String.length old) s)
      else match s with
           | String c r => String c (replace_fuel f old new r)
           | EmptyString => EmptyString
           end
  end.

Definition replace (old new s : string) : string :=
  replace_fuel (S (String.length s)) old new s.

Section Handlers.

(** The outcome of the [try] block for each fetched URL. *)
Variable fetch : string -> fetch_result.

(** [_investigate_wayback]: records ["wayback:" + url]. *)
Definition investigate_wayback_v (url : option string) (v : list string) : list string :=
  if Py.truthy url then Py.set_add ("wayback:" ++ Py.show_opt url) v else v.

(** [_investigate_wayback_calendar]: converts the calendar URL to a direct
    snapshot URL; falls back to [_investigate_wayback] on the original URL
    when the direct fetch gives no content or raises. *)
Definition investigate_wayback_calendar_v (calendar_url : string) (v : list string)
  : list string :=
  match parse_calendar calendar_url with
  | None => v
  | Some (timestamp, original_url) =>
      let wayback_url := "https://web.archive.org/web/" ++ timestamp ++ "/http://"
                         ++ replace "http://" EmptyString (replace "https://" EmptyString original_url) in
      match fetch wayback_url with
      | Fetched => v
      | FetchEmpty | FetchRaised => investigate_wayback_v (Some original_url) v
      end
  end.

(** [_investigate_website] *)
Definition investigate_website_v (url : option string) (use_wayback : bool) (v : list string)
  : list string :=
  match url with
  | Some u =>
      if negb (Py.truthy url) then v
      else if Py.contains u "*" && Py.contains u "web.archive.org/web/" then
        investigate_wayback_calendar_v u v
      else if Py.mem u v then v
      else
        let v1 := Py.set_add u v in
        match fetch u with
        | FetchEmpty => if use_wayback then investigate_wayback_v (Some u) v1 else v1
        | Fetched | FetchRaised => v1
        end
  | None => v
  end.

(** [_execute_search]: records ["search:" + query]. *)
Definition execute_search_v (query : option string) (v : list string) : list string :=
  if Py.truthy query then Py.set_add ("search:" ++ Py.show_opt query) v else v.

(** [_investigate_github]: records the URL, then hands a [website] target
    without [use_wayback] to [_investigate_website]. *)
Definition investigate_github_v (url : option string) (v : list string) : list string :=
  match url with
  | Some u =>
      if negb (Py.truthy url) then v
      else if Py.mem u v then v
      else investigate_website_v url false (Py.set_add u v)
  | None => v
  end.

(** [_execute_investigation]: the visited set after dispatching [t]. *)
Definition dispatch_v (t : target) (v : list string) : list string :=
  if is_type t "website" then investigate_website_v (t_url t) (t_use_wayback t) v
  else if is_type t "search" then execute_search_v (t_query t) v
  else if is_type t "wayback" then investigate_wayback_v (t_url t) v
  else if is_type t "github" then investigate_github_v (t_url t) v
  else v.

End Handlers.

(** The VisitedKey of a target, as [_update_research_queue] tests it. *)
Definition visited_key (t : target) : option string :=
  if is_type t "website" || is_type t "github" then t_url t
  else if is_type t "wayback" then Some ("wayback:" ++ Py.show_opt (t_url t))
  else if is_type t "search" then Some ("search:" ++ Py.show_opt (t_query t))
  else None.

(** The locator a handler needs: the query of a search, the URL otherwise. *)
Definition locator (t : target) : option string :=
  if is_type t "search" then t_query t else t_url t.

(** A [website] target whose URL takes the Wayback-calendar branch. *)
Definition is_calendar_target (t : target) : bool :=
  is_type t "website" &&
  match t_url t with
  | Some u => Py.contains u "*" && Py.contains u "web.archive.org/web/"
  | None => false
  end.

End Dispatch.

(* ------------------------------------------------------------------ *)
(** ** Snapshot sampling in [_investigate_wayback] *)

Module Snapshots.

(** A snapshot dictionary from [WaybackMachine.get_snapshots]. *)
Record snapshot := mk_snapshot {
  s_timestamp : option string;
  s_wayback_url : option string
}.

(** [x.get('timestamp', '')] *)
Definition ts_key (s : snapshot) : string :=
  match s_timestamp s with Some t => t | None => EmptyString end.

(** Python's string order on the timestamps. *)
Definition ts_lt (a b : snapshot) : bool :=
  match String_as_OT.compare (ts_key a) (ts_key b) with Lt => true | _ => false end.

Definition ts_le (a b : snapshot) : Prop := String_as_OT.compare (ts_key a) (ts_key b) <> Gt.

(** [sorted(snapshots, key=timestamp)], stable, computed by insertion. *)
Fixpoint insert_asc (x : snapshot) (l : list snapshot) : list snapshot :=
  match l with
  | [] => [x]
  | y :: ys => if ts_lt x y then x :: y :: ys else y :: insert_asc x ys
  end.

Definition sort_asc (l : list snapshot) : list snapshot :=
  fold_left (fun acc x => insert_asc x acc) l [].

Definition no_snapshot : snapshot := mk_snapshot None None.

(** [random.sample(population, k)] picks [k] elements at distinct
    positions; [picks] are those positions, drawn by the random source. *)
Definition sample_ok (n k : nat) (picks : list nat) : Prop :=
  NoDup picks /\ List.length picks = k /\ Forall (fun i => (i < n)%nat) picks.

(** The selection step of [_investigate_wayback]. *)
Definition select_snapshots (snapshots : list snapshot) (picks : list nat) : list snapshot :=
  if (5 <? List.length snapshots)%nat then
    let sorted_snapshots := sort_asc snapshots in
    let selected := [hd no_snapshot sorted_snapshots; last sorted_snapshots no_snapshot] in
    if (2 <? List.length sorted_snapshots)%nat then
      let middle_snapshots := removelast (tl sorted_snapshots) in
      (selected ++ map (fun i => nth i middle_snapshots no_snapshot) picks)%list
    else selected
  else snapshots.

End Snapshots.

(* ------------------------------------------------------------------ *)
(** ** The main loop of [start_investigation] *)

Module Controller.

(** Which guard ended the loop: the three guards of
    [_should_continue_investigation], the idle [break] inside the loop body,
    or the model's fuel. *)
Inductive stop := MaxIterations | MaxIdle | MaxTime | IdleBreak | OutOfFuel.

Section Loop.

Variable max_iterations max_idle_iterations : Z.
(** [time.time() - start_time >= max_time_seconds] at the guard check made
    when [current_iteration] is the argument. *)
Variable time_up : Z -> bool.
(** Whether [_get_next_investigation_target] yields a target in the given
    iteration (after any leads generated before it). *)
Variable has_target : Z -> bool.
(** Whether [_execute_investigation] returns discoveries in the given iteration. *)
Variable found : Z -> bool.

(** [_should_continue_investigation] *)
Definition should_continue (it idle : Z) : option stop :=
  if max_iterations <=? it then Some MaxIterations
  else if max_idle_iterations <=? idle then Some MaxIdle
  else if time_up it then Some MaxTime
  else None.

(** The [while] loop; returns the stop reason and [current_iteration]. *)
Fixpoint investigation_loop (fuel : nat) (it idle : Z) : stop * Z :=
  match fuel with
  | O => (OutOfFuel, it)
  | S f =>
      match should_continue it idle with
      | Some r => (r, it)
      | None =>
          let it' := it + 1 in
          if negb (has_target it') then
            let idle' := idle + 1 in
            if max_idle_iterations <=? idle' then (IdleBreak, it')
            else investigation_loop f it' idle'
          else if found it' then investigation_loop f it' 0
          else investigation_loop f it' (idle + 1)
      end
  end.

Definition start_investigation (fuel : nat) : stop * Z := investigation_loop fuel 0 0.

End Loop.

Definition idle_guard (r : stop) : Prop := r = MaxIdle \/ r = IdleBreak.

End Controller.

(* ------------------------------------------------------------------ *)
(** ** [LLMIntegration._extract_json] *)

Module Json.

(** What [json.loads] accepts: one JSON value between JSON whitespace,
    with Python's [NaN], [Infinity] and [-Infinity] and without control
    characters inside strings. *)
Definition is_json_ws (c : ascii) : bool :=
  let n := nat_of_ascii c in (Nat.eqb n 32 || Nat.eqb n 9 || Nat.eqb n 10 || Nat.eqb n 13)%nat.

Fixpoint skip_json_ws (s : string) : string :=
  match s with
  | String c r => if is_json_ws c then skip_json_ws r else s
  | EmptyString => s
  end.

Definition lit (p s : string) : option string :=
  if Py.startswith s p then Some (Dispatch.drop_n (String.length p) s) else None.

Fixpoint digits1 (s : string) : option string :=
  match s with
  | String c r => if Url.is_digit c then
                    match digits1 r with Some r' => Some r' | None => Some r end
                  else None
  | EmptyString => None
  end.

Definition opt_digits (s : string) : string :=
  match digits1 s with Some r => r | None => s end.

(** A number: optional minus, an integer part without leading zeros,
    optional fraction, optional exponent. *)
Definition number (s : string) : option string :=
  let s1 := match s with String "-" r => r | _ => s end in
  let int_part := match s1 with
                  | String "0" r => Some r
                  | String c _ => if Url.is_digit c then digits1 s1 else None
                  | EmptyString => None
                  end in
  match int_part with
  | None => None
  | Some s2 =>
      let s3 := match s2 with
                | String "." r => match digits1 r with Some r' => r' | None => s2 end
                | _ => s2
                end in
      let s4 := match s3 with
                | String e r =>
                    if Ascii.eqb e "e" || Ascii.eqb e "E" then
                      let r1 := match r with String "+" r' | String "-" r' => r' | _ => r end in
                      match digits1 r1 with Some r' => r' | None => s3 end
                    else s3
                | EmptyString => s3
                end in
      Some s4
  end.

Fixpoint hex4 (n : nat) (s : string) : option string :=
  match n with
  | O => Some s
  | S k => match s with
           | String c r => if Extractor.is_hex c then hex4 k r else None
           | EmptyString => None
           end
  end.

(** The body of a string after its opening quote. *)
Fixpoint string_body (fuel : nat) (s : string) : option string :=
  match fuel with
  | O => None
  | S f =>
      match s with
      | EmptyString => None
      | String c r =>
          if Ascii.eqb c Extractor.dquote then Some r
          else if Ascii.eqb c "\" then
            match r with
            | String e r' =>
                if Ascii.eqb e "u" then
                  match hex4 4 r' with Some r'' => string_body f r'' | None => None end
                else if existsb (Ascii.eqb e) [Extractor.dquote; "\"; "/"; "b"; "f"; "n"; "r"; "t"]%char
                then string_body f r'
                else None
            | EmptyString => None
            end
          else if (nat_of_ascii c <? 32)%nat then None
          else string_body f r
      end
  end.

Definition json_string (s : string) : option string :=
  match s with String c r => if Ascii.eqb c Extractor.dquote then string_body (S (String.length r)) r else None
  | EmptyString => None end.

(** A value at the start of [s] (after whitespace): the rest. *)
Fixpoint value (fuel : nat) (s : string) : option string :=
  match fuel with
  | O => None
  | S f =>
      let s := skip_json_ws s in
      match s with
      | String "{" r =>
          let r := skip_json_ws r in
          match r with
          | String "}" r' => Some r'
          | _ => members f r
          end
      | String "[" r =>
          let r := skip_json_ws r in
          match r with
          | String "]" r' => Some r'
          | _ => elements f r
          end
      | String "t" _ => lit "true" s
      | String "f" _ => lit "false" s
      | String "n" _ => lit "null" s
      | String "N" _ => lit "NaN" s
      | String "I" _ => lit "Infinity" s
      | String "-" (String "I" _) => lit "-Infinity" s
      | String c _ => if Ascii.eqb c Extractor.dquote then json_string s else number s
      | EmptyString => None
      end
  end
(** [key: value (, key: value)* }] *)
with members (fuel : nat) (s : string) : option string :=
  match fuel with
  | O => None
  | S f =>
      match json_string (skip_json_ws s) with
      | None => None
      | Some r =>
          match skip_json_ws r with
          | String ":" r' =>
              match value f r' with
              | None => None
              | Some r'' =>
                  match skip_json_ws r'' with
                  | String "," r3 => members f r3
                  | String "}" r3 => Some r3
                  | _ => None
                  end
              end
          | _ => None
          end
      end
  end
(** [value (, value)* ]] *)
with elements (fuel : nat) (s : string) : option string :=
  match fuel with
  | O => None
  | S f =>
      match value f s with
      | None => None
      | Some r =>
          match skip_json_ws r with
          | String "," r' => elements f r'
          | String "]" r' => Some r'
          | _ => None
          end
      end
  end.

(** [s] is one JSON document as [json.loads] parses it.  Beyond this
    grammar, [json.loads] also fails on input the interpreter cannot
    handle: nesting deeper than the recursion limit ([RecursionError]) and
    an integer literal of more than 4300 digits ([ValueError] from [int]);
    [within_limits] below is a condition on the text that excludes both. *)
Definition json_valid (s : string) : bool :=
  match value (S (String.length s)) s with
  | Some r => match skip_json_ws r with EmptyString => true | _ => false end
  | None => false
  end.

(** Number of opening brackets [{] and [[] in [s]: a bound on the
    nesting depth of any JSON value in it. *)
Fixpoint count_openers (s : string) : nat :=
  match s with
  | EmptyString => O
  | String c r => (if Ascii.eqb c "{" || Ascii.eqb c "[" then 1 else 0) + count_openers r
  end.

(** Length of the longest run of consecutive decimal digits in [s], a
    bound on the digits of any integer literal in it; [cur] is the length
    of the run in progress. *)
Fixpoint max_digit_run_from (cur : nat) (s : string) : nat :=
  match s with
  | EmptyString => cur
  | String c r =>
      if Url.is_digit c then max_digit_run_from (S cur) r
      else Nat.max cur (max_digit_run_from O r)
  end.

Definition max_digit_run (s : string) : nat := max_digit_run_from O s.

(** A text on which [json.loads] hits neither of its resource limits:
    at most 200 opening brackets, far below the default recursion limit
    of 1000 even after the frames of the agent's own call chain, and no
    run of more than 4300 digits, the default [int] conversion limit. *)
Definition within_limits (s : string) : bool :=
  Nat.leb (count_openers s) 200 && Nat.leb (max_digit_run s) 4300.

(** [s.split(sep, 1)] when [sep in s]: the text before and after the first
    occurrence. *)
Fixpoint split1 (s sep : string) : option (string * string) :=
  if Py.startswith s sep then Some (EmptyString, Dispatch.drop_n (String.length sep) s)
  else match s with
       | String c r => match split1 r sep with
                       | Some (b, a) => Some (String c b, a)
                       | None => None
                       end
       | EmptyString => None
       end.

Definition after_first (s sep : string) : string :=
  match split1 s sep with Some (_, a) => a | None => EmptyString end.
Definition before_first (s sep : string) : string :=
  match split1 s sep with Some (b, _) => b | None => s end.

(** [s.find(c)] and [s.rfind(c)] for a character. *)
Fixpoint find_char (c : ascii) (s : string) : option nat :=
  match s with
  | EmptyString => None
  | String d r => if Ascii.eqb c d then Some O
                  else match find_char c r with Some i => Some (S i) | None => None end
  end.

Fixpoint rfind_char (c : ascii) (s : string) : option nat :=
  match s with
  | EmptyString => None
  | String d r => match rfind_char c r with
                  | Some i => Some (S i)
                  | None => if Ascii.eqb c d then Some O else None
                  end
  end.

(** [_extract_json(text)] *)
Definition extract_json (text : string) : string :=
  let fenced :=
    if Py.contains text "```json" && Py.contains (after_first text "```json") "```" then
      Some (Py.strip (before_first (after_first text "```json") "```"))
    else if Py.contains text "```" && Py.contains (after_first text "```") "```" then
      let json_text := Py.strip (before_first (after_first text "```") "```") in
      if json_valid json_text then Some json_text else None
    else None in
  match fenced with
  | Some j => j
  | None =>
      let braces :=
        if Py.contains text "{" && Py.contains text "}" then
          match find_char "{" text, rfind_char "}" text with
          | Some start, Some last =>
              let end_ := S last in
              let json_text := Py.strip (substring start (end_ - start) text) in
              if json_valid json_text then Some json_text else None
          | _, _ => None
          end
        else None in
      match braces with
      | Some j => j
      | None => "{}"
      end
  end.

End Json.

(* ------------------------------------------------------------------ *)
(** ** [store_artifacts] *)

(** The effects of [store_artifacts(artifacts)]: the JSON files it writes,
    in order, each with the dictionary [json.dump] serialises, the text it
    appends to [found.txt], and its return value.  The date of the run
    ([datetime.now().strftime('%Y-%m-%d')]) is a parameter. *)
Module Store.
Import Extractor.

(** The JSON values an artifact dictionary holds. *)
Inductive jval := JStr (s : string) | JInt (z : Z) | JNull.

(** A dictionary as its list of items, in insertion order. *)
Definition dict := list (string * jval).

Definition base_dir : string := "/home/computeruse/.anthropic/narrahunt_phase2".

(** The dictionary built by the [extract_*] functions, keys in the order
    of the literal. *)
Definition artifact_dict (a : artifact) : dict :=
  [("type", JStr (a_type a)); ("content", JStr (a_content a));
   ("summary", JStr (a_summary a)); ("location", JStr (a_location a));
   ("hash", JStr (a_hash a)); ("score", JInt (a_score a)); ("url", JStr (a_url a));
   ("date", match a_date a with Some d => JStr d | None => JNull end)].

(** [d[k]] lookup. *)
Fixpoint dict_get (k : string) (d : dict) : option jval :=
  match d with
  | [] => None
  | (k', v) :: r => if String.eqb k k' then Some v else dict_get k r
  end.

(** [d[k] = v]: an existing key keeps its place, a new key goes last. *)
Fixpoint dict_set (k : string) (v : jval) (d : dict) : dict :=
  match d with
  | [] => [(k, v)]
  | (k', v') :: r => if String.eqb k k' then (k', v) :: r else (k', v') :: dict_set k v r
  end.

(** [d.pop(k, None)] *)
Fixpoint dict_pop (k : string) (d : dict) : dict :=
  match d with
  | [] => []
  | (k', v') :: r => if String.eqb k k' then r else (k', v') :: dict_pop k r
  end.

Definition SENSITIVE_TYPES : list string := ["private_key"; "seed_phrase"; "api_key"].

(** [safe_artifact] *)
Definition safe_artifact (a : artifact) : dict :=
  let d := artifact_dict a in
  if Py.mem (a_type a) SENSITIVE_TYPES
  then dict_pop "content" (dict_set "content_hash" (JStr (a_hash a)) d)
  else d.

Definition artifacts_dir (today : string) : string :=
  base_dir ++ "/results/artifacts/" ++ today.

Definition artifact_path (today : string) (a : artifact) : string :=
  artifacts_dir today ++ "/" ++ a_hash a ++ ".json".

Definition nl : string := String (ascii_of_nat 10) EmptyString.

Fixpoint repeat_str (n : nat) (s : string) : string :=
  match n with O => EmptyString | S k => s ++ repeat_str k s end.

(** [str(n)] for an integer. *)
Definition str_int (z : Z) : string := NilEmpty.string_of_int (Z.to_int z).

(** The seven [found_file.write] calls for one artifact. *)
Definition found_entry (today : string) (a : artifact) : string :=
  "URL: " ++ a_url a ++ nl ++
  "Type: " ++ a_type a ++ nl ++
  "Score: " ++ str_int (a_score a) ++ nl ++
  "Location: " ++ a_location a ++ nl ++
  "Summary: " ++ a_summary a ++ nl ++
  "File: " ++ artifact_path today a ++ nl ++
  repeat_str 80 "-" ++ nl.

(** The loop: the files written (path and dictionary) and the text
    appended to [found.txt]. *)
Fixpoint store_loop (today : string) (arts : list artifact) : list (string * dict) * string :=
  match arts with
  | [] => ([], EmptyString)
  | a :: rest =>
      let (files, found) := store_loop today rest in
      if 0 <? a_score a
      then ((artifact_path today a, safe_artifact a) :: files, found_entry today a ++ found)
      else (files, found)
  end.

(** [store_artifacts(artifacts)]: the effects and the returned count. *)
Definition store_artifacts (today : string) (arts : list artifact)
  : list (string * dict) * string * nat :=
  let (files, found) := store_loop today arts in
  (files, found, List.length (filter (fun a => 0 <? a_score a) arts)).

(** The directory after the writes: the last dictionary written to each
    path. *)
Fixpoint written (files : list (string * dict)) (p : string) : option dict :=
  match files with
  | [] => None
  | (p', d) :: rest =>
      match written rest p with
      | Some d' => Some d'
      | None => if String.eqb p p' then Some d else None
      end
  end.

End Store.

(* ------------------------------------------------------------------ *)
(** ** Targets from the advisor's suggestions *)

(** The conversion of the suggestions object in [_consult_llm_for_next_steps]
    and [_generate_new_leads].  The advisor call, [_extract_json] and
    [json.loads] are given by their result: [None] when one of them raises
    (the [except] branch), otherwise the four lists
    [suggestions.get(..., [])] returns.  Each entry is a dictionary whose
    ['url'] and ['query'] values are strings or absent.  [_is_valid_url]
    and [_should_check_wayback] are parameters.  The target fields the
    queue does not read ([rationale], [engine], [year_range]) are left out;
    a target without ['use_wayback'] reads as [False]. *)
Module Leads.
Import Frontier.

Record suggestion := mk_suggestion {
  s_url : option string;
  s_query : option string
}.

Record suggestions := mk_suggestions {
  website_targets : list suggestion;
  search_queries : list suggestion;
  wayback_targets : list suggestion;
  github_targets : list suggestion
}.

Section Convert.
Variable is_valid_url : string -> bool.
Variable should_check_wayback : string -> bool.
Variable investigated : list string.

(** The body of the [website_targets] loop. *)
Definition website_target (p : Z) (s : suggestion) : list target :=
  match s_url s with
  | Some url =>
      if Py.truthy (Some url) && is_valid_url url && negb (Py.mem url investigated)
      then [mk_target (Some "website") (Some url) None (Some p) (should_check_wayback url)]
      else []
  | None => []
  end.

(** The body of the [search_queries] loop. *)
Definition search_target (p : Z) (s : suggestion) : list target :=
  match s_query s with
  | Some q =>
      if Py.truthy (Some q) && negb (Py.mem ("search:" ++ q) investigated)
      then [mk_target (Some "search") None (Some q) (Some p) false]
      else []
  | None => []
  end.

(** The body of the [wayback_targets] loop. *)
Definition wayback_target (p : Z) (s : suggestion) : list target :=
  match s_url s with
  | Some url =>
      if Py.truthy (Some url) && is_valid_url url && negb (Py.mem ("wayback:" ++ url) investigated)
      then [mk_target (Some "wayback") (Some url) None (Some p) false]
      else []
  | None => []
  end.

(** The body of the [github_targets] loop. *)
Definition github_target (p : Z) (s : suggestion) : list target :=
  match s_url s with
  | Some url =>
      if Py.truthy (Some url) && is_valid_url url && negb (Py.mem url investigated)
      then [mk_target (Some "github") (Some url) None (Some p) false]
      else []
  | None => []
  end.

(** The four loops, in order, with the priorities of websites, searches,
    Wayback targets and GitHub targets. *)
Definition convert (pw ps pb pg : Z) (sg : suggestions) : list target :=
  (flat_map (website_target pw) (website_targets sg)
   ++ flat_map (search_target ps) (search_queries sg)
   ++ flat_map (wayback_target pb) (wayback_targets sg)
   ++ flat_map (github_target pg) (github_targets sg))%list.

(** [_consult_llm_for_next_steps(discoveries)] *)
Definition consult_llm_for_next_steps (discoveries : list Process.discovery) (sg : option suggestions)
  : list target :=
  match discoveries with
  | [] => []
  | _ => match sg with Some s => convert 9 8 7 8 s | None => [] end
  end.

(** [_generate_new_leads()]: the research queue afterwards. *)
Definition generate_new_leads (queue : list target) (sg : option suggestions) : list target :=
  match sg with
  | Some s => update_research_queue investigated queue (convert 7 6 5 6 s)
  | None => queue
  end.

End Convert.
End Leads.

(* ------------------------------------------------------------------ *)
(** ** [extract_solidity_contracts] *)

(** The candidates of [extract_solidity_contracts]: [blocks] are the
    [get_text()] of the [<pre>] and [<code>] elements in document order. *)
Module Solidity.
Import Extractor.

(** [\w] on ASCII. *)
Definition is_word (c : ascii) : bool := Url.is_alpha c || Url.is_digit c || Ascii.eqb c "_".

(** The longest prefix of characters satisfying [p], and the rest. *)
Fixpoint take_while (p : ascii -> bool) (s : string) : string * string :=
  match s with
  | String c r => if p c then let (w, rest) := take_while p r in (String c w, rest) else (EmptyString, s)
  | EmptyString => (EmptyString, EmptyString)
  end.

(** [contract\s+(\w+)\s*{] at the start of [s]: group 1 and the text after
    the match.  The greedy repetitions cannot give back characters here:
    a shorter [\s+] or [\w+] leaves a character the next item cannot
    match. *)
Definition match_contract (s : string) : option (string * string) :=
  if Py.startswith s "contract" then
    let (ws1, r1) := take_while Py.isspace (Dispatch.drop_n 8 s) in
    let (name, r2) := take_while is_word r1 in
    match ws1, name, skip_ws r2 with
    | String _ _, String _ _, String "{" rest => Some (name, rest)
    | _, _, _ => None
    end
  else None.

(** [re.finditer] returning, for each match, group 1 and the text from
    [match.start()] on. *)
Fixpoint finditer_start (m : string -> option (string * string)) (fuel : nat) (s : string)
  : list (string * string) :=
  match fuel with
  | O => []
  | S f =>
      match m s with
      | Some (g, rest) => (g, s) :: finditer_start m f rest
      | None =>
          match s with
          | EmptyString => []
          | String _ r => finditer_start m f r
          end
      end
  end.

(** The bracket-matching loop [for j in range(start_pos, len(code_text))]
    run on [code_text[start_pos:]] with [open_braces]: the text up to and
    including the brace that brings the count back to 0, i.e.
    [code_text[start_pos:end_pos]]; [None] when the loop ends without
    [break] ([end_pos] stays [start_pos] and the match is skipped). *)
Fixpoint scan_braces (open_braces : Z) (s : string) : option string :=
  match s with
  | EmptyString => None
  | String c r =>
      if Ascii.eqb c "{" then option_map (String c) (scan_braces (open_braces + 1) r)
      else if Ascii.eqb c "}" then
        if open_braces - 1 =? 0 then Some (String c EmptyString)
        else option_map (String c) (scan_braces (open_braces - 1) r)
      else option_map (String c) (scan_braces open_braces r)
  end.

(** [summary[:97] + "..."] when [len(summary) > 100]. *)
Definition truncate_summary (s : string) : string :=
  if (100 <? String.length s)%nat then substring 0 97 s ++ "..." else s.

(** The contracts of one code block, [i] being its index. *)
Definition block_candidates (i : nat) (code_text : string) : list candidate :=
  flat_map (fun m : string * string =>
      let (contract_name, at_start) := m in
      match scan_braces 0 at_start with
      | Some contract_code =>
          [mk_candidate "solidity_contract" contract_code
             ("Contract " ++ contract_name ++ ": " ++ truncate_summary contract_code)
             ("Code block #" ++ NilEmpty.string_of_uint (Nat.to_uint (S i)))]
      | None => []
      end)
    (finditer_start match_contract (S (String.length code_text)) code_text).

Fixpoint blocks_from (i : nat) (blocks : list string) : list candidate :=
  match blocks with
  | [] => []
  | b :: bs => (block_candidates i b ++ blocks_from (S i) bs)%list
  end.

Definition solidity_candidates (blocks : list string) : list candidate := blocks_from 0 blocks.

(** The number of [{] minus the number of [}]. *)
Fixpoint brace_depth (s : string) : Z :=
  match s with
  | EmptyString => 0
  | String c r => (if Ascii.eqb c "{" then 1 else if Ascii.eqb c "}" then -1 else 0) + brace_depth r
  end.

End Solidity.

(* ------------------------------------------------------------------ *)
(** ** [extract_seed_phrases] *)

(** The candidates of [extract_seed_phrases].  [groups] are the group-1
    strings of the [re.finditer] over [soup.get_text()] for the mnemonic
    label pattern, in match order (any strings: the checks below do not
    rely on the pattern); [blocks] are the [get_text()] of the [<p>],
    [<pre>] and [<code>] elements in document order; [find_location] is
    [find_location(soup, .)]. *)
Module Seeds.
Import Extractor.

Definition BIP39_WORDS : list string := [
  "abandon"; "ability"; "able"; "about"; "above"; "absent"; "absorb";
  "abstract"; "absurd"; "abuse"; "access"; "accident"; "account"; "accuse";
  "achieve"; "acid"; "acoustic"; "acquire"; "across"; "act"; "action";
  "actor"; "actress"; "actual"; "adapt"; "add"; "addict"; "address";
  "adjust"; "admit"; "adult"; "advance"; "advice"; "aerobic"; "affair";
  "afford"; "afraid"; "again"; "age"; "agent"; "agree"; "ahead"; "aim";
  "air"; "airport"; "aisle"; "alarm"; "album"; "alcohol"; "alert"; "alien";
  "all"; "alley"; "allow"; "almost"; "alone"; "alpha"; "already"; "also";
  "alter"; "always"; "amateur"; "amazing"; "among"; "amount"; "amused";
  "analyst"; "anchor"; "ancient"; "anger"; "angle"; "angry"; "animal";
  "ankle"; "announce"; "annual"; "another"; "answer"; "antenna"; "antique";
  "anxiety"; "any"; "apart"; "apology"; "appear"; "apple"; "approve";
  "april"; "arch"; "arctic"; "area"; "arena"; "argue"; "arm"; "armed";
  "armor"; "army"; "around"; "arrange"; "arrest"; "arrive"; "arrow"; "art";
  "artefact"; "artist"; "artwork"; "ask"; "aspect"; "assault"; "asset";
  "assist"; "assume"; "asthma"; "athlete"; "atom"; "attack"; "attend";
  "attitude"; "attract"; "auction"; "audit"; "august"; "aunt"; "author";
  "auto"; "autumn"; "average"; "avocado"; "avoid"; "awake"; "aware"; "away";
  "awesome"; "awful"; "awkward"; "axis"; "wrong"; "yellow"; "zebra"; "zoo"].

(** The word counts of a BIP39 mnemonic. *)
Definition PHRASE_LENGTHS : list nat := [12; 15; 18; 21; 24]%nat.

Definition mem_nat (n : nat) (l : list nat) : bool := existsb (Nat.eqb n) l.

(** [str.split()] with no separator: the text before the first
    whitespace character, and the words after it. *)
Fixpoint split_go (s : string) : string * list string :=
  match s with
  | EmptyString => (EmptyString, [])
  | String c r =>
      let (w, ws) := split_go r in
      if Py.isspace c then (EmptyString, match w with EmptyString => ws | _ => w :: ws end)
      else (String c w, ws)
  end.

Definition split (s : string) : list string :=
  let (w, ws) := split_go s in
  match w with EmptyString => ws | _ => w :: ws end.

Definition str_nat (n : nat) : string := NilEmpty.string_of_uint (Nat.to_uint n).

Definition seed_summary (n : nat) : string := "[" ++ str_nat n ++ "-word seed phrase redacted]".

Section Seeds.
Variable find_location : string -> string.

(** The body of the first loop. *)
Definition mnemonic_candidate (g : string) : list candidate :=
  let phrase_text := Py.lower (Py.strip g) in
  let words := split phrase_text in
  if mem_nat (List.length words) PHRASE_LENGTHS && forallb (fun w => Py.mem w BIP39_WORDS) words
  then [mk_candidate "seed_phrase" phrase_text (seed_summary (List.length words))
          (find_location phrase_text)]
  else [].

(** The body of the second loop, [i] being the index of the block. *)
Definition block_candidate (i : nat) (block : string) : list candidate :=
  let words := split (Py.lower block) in
  if mem_nat (List.length words) PHRASE_LENGTHS then
    let valid_words := filter (fun w => Py.mem w BIP39_WORDS) words in
    if mem_nat (List.length valid_words) PHRASE_LENGTHS then
      let phrase_text := String.concat " " valid_words in
      [mk_candidate "seed_phrase" phrase_text (seed_summary (List.length valid_words))
         ("Text block #" ++ str_nat (S i))]
    else []
  else [].

Fixpoint blocks_from (i : nat) (blocks : list string) : list candidate :=
  match blocks with
  | [] => []
  | b :: bs => (block_candidate i b ++ blocks_from (S i) bs)%list
  end.

Definition seed_candidates (groups blocks : list string) : list candidate :=
  (flat_map mnemonic_candidate groups ++ blocks_from 0 blocks)%list.

End Seeds.
End Seeds.

(* ================================================================== *)
(** * Properties *)

(* ------------------------------------------------------------------ *)
(** ** Predicates used in the statements *)

Module Props.
Import Extractor Frontier.

(** Every character of the string satisfies [p]. *)
Fixpoint str_forall (p : ascii -> bool) (s : string) : bool :=
  match s with
  | EmptyString => true
  | String c r => p c && str_forall p r
  end.

(** Characters that are not a space once lower-cased. *)
Definition nospace (c : ascii) : bool := negb (Ascii.eqb (Py.lower_char c) " ").

(** A key candidate: no space character, longer than 20 characters. *)
Definition key_like (k : string) : Prop :=
  str_forall nospace k = true /\ (20 < String.length k)%nat.

(** A pass starting from the hash set [hs] returned [arts] and the set
    [hs']: it appended exactly its artifacts' hashes, which are new and
    pairwise distinct, and each is the hash of the artifact's content. *)
Definition fresh_pass (sha : string -> string) (hs : list string) (arts : list artifact) (hs' : list string) : Prop :=
  hs' = (hs ++ map a_hash arts)%list /\ NoDup (map a_hash arts) /\
  (forall x, In x (map a_hash arts) -> ~ In x hs) /\
  (forall a, In a arts -> a_hash a = generate_hash sha (a_content a)).

(** The targets of priority [k], in queue order. *)
Definition filter_k (k : Z) (l : list target) : list target := filter (fun t => prio t =? k) l.

(** The queue is in descending order of priority. *)
Definition sorted_desc (q : list target) : Prop := StronglySorted (fun a b => prio b <= prio a) q.

(** Every string of the visited set [v] is in [v']. *)
Definition subset_v (v v' : list string) : Prop :=
  forall x, Py.mem x v = true -> Py.mem x v' = true.

(** The fields every pass sets from the call. *)
Definition scored (sha : string -> string) (url : string) (date : option string) (a : artifact) : Prop :=
  a_score a = score_artifact url (a_content a) date /\ a_url a = url /\ a_date a = date /\
  a_hash a = generate_hash sha (a_content a).

(** Characters that cannot start a key label once lower-cased. *)
Definition no_label_start (c : ascii) : bool :=
  negb (Ascii.eqb (Py.lower_char c) "p" || Ascii.eqb (Py.lower_char c) "s"
        || Ascii.eqb (Py.lower_char c) "k").


(** Two discoveries [_is_duplicate_discovery] tells apart: different ids,
    and different contents unless the content is empty. *)
Definition distinct_disc (e d : Process.discovery) : Prop :=
  Process.d_id e <> Process.d_id d /\
  (Process.d_content e = Process.d_content d -> Process.d_content d = EmptyString).

(** Characters other than a newline. *)
Definition not_newline (c : ascii) : bool := negb (Ascii.eqb c (ascii_of_nat 10)).

(** Characters other than a backtick. *)
Definition no_backtick (c : ascii) : bool := negb (Ascii.eqb c "`").

(** A target whose VisitedKey is not in [inv], with a non-empty locator,
    and, unless it is a search, a URL accepted by [is_valid_url]. *)
Definition fresh_target (is_valid_url : string -> bool) (inv : list string) (t : target) : Prop :=
  (exists k, Dispatch.visited_key t = Some k /\ Py.mem k inv = false) /\
  Py.truthy (Dispatch.locator t) = true /\
  (t_type t = Some "search" \/ exists u, t_url t = Some u /\ is_valid_url u = true).

(** Characters other than a brace. *)
Definition no_brace (c : ascii) : bool := negb (Ascii.eqb c "{" || Ascii.eqb c "}").

(** Characters that are not whitespace. *)
Definition word_char (c : ascii) : bool := negb (Py.isspace c).

End Props.

(* ------------------------------------------------------------------ *)
(** ** Scenarios used by the claims *)

Module Scenarios.
Import Extractor.

Definition k64 : string :=
  "4c0883a69102937d6231471b5dbb6204fe5129617082792ae468d01a3f362318".

(** A page that labels a 64-hex-digit key and says it is an example only. *)
Definition example_key_text : string :=
  "Private key: " ++ k64 ++ " -- this key is for illustration, example only.".

Definition example_url : string := "https://example.com/wallets/guide".

Definition no_location (_ : string) : string := "Unknown location".

(** Any digest function will do for the scoring scenarios: scores do not
    depend on the digest. *)
Definition id_digest (s : string) : string := s.

Definition agent0 : Process.agent := Process.mk_agent [] ["Vitalik Buterin"] 1.

(** The first private-key artifact found in [example_key_text]. *)
Definition example_key_artifact : artifact :=
  hd (mk_artifact EmptyString EmptyString EmptyString EmptyString EmptyString 0 EmptyString None)
     (fst (extract_private_keys id_digest no_location example_key_text example_url None [])).

(** The adjusted score as the specification words it: the extraction score, +2 for the
    types username, alias, wallet_address and private_key, +1 when a known
    alias occurs in the content, both compared lower-cased. *)
Definition adjusted_score_spec (aliases : list string) (a : artifact) : Z :=
  a_score a
  + (if existsb (String.eqb (a_type a)) ["username"; "alias"; "wallet_address"; "private_key"]
     then 2 else 0)
  + (if existsb (fun al => Py.contains (Py.lower (a_content a)) (Py.lower al)) aliases
     then 1 else 0).

Definition low_artifact : artifact := mk_artifact "api_key" "abc" "s" "l" "h" (-3) example_url None.

Definition key_artifact : artifact := mk_artifact "private_key" k64 "s" "l" "h" 2 example_url None.

Definition vitalik_site : Frontier.target :=
  Frontier.mk_target (Some "website") (Some "https://vitalik.ca") None (Some 8) true.

Definition vitalik_repo : Frontier.target :=
  Frontier.mk_target (Some "github") (Some "https://vitalik.ca") None (Some 6) false.

Definition fetch_ok (_ : string) : Dispatch.fetch_result := Dispatch.Fetched.

(** A website target whose URL is a Wayback-calendar URL. *)
Definition calendar_target : Frontier.target :=
  Frontier.mk_target (Some "website") (Some "https://web.archive.org/web/2014*/vitalik.ca")
    None (Some 7) false.

Definition fetch_empty (_ : string) : Dispatch.fetch_result := Dispatch.FetchEmpty.

Definition snap (ts : string) : Snapshots.snapshot :=
  Snapshots.mk_snapshot (Some ts) (Some ("https://web.archive.org/web/" ++ ts ++ "/http://vitalik.ca")).

Definition seven_snapshots : list Snapshots.snapshot :=
  map snap ["20160101000000"; "20140101000000"; "20190101000000"; "20150101000000";
            "20180101000000"; "20130101000000"; "20170101000000"].

Definition newline : string := String (ascii_of_nat 10) EmptyString.

(** An advisory response whose [```json] block is not JSON. *)
Definition fenced_non_json : string := "```json" ++ newline ++ "not json" ++ newline ++ "```".

(** A 40-digit address and 24 more hex digits: together a [0x]-prefixed
    64-digit string. *)
Definition addr40 : string := "5aAeb6053F3E94C9b9A09f33669435E7Ef1BeAed".
Definition tail24 : string := "0123456789abcdef01234567".

Definition wallet_page : string :=
  "<html><head><title>Deployment notes</title></head><body><p>0x" ++ addr40 ++ tail24
  ++ "</p></body></html>".

(** A plain [```] block that is not JSON. *)
Definition fenced_plain : string := "```" ++ newline ++ "not json" ++ newline ++ "```".

(** The inside of a JSON object with one key holding a list of numbers and null. *)
Definition json_mid : string := String dquote ("a" ++ String dquote ": [1, 2.5e3, null]").


(** Suggestions with one website and one search query. *)
Definition some_suggestions : Leads.suggestions :=
  Leads.mk_suggestions [Leads.mk_suggestion (Some "https://vitalik.ca/general/2017/wallets.html") None]
    [Leads.mk_suggestion None (Some "Vitalik Buterin wallet")] [] [].

(** The search target [_consult_llm_for_next_steps] builds from them. *)
Definition wallet_search : Frontier.target :=
  Frontier.mk_target (Some "search") None (Some "Vitalik Buterin wallet") (Some 8) false.

(** A code block holding one contract with a nested block. *)
Definition contract_block : string :=
  "pragma solidity ^0.4.0; contract Wallet { function f() { x = 1; } }".

Definition wallet_contract : candidate :=
  mk_candidate "solidity_contract" "contract Wallet { function f() { x = 1; } }"
    "Contract Wallet: contract Wallet { function f() { x = 1; } }" "Code block #1".

(** Twelve words of the list after a mnemonic label. *)
Definition seed_text : string :=
  "abandon ability able about above absent absorb abstract absurd abuse access accident".

Definition seed_candidate : candidate :=
  mk_candidate "seed_phrase" seed_text "[12-word seed phrase redacted]" "Unknown location".

End Scenarios.

(* ------------------------------------------------------------------ *)
(** ** Strings *)

Module StrFacts.
Import Props.

Lemma str_forall_app p s t :
  str_forall p (s ++ t) = str_forall p s && str_forall p t.
Proof. induction s as [|c s IH]; simpl; [reflexivity|]. rewrite IH. apply andb_assoc. Qed.

Lemma startswith_forall p hay needle :
  str_forall p hay = true -> Py.startswith hay needle = true -> str_forall p needle = true.
Proof.
  revert hay. induction needle as [|c n IH]; intros hay Hh Hs; [reflexivity|].
  destruct hay as [|d h]; simpl in Hs; [discriminate|].
  apply andb_true_iff in Hs as [Hcd Hs]. apply Ascii.eqb_eq in Hcd. subst d.
  simpl in Hh. apply andb_true_iff in Hh as [Hc Hh].
  simpl. rewrite Hc. simpl. eapply IH; eassumption.
Qed.

Lemma contains_forall p hay needle :
  str_forall p hay = true -> Py.contains hay needle = true -> str_forall p needle = true.
Proof.
  induction hay as [|c h IH]; intros Hh Hc; simpl in Hc.
  - destruct needle; [reflexivity|discriminate].
  - apply orb_true_iff in Hc as [Hs|Hc].
    + eapply startswith_forall; [exact Hh|]. exact Hs.
    + simpl in Hh. apply andb_true_iff in Hh as [_ Hh]. exact (IH Hh Hc).
Qed.

Lemma str_forall_lower p s :
  str_forall p (Py.lower s) = str_forall (fun c => p (Py.lower_char c)) s.
Proof. induction s as [|c s IH]; simpl; [reflexivity|]. now rewrite IH. Qed.

Lemma str_forall_impl (p q : ascii -> bool) s :
  (forall c, p c = true -> q c = true) -> str_forall p s = true -> str_forall q s = true.
Proof.
  intros Hpq. induction s as [|c s IH]; simpl; [reflexivity|].
  intros H. apply andb_true_iff in H as [H1 H2]. rewrite (Hpq c H1). simpl. exact (IH H2).
Qed.

Lemma mem_false_iff x xs : Py.mem x xs = false <-> ~ In x xs.
Proof.
  unfold Py.mem. split.
  - intros H Hin. assert (existsb (String.eqb x) xs = true) as E.
    { apply existsb_exists. exists x. split; [exact Hin|apply String.eqb_refl]. }
    congruence.
  - intros H. destruct (existsb (String.eqb x) xs) eqn:E; [|reflexivity].
    apply existsb_exists in E as [y [Hy Exy]]. apply String.eqb_eq in Exy. subst y. contradiction.
Qed.

Lemma mem_true_iff x xs : Py.mem x xs = true <-> In x xs.
Proof.
  unfold Py.mem. rewrite existsb_exists. split.
  - intros [y [Hy E]]. apply String.eqb_eq in E. now subst.
  - intros H. exists x. split; [exact H|apply String.eqb_refl].
Qed.

Lemma set_add_mem x y xs : Py.mem y xs = true -> Py.mem y (Py.set_add x xs) = true.
Proof.
  unfold Py.set_add. destruct (Py.mem x xs); [easy|].
  rewrite !mem_true_iff. intros H. apply in_or_app. now left.
Qed.

Lemma set_add_self x xs : Py.mem x (Py.set_add x xs) = true.
Proof.
  unfold Py.set_add. destruct (Py.mem x xs) eqn:E; [exact E|].
  apply mem_true_iff. apply in_or_app. right. now left.
Qed.

End StrFacts.

(* ------------------------------------------------------------------ *)
(** ** Scoring and the text passes *)

Module ScoreFacts.
Import Extractor Props StrFacts.

Lemma hex_nospace c : is_hex c = true -> nospace c = true.
Proof. destruct c as [[] [] [] [] [] [] [] []]; intro H; try discriminate H; reflexivity. Qed.

Lemma warning_phrases_have_space :
  forallb (fun w => negb (str_forall (fun c => negb (Ascii.eqb c " ")) w)) WARNING_PHRASES = true.
Proof. reflexivity. Qed.

(** A string without spaces after lower-casing contains no warning phrase. *)
Lemma no_warning content :
  str_forall nospace content = true ->
  existsb (Py.contains (Py.lower content)) WARNING_PHRASES = false.
Proof.
  intros H. apply Bool.not_true_iff_false. intros E.
  apply existsb_exists in E as [w [Hw Hc]].
  assert (Hl : str_forall (fun c => negb (Ascii.eqb c " ")) (Py.lower content) = true).
  { rewrite str_forall_lower. exact H. }
  pose proof (contains_forall _ _ _ Hl Hc) as Hwf.
  pose proof warning_phrases_have_space as Hall.
  rewrite forallb_forall in Hall. specialize (Hall w Hw). rewrite Hwf in Hall. discriminate.
Qed.

(** The content adds exactly 2 points when it has no space and more than
    20 characters. *)
Lemma score_content_plus2 url content date :
  str_forall nospace content = true -> (20 < String.length content)%nat ->
  score_artifact url content date = score_artifact url EmptyString date + 2.
Proof.
  intros Hs Hl. unfold score_artifact. rewrite (no_warning content Hs).
  assert (E : (20 <? Z.of_nat (String.length content)) = true) by (apply Z.ltb_lt; lia).
  rewrite E. reflexivity.
Qed.

Lemma take_hex_spec n s h r :
  take_hex n s = Some (h, r) ->
  String.length h = n /\ str_forall is_hex h = true /\ s = h ++ r.
Proof.
  revert s h r. induction n as [|n IH]; intros s h r E; simpl in E.
  - inversion E; subst. repeat split.
  - destruct s as [|c s]; [discriminate|].
    destruct (is_hex c) eqn:Hc; [|discriminate].
    destruct (take_hex n s) as [[h' r']|] eqn:E'; [|discriminate].
    inversion E; subst. destruct (IH _ _ _ E') as [H1 [H2 H3]].
    simpl. rewrite Hc, H2, H1, H3. repeat split.
Qed.

Lemma take_hex_all h r :
  str_forall is_hex h = true -> take_hex (String.length h) (h ++ r) = Some (h, r).
Proof.
  induction h as [|c h IH]; intros H; simpl; [reflexivity|].
  simpl in H. apply andb_true_iff in H as [Hc H]. rewrite Hc, (IH H). reflexivity.
Qed.

Lemma finditer_forall (P : string -> Prop) m :
  (forall s g r, m s = Some (g, r) -> P g) ->
  forall fuel s, Forall P (finditer m fuel s).
Proof.
  intros Hm fuel. induction fuel as [|f IH]; intros s; simpl; [constructor|].
  destruct (m s) as [[g r]|] eqn:E.
  - constructor; [exact (Hm _ _ _ E)|apply IH].
  - destruct s; [constructor|apply IH].
Qed.

Lemma match_0x_hex_key_like n s g r :
  (20 <= n)%nat -> match_0x_hex n s = Some (g, r) -> key_like g.
Proof.
  intros Hn E. unfold match_0x_hex in E.
  destruct s as [|c0 s]; [discriminate|].
  destruct c0 as [[] [] [] [] [] [] [] []]; try (simpl in E; discriminate E).
  destruct s as [|c1 s]; [discriminate|].
  destruct c1 as [[] [] [] [] [] [] [] []]; try (simpl in E; discriminate E).
  simpl in E.
  destruct (take_hex n s) as [[h rest]|] eqn:Eh; [|discriminate].
  inversion E; subst. apply take_hex_spec in Eh as [H1 [H2 _]].
  split.
  - simpl. eapply str_forall_impl; [exact hex_nospace|exact H2].
  - simpl. lia.
Qed.

Lemma match_key_body_hex s g r :
  match_key_body s = Some (g, r) -> String.length g = 64%nat /\ str_forall is_hex g = true.
Proof.
  unfold match_key_body.
  assert (Hafter : forall t, (match take_hex 64 t with
            | Some (h, String q rest) => if is_quote q then Some (h, rest) else Some (h, String q rest)
            | Some (h, EmptyString) => Some (h, EmptyString)
            | None => None end) = Some (g, r) ->
          String.length g = 64%nat /\ str_forall is_hex g = true).
  { intros t. destruct (take_hex 64 t) as [[h rest]|] eqn:E; [|discriminate].
    apply take_hex_spec in E as [H1 [H2 _]].
    destruct rest as [|q rest]; [|destruct (is_quote q)]; intros X; inversion X; subst; auto. }
  destruct (skip_ws s) as [|q r0]; [apply Hafter|].
  destruct (is_quote q); [|apply Hafter].
  unfold opt_orelse. intros X.
  destruct (take_hex 64 r0) as [[h rest]|] eqn:E.
  - apply take_hex_spec in E as [H1 [H2 _]].
    destruct rest as [|q' rest']; [|destruct (is_quote q')]; inversion X; subst; auto.
  - apply (Hafter (String q r0)). exact X.
Qed.

Lemma match_key_tail_hex s g r :
  match_key_tail s = Some (g, r) -> String.length g = 64%nat /\ str_forall is_hex g = true.
Proof.
  unfold match_key_tail, opt_orelse.
  destruct (skip_ws s) as [|c r0]; [apply match_key_body_hex|].
  destruct (Ascii.eqb c ":" || Ascii.eqb c "="); [|apply match_key_body_hex].
  destruct (match_key_body r0) as [[g' r']|] eqn:E.
  - intros X. inversion X; subst. exact (match_key_body_hex _ _ _ E).
  - apply match_key_body_hex.
Qed.

Lemma match_private_key_key_like s g r :
  match_private_key s = Some (g, r) -> key_like g.
Proof.
  assert (Hk : forall g, String.length g = 64%nat /\ str_forall is_hex g = true -> key_like g).
  { intros g0 [H1 H2]. split; [eapply str_forall_impl; [exact hex_nospace|exact H2]|lia]. }
  assert (Hl : forall p s g r, match_label_key p s = Some (g, r) -> key_like g).
  { intros p s0 g0 r0. unfold match_label_key.
    destruct (ci_prefix p s0); [|discriminate].
    destruct (ci_prefix "key" (skip_ws s1)); [|discriminate].
    intros E. apply (Hk g0). exact (match_key_tail_hex _ _ _ E). }
  unfold match_private_key, opt_orelse.
  destruct (match_label_key "private" s) as [[g1 r1]|] eqn:E1.
  { intros X. inversion X; subst. exact (Hl _ _ _ _ E1). }
  destruct (match_label_key "secret" s) as [[g2 r2]|] eqn:E2.
  { intros X. inversion X; subst. exact (Hl _ _ _ _ E2). }
  destruct (ci_prefix "key" s); [|discriminate].
  intros E. apply (Hk g). exact (match_key_tail_hex _ _ _ E).
Qed.

(** Every artifact of a pass comes from one of its candidates, scored on
    the candidate's own content. *)
Lemma dedup_pass_from sha url date cands hs a :
  In a (fst (dedup_pass sha url date cands hs)) ->
  exists c, In c cands /\ a_type a = c_type c /\ a_content a = c_content c
            /\ a_score a = score_artifact url (c_content c) date.
Proof.
  revert hs. induction cands as [|c cs IH]; intros hs Hin; simpl in Hin; [contradiction|].
  destruct (Py.mem (generate_hash sha (c_content c)) hs).
  - destruct (IH _ Hin) as [c' [H1 H2]]. exists c'. split; [now right|exact H2].
  - destruct (dedup_pass sha url date cs _) as [rest hs'] eqn:E. simpl in Hin.
    destruct Hin as [<-|Hin].
    + exists c. simpl. repeat split. now left.
    + assert (Hin' : In a (fst (dedup_pass sha url date cs
                                  (hs ++ [generate_hash sha (c_content c)])%list)))
        by (rewrite E; exact Hin).
      destruct (IH _ Hin') as [c' [H1 H2]]. exists c'. split; [now right|exact H2].
Qed.

End ScoreFacts.

(* ------------------------------------------------------------------ *)
(** ** The duplicate check shared by the passes *)

Module DedupFacts.
Import Extractor Props StrFacts.

Section Fresh.
Variable sha : string -> string.

Local Abbreviation fresh_pass := (Props.fresh_pass sha).

Lemma dedup_pass_fresh url date cands hs :
  fresh_pass hs (fst (dedup_pass sha url date cands hs)) (snd (dedup_pass sha url date cands hs)).
Proof.
  revert hs. induction cands as [|c cs IH]; intros hs; simpl.
  - unfold Props.fresh_pass. simpl. rewrite app_nil_r. repeat split; try constructor; intros; contradiction.
  - destruct (Py.mem (generate_hash sha (c_content c)) hs) eqn:Em; [apply IH|].
    set (h := generate_hash sha (c_content c)).
    specialize (IH (hs ++ [h])%list).
    destruct (dedup_pass sha url date cs (hs ++ [h])%list) as [rest hs'] eqn:E.
    simpl in *. destruct IH as [H1 [H2 [H3 H4]]].
    apply mem_false_iff in Em.
    split; [|split; [|split]].
    + rewrite H1. simpl. now rewrite <- app_assoc.
    + simpl. constructor; [|exact H2].
      intros Hin. apply (H3 h Hin). apply in_or_app. right. now left.
    + simpl. intros x [<-|Hx]; [exact Em|].
      intros Hin. apply (H3 x Hx). apply in_or_app. now left.
    + simpl. intros a [<-|Ha]; [reflexivity|exact (H4 a Ha)].
Qed.

Lemma fresh_pass_app hs a1 h1 a2 h2 :
  fresh_pass hs a1 h1 -> fresh_pass h1 a2 h2 -> fresh_pass hs (a1 ++ a2)%list h2.
Proof.
  intros [E1 [N1 [D1 C1]]] [E2 [N2 [D2 C2]]]. subst h1 h2.
  split; [|split; [|split]].
  - rewrite map_app. symmetry. apply app_assoc.
  - rewrite map_app. apply NoDup_app; [exact N1|exact N2|].
    intros x Hx Hx2. apply (D2 x Hx2). apply in_or_app. now right.
  - rewrite map_app. intros x Hx. apply in_app_or in Hx as [Hx|Hx]; [exact (D1 x Hx)|].
    intros Hin. apply (D2 x Hx). apply in_or_app. now left.
  - intros a Ha. apply in_app_or in Ha as [Ha|Ha]; [exact (C1 a Ha)|exact (C2 a Ha)].
Qed.

Lemma dedup_pass_fresh' url date cands hs arts hs' :
  dedup_pass sha url date cands hs = (arts, hs') -> fresh_pass hs arts hs'.
Proof.
  intros E. pose proof (dedup_pass_fresh url date cands hs) as F. rewrite E in F. exact F.
Qed.

Lemma extract_private_keys_fresh loc text url date hs arts hs' :
  extract_private_keys sha loc text url date hs = (arts, hs') -> fresh_pass hs arts hs'.
Proof.
  unfold extract_private_keys.
  destruct (dedup_pass sha url date (private_key_candidates loc text) hs) as [a1 h1] eqn:E1.
  destruct (dedup_pass sha url date (hex64_candidates loc text) h1) as [a2 h2] eqn:E2.
  intros X. inversion X; subst.
  exact (fresh_pass_app _ _ _ _ _ (dedup_pass_fresh' _ _ _ _ _ _ E1) (dedup_pass_fresh' _ _ _ _ _ _ E2)).
Qed.

End Fresh.
End DedupFacts.


(* ------------------------------------------------------------------ *)
(** ** The research queue stays sorted and stable *)

Module FrontierFacts.
Import Frontier Props.

Lemma Forall_insert_desc (P : target -> Prop) t q :
  P t -> Forall P q -> Forall P (insert_desc t q).
Proof.
  intros Ht Hq. induction Hq as [|u q' Hu Hq' IH]; simpl; [now constructor|].
  destruct (prio u <? prio t); repeat constructor; auto.
Qed.

Lemma insert_desc_sorted t q : sorted_desc q -> sorted_desc (insert_desc t q).
Proof.
  unfold sorted_desc. induction q as [|u q' IH]; intros Hs; simpl.
  - repeat constructor.
  - apply StronglySorted_inv in Hs as [Hs Hu].
    destruct (prio u <? prio t) eqn:E.
    + apply Z.ltb_lt in E. constructor; [constructor; assumption|].
      constructor; [lia|]. eapply Forall_impl; [|exact Hu]. simpl. intros a Ha. lia.
    + apply Z.ltb_ge in E. constructor; [exact (IH Hs)|].
      apply Forall_insert_desc; [exact E|exact Hu].
Qed.

Lemma filter_k_none k l : (forall v, In v l -> prio v <> k) -> filter_k k l = [].
Proof.
  induction l as [|v l IH]; intros H; simpl; [reflexivity|].
  destruct (prio v =? k) eqn:E.
  - apply Z.eqb_eq in E. exfalso. exact (H v (or_introl eq_refl) E).
  - apply IH. intros w Hw. apply H. now right.
Qed.

Lemma filter_insert_desc k t q :
  sorted_desc q ->
  filter_k k (insert_desc t q) = if prio t =? k then (filter_k k q ++ [t])%list else filter_k k q.
Proof.
  unfold sorted_desc. induction q as [|u q' IH]; intros Hs; cbn [insert_desc].
  - unfold filter_k. simpl. destruct (prio t =? k); reflexivity.
  - apply StronglySorted_inv in Hs as [Hs Hu].
    destruct (prio u <? prio t) eqn:E.
    + apply Z.ltb_lt in E.
      replace (filter_k k (t :: u :: q'))
        with (if prio t =? k then t :: filter_k k (u :: q') else filter_k k (u :: q'))
        by reflexivity.
      destruct (prio t =? k) eqn:Ek; [|reflexivity].
      apply Z.eqb_eq in Ek.
      assert (Hn : filter_k k (u :: q') = []).
      { apply filter_k_none. intros v [<-|Hv]; [lia|].
        rewrite Forall_forall in Hu. specialize (Hu v Hv). lia. }
      rewrite Hn. reflexivity.
    + unfold filter_k in *. simpl. rewrite (IH Hs).
      destruct (prio u =? k), (prio t =? k); reflexivity.
Qed.

Lemma fold_insert_desc l acc :
  sorted_desc acc ->
  sorted_desc (fold_left (fun acc t => insert_desc t acc) l acc) /\
  forall k, filter_k k (fold_left (fun acc t => insert_desc t acc) l acc)
            = (filter_k k acc ++ filter_k k l)%list.
Proof.
  revert acc. induction l as [|t l IH]; intros acc Hs; simpl.
  - split; [exact Hs|]. intros k. now rewrite app_nil_r.
  - destruct (IH (insert_desc t acc) (insert_desc_sorted t acc Hs)) as [H1 H2].
    split; [exact H1|]. intros k. rewrite H2, (filter_insert_desc k t acc Hs).
    unfold filter_k. simpl. destruct (prio t =? k); [|reflexivity].
    now rewrite <- app_assoc.
Qed.

Lemma update_queue_spec inv q ts :
  sorted_desc (update_research_queue inv q ts) /\
  forall k, filter_k k (update_research_queue inv q ts)
            = (filter_k k q ++ filter_k k (filter (keep inv) ts))%list.
Proof.
  unfold update_research_queue, sort_desc.
  destruct (fold_insert_desc (q ++ filter (keep inv) ts) [] (SSorted_nil _)) as [H1 H2].
  split; [exact H1|]. intros k. rewrite H2. unfold filter_k. simpl. apply filter_app.
Qed.

Lemma run_ops_spec ops q :
  sorted_desc q ->
  sorted_desc (fst (run_ops ops q)) /\
  forall k, filter_k k (snd (run_ops ops q) ++ fst (run_ops ops q))%list
            = filter_k k (q ++ admitted ops)%list.
Proof.
  revert q. induction ops as [|o ops IH]; intros q Hs.
  - simpl. split; [exact Hs|]. intros k. now rewrite app_nil_r.
  - destruct o as [inv ts|].
    + simpl. destruct (update_queue_spec inv q ts) as [U1 U2].
      destruct (IH _ U1) as [H1 H2]. split; [exact H1|]. intros k.
      rewrite H2. unfold filter_k in *. rewrite !filter_app, U2.
      now rewrite app_assoc.
    + destruct q as [|t q'].
      * simpl. exact (IH [] Hs).
      * apply StronglySorted_inv in Hs as [Hs _].
        simpl. destruct (IH q' Hs) as [H1 H2].
        destruct (run_ops ops q') as [qf popped] eqn:E. simpl in *.
        split; [exact H1|]. intros k. specialize (H2 k).
        unfold filter_k in *. simpl. rewrite H2. reflexivity.
Qed.

End FrontierFacts.


(* ------------------------------------------------------------------ *)
(** ** The visited set of the handlers *)

Module DispatchFacts.
Import Frontier Dispatch Props StrFacts.

Lemma subset_v_refl v : subset_v v v.
Proof. intros x H. exact H. Qed.

Lemma subset_v_trans v1 v2 v3 : subset_v v1 v2 -> subset_v v2 v3 -> subset_v v1 v3.
Proof. intros H1 H2 x H. apply H2, H1, H. Qed.

Lemma subset_v_add x v : subset_v v (Py.set_add x v).
Proof. intros y H. apply set_add_mem, H. Qed.

Create HintDb visited.

#[local] Hint Resolve subset_v_refl subset_v_add : visited.

Section Mono.
Variable fetch : string -> fetch_result.

Lemma wayback_mono url v : subset_v v (investigate_wayback_v url v).
Proof. unfold investigate_wayback_v. destruct (Py.truthy url); auto with visited. Qed.

#[local] Hint Resolve wayback_mono : visited.

Lemma calendar_mono u v : subset_v v (investigate_wayback_calendar_v fetch u v).
Proof.
  unfold investigate_wayback_calendar_v.
  destruct (parse_calendar u) as [[ts o]|]; [|auto with visited].
  destruct (fetch _); auto with visited.
Qed.

#[local] Hint Resolve calendar_mono : visited.

Lemma website_mono url w v : subset_v v (investigate_website_v fetch url w v).
Proof.
  unfold investigate_website_v. destruct url as [u|]; [|auto with visited].
  destruct (negb (Py.truthy (Some u))); [auto with visited|].
  destruct (Py.contains u "*" && Py.contains u "web.archive.org/web/"); [auto with visited|].
  destruct (Py.mem u v); [auto with visited|].
  destruct (fetch u); [auto with visited| |auto with visited].
  destruct w; [|auto with visited].
  eapply subset_v_trans; [apply subset_v_add|apply wayback_mono].
Qed.

#[local] Hint Resolve website_mono : visited.

Lemma dispatch_mono t v : subset_v v (dispatch_v fetch t v).
Proof.
  unfold dispatch_v, execute_search_v, investigate_github_v.
  destruct (is_type t "website"); [auto with visited|].
  destruct (is_type t "search"); [destruct (Py.truthy (t_query t)); auto with visited|].
  destruct (is_type t "wayback"); [auto with visited|].
  destruct (is_type t "github"); [|auto with visited].
  destruct (t_url t) as [u|]; [|auto with visited].
  destruct (negb (Py.truthy (Some u))); [auto with visited|].
  destruct (Py.mem u v); [auto with visited|].
  eapply subset_v_trans; [apply subset_v_add|apply website_mono].
Qed.

(** Dispatching a target of one of the four kinds, with a locator and not
    a Wayback-calendar URL, records its VisitedKey. *)
Lemma dispatch_records t v k :
  visited_key t = Some k ->
  Py.truthy (locator t) = true ->
  is_calendar_target t = false ->
  Py.mem k (dispatch_v fetch t v) = true.
Proof.
  unfold visited_key, locator, is_calendar_target, dispatch_v, is_type.
  destruct (t_type t) as [s|]; [|discriminate].
  destruct (String.eqb_spec s "website") as [->|Nw].
  - simpl. intros Ek Hl Hc. rewrite Ek in Hl, Hc. unfold investigate_website_v. rewrite Ek.
    cbn [negb]. rewrite Hl, Hc. cbn [negb].
    destruct (Py.mem k v) eqn:Em; [exact Em|].
    assert (H1 : Py.mem k (Py.set_add k v) = true) by apply set_add_self.
    destruct (fetch k); [exact H1| |exact H1].
    destruct (t_use_wayback t); [apply wayback_mono, H1|exact H1].
  - destruct (String.eqb_spec s "search") as [->|Ns].
    + simpl. intros Ek Hl _. injection Ek as <-.
      unfold execute_search_v. rewrite Hl. apply set_add_self.
    + destruct (String.eqb_spec s "wayback") as [->|Nb].
      * simpl. intros Ek Hl _. injection Ek as <-.
        unfold investigate_wayback_v. rewrite Hl. apply set_add_self.
      * destruct (String.eqb_spec s "github") as [->|Ng]; simpl; [|discriminate].
        intros Ek Hl _. rewrite Ek in Hl. unfold investigate_github_v. rewrite Ek.
        cbn [negb]. rewrite Hl. cbn [negb].
        destruct (Py.mem k v) eqn:Em; [exact Em|].
        apply website_mono, set_add_self.
Qed.

End Mono.

(** The filter of a push drops exactly the targets whose VisitedKey is in
    the visited set. *)
Lemma keep_visited_key v t :
  keep v t = negb (match visited_key t with Some k => Py.mem k v | None => false end).
Proof.
  unfold keep, visited_key, opt_mem, is_type.
  destruct (t_type t) as [s|]; [|reflexivity].
  destruct (String.eqb_spec s "website") as [->|Nw].
  - simpl. destruct (t_url t); simpl; rewrite ?andb_true_r; reflexivity.
  - cbn [negb andb orb].
    destruct (String.eqb_spec s "github") as [->|Ng].
    + simpl. destruct (t_url t); simpl; rewrite ?andb_true_r; reflexivity.
    + cbn [negb andb orb].
      destruct (String.eqb_spec s "wayback") as [->|Nb]; [simpl; rewrite ?andb_true_r; reflexivity|].
      cbn [negb andb orb].
      destruct (String.eqb_spec s "search") as [->|Ns]; [simpl; rewrite ?andb_true_r; reflexivity|].
      reflexivity.
Qed.

End DispatchFacts.

(* ------------------------------------------------------------------ *)
(** ** The snapshot sampler *)

Module SnapFacts.
Import Snapshots.

Module SO := String_as_OT.

Lemma lt_irrefl x : ~ SO.lt x x.
Proof. exact (RelationClasses.StrictOrder_Irreflexive (StrictOrder := SO.lt_strorder) x). Qed.

Lemma lt_trans x y z : SO.lt x y -> SO.lt y z -> SO.lt x z.
Proof. exact (RelationClasses.StrictOrder_Transitive (StrictOrder := SO.lt_strorder) x y z). Qed.

Lemma compare_lt x y : SO.compare x y = Lt <-> SO.lt x y.
Proof.
  destruct (SO.compare_spec x y) as [E|L|G].
  - split; intros H; [discriminate|]. rewrite E in H. exfalso. exact (lt_irrefl _ H).
  - split; intros _; [exact L|reflexivity].
  - split; intros H; [discriminate|]. exfalso. exact (lt_irrefl _ (lt_trans _ _ _ G H)).
Qed.

Lemma ts_le_not_lt a b : ts_le a b <-> ~ SO.lt (ts_key b) (ts_key a).
Proof.
  unfold ts_le. destruct (SO.compare_spec (ts_key a) (ts_key b)) as [E|L|G]; split; intros H.
  - rewrite E. intros Hl. exact (lt_irrefl _ Hl).
  - discriminate.
  - intros Hl. exact (lt_irrefl _ (lt_trans _ _ _ L Hl)).
  - discriminate.
  - exfalso. exact (H eq_refl).
  - exfalso. exact (H G).
Qed.

Lemma ts_le_refl a : ts_le a a.
Proof. apply ts_le_not_lt. intros H. exact (lt_irrefl _ H). Qed.

Lemma ts_le_trans a b c : ts_le a b -> ts_le b c -> ts_le a c.
Proof.
  rewrite !ts_le_not_lt. intros H1 H2 H3.
  destruct (SO.compare_spec (ts_key a) (ts_key b)) as [E|L|G]; [| |exact (H1 G)].
  - rewrite E in H3. exact (H2 H3).
  - apply H2. exact (lt_trans _ _ _ H3 L).
Qed.

Lemma ts_lt_false a b : ts_lt a b = false -> ts_le b a.
Proof.
  unfold ts_lt. intros H. apply ts_le_not_lt. intros Hl.
  apply compare_lt in Hl. rewrite Hl in H. discriminate.
Qed.

Lemma ts_lt_true a b : ts_lt a b = true -> ts_le a b.
Proof.
  unfold ts_lt, ts_le. destruct (SO.compare (ts_key a) (ts_key b)); congruence.
Qed.

Lemma insert_asc_perm x l : Permutation (x :: l) (insert_asc x l).
Proof.
  induction l as [|y l IH]; simpl; [reflexivity|].
  destruct (ts_lt x y); [reflexivity|].
  rewrite perm_swap. now apply perm_skip.
Qed.

Lemma Forall_insert_asc (P : snapshot -> Prop) x l :
  P x -> Forall P l -> Forall P (insert_asc x l).
Proof.
  intros Hx Hl. induction Hl as [|y l Hy Hl IH]; simpl; [now constructor|].
  destruct (ts_lt x y); repeat constructor; auto.
Qed.

Lemma insert_asc_sorted x l :
  StronglySorted ts_le l -> StronglySorted ts_le (insert_asc x l).
Proof.
  induction l as [|y l IH]; intros Hs; simpl; [repeat constructor|].
  apply StronglySorted_inv in Hs as [Hs Hy].
  destruct (ts_lt x y) eqn:E.
  - apply ts_lt_true in E. constructor; [constructor; assumption|].
    constructor; [exact E|]. eapply Forall_impl; [|exact Hy].
    intros z Hz. exact (ts_le_trans _ _ _ E Hz).
  - apply ts_lt_false in E. constructor; [exact (IH Hs)|].
    apply Forall_insert_asc; [exact E|exact Hy].
Qed.

Lemma sort_asc_spec l :
  Permutation l (sort_asc l) /\ StronglySorted ts_le (sort_asc l).
Proof.
  unfold sort_asc.
  assert (G : forall acc, StronglySorted ts_le acc ->
            Permutation (acc ++ l)%list (fold_left (fun acc x => insert_asc x acc) l acc) /\
            StronglySorted ts_le (fold_left (fun acc x => insert_asc x acc) l acc)).
  { induction l as [|x l IH]; intros acc Hs; simpl.
    - now rewrite app_nil_r.
    - destruct (IH (insert_asc x acc) (insert_asc_sorted x acc Hs)) as [P S].
      split; [|exact S]. rewrite <- P.
      rewrite <- Permutation_middle.
      change (x :: acc ++ l)%list with ((x :: acc) ++ l)%list.
      apply Permutation_app_tail, insert_asc_perm. }
  exact (G [] (SSorted_nil _)).
Qed.

Lemma sort_asc_length l : List.length (sort_asc l) = List.length l.
Proof. symmetry. apply Permutation_length, sort_asc_spec. Qed.

Lemma sorted_app_before (R : snapshot -> snapshot -> Prop) l1 l2 x y :
  StronglySorted R (l1 ++ l2)%list -> In x l1 -> In y l2 -> R x y.
Proof.
  induction l1 as [|z l1 IH]; simpl; [contradiction|].
  intros Hs Hx Hy. apply StronglySorted_inv in Hs as [Hs Hz].
  destruct Hx as [<-|Hx]; [|exact (IH Hs Hx Hy)].
  rewrite Forall_forall in Hz. apply Hz, in_or_app. now right.
Qed.

(** A list of at least two elements is its head, its interior and its last. *)
Lemma split_ends (l : list snapshot) d :
  (2 <= List.length l)%nat ->
  l = (hd d l :: removelast (tl l) ++ [last l d])%list.
Proof.
  destruct l as [|e l]; simpl; [lia|]. intros H.
  destruct l as [|x l]; simpl in H; [lia|].
  f_equal. apply app_removelast_last. discriminate.
Qed.

End SnapFacts.

Module Claims.
Import Extractor Props StrFacts ScoreFacts Scenarios.

Lemma finditer_step m f s :
  finditer m (S f) s =
  match m s with
  | Some (g, rest) => g :: finditer m f rest
  | None => match s with EmptyString => [] | String _ r => finditer m f r end
  end.
Proof. reflexivity. Qed.

Lemma str_app_nil s : (s ++ EmptyString)%string = s.
Proof. induction s as [|c s IH]; simpl; [reflexivity|now rewrite IH]. Qed.

(** C10: [extract_artifacts_from_html] returns the empty list when the
    content is [None] or has fewer than 100 characters, whatever the parser
    and the passes would find in it. *)
Theorem extract_short_content_empty :
  forall sha Soup parse get_text loc sol ks seed api html url date,
    (html = None \/ exists s, html = Some s /\ (String.length s < 100)%nat) ->
    Entry.extract_artifacts_from_html sha Soup parse get_text loc sol ks seed api html url date = [].
Proof.
  intros sha Soup parse get_text loc sol ks seed api html url date [->|[s [-> Hs]]]; [reflexivity|].
  simpl. assert (E : (Z.of_nat (String.length s) <? 100) = true) by (apply Z.ltb_lt; lia).
  rewrite E. reflexivity.
Qed.

Lemma extract_short_content_empty_witness :
  Entry.extract_artifacts_from_html id_digest unit (fun _ => Some tt) (fun _ => k64)
    (fun _ => no_location) (fun _ => []) (fun _ => []) (fun _ => []) (fun _ => [])
    (Some ("key: " ++ k64)) example_url None = [].
Proof.
  apply extract_short_content_empty. right. eexists. split; [reflexivity|].
  vm_compute. lia.
Defined.

(** C6: the text [0x] followed by 40 hex digits, fetched from a URL whose
    host is [ethereum.org] and with no date, gives one [wallet_address]
    artifact of score 6 (+3 trusted, +1 [.org], +2 length). *)
Theorem address_on_ethereum_org_scores_6 :
  forall sha loc url h,
    Url.netloc url = "ethereum.org" ->
    String.length h = 40%nat -> str_forall is_hex h = true ->
    extract_wallet_addresses sha loc ("0x" ++ h) url None [] =
      ([mk_artifact "wallet_address" ("0x" ++ h) ("0x" ++ h) (loc ("0x" ++ h))
          (generate_hash sha ("0x" ++ h)) 6 url None],
       [generate_hash sha ("0x" ++ h)]).
Proof.
  intros sha loc url h Hnet Hlen Hhex.
  assert (Hm : match_0x_hex 40 ("0x" ++ h) = Some ("0x" ++ h, EmptyString)).
  { assert (Ht : take_hex 40 h = Some (h, EmptyString)).
    { rewrite <- Hlen. pose proof (take_hex_all h EmptyString Hhex) as T.
      rewrite str_app_nil in T. exact T. }
    unfold match_0x_hex. change ("0x" ++ h) with (String "0" (String "x" h)).
    cbv beta iota. rewrite Ht. reflexivity. }
  assert (Hf : findall (match_0x_hex 40) ("0x" ++ h) = ["0x" ++ h]).
  { unfold findall. rewrite finditer_step, Hm.
    destruct (String.length ("0x" ++ h)); reflexivity. }
  assert (Hk : key_like ("0x" ++ h)).
  { apply (match_0x_hex_key_like 40 ("0x" ++ h) _ EmptyString); [lia|exact Hm]. }
  assert (Hs : score_artifact url ("0x" ++ h) None = 6).
  { destruct Hk as [Hk1 Hk2]. rewrite (score_content_plus2 _ _ _ Hk1 Hk2).
    unfold score_artifact. rewrite Hnet. reflexivity. }
  unfold extract_wallet_addresses, wallet_candidates. rewrite Hf. cbn -[score_artifact generate_hash].
  change (String "0" (String "x" h)) with ("0x" ++ h). rewrite Hs. reflexivity.
Qed.

Lemma address_on_ethereum_org_scores_6_witness :
  Url.netloc "https://ethereum.org/en/developers/" = "ethereum.org" /\
  extract_wallet_addresses id_digest no_location
    ("0x" ++ "de0B295669a9FD93d5F28D9Ec85E40f4cb697BAe") "https://ethereum.org/en/developers/" None [] =
  ([mk_artifact "wallet_address" ("0x" ++ "de0B295669a9FD93d5F28D9Ec85E40f4cb697BAe")
      ("0x" ++ "de0B295669a9FD93d5F28D9Ec85E40f4cb697BAe")
      (no_location ("0x" ++ "de0B295669a9FD93d5F28D9Ec85E40f4cb697BAe"))
      (generate_hash id_digest ("0x" ++ "de0B295669a9FD93d5F28D9Ec85E40f4cb697BAe")) 6
      "https://ethereum.org/en/developers/" None],
   [generate_hash id_digest ("0x" ++ "de0B295669a9FD93d5F28D9Ec85E40f4cb697BAe")]).
Proof.
  split; [reflexivity|].
  apply address_on_ethereum_org_scores_6; reflexivity.
Defined.

(** C1 (as amended): a private-key artifact is scored on the matched key
    string alone.  The warning-phrase penalty never applies to it, so a
    phrase such as "example only" elsewhere in the document does not lower
    it: its score is the URL and date points plus 2.  When those points
    plus 4 are positive, [_process_artifacts] never skips it for its
    score: it either drops it as a duplicate of an earlier discovery (same
    id, or same non-empty content) with the state unchanged, or promotes it
    to a discovery of score [score_artifact url "" date + 4], plus 1 when
    a known alias occurs in the key. *)
Theorem private_key_score_ignores_document :
  forall sha loc text url date hs a,
    In a (fst (extract_private_keys sha loc text url date hs)) ->
    a_type a = "private_key" /\ a_score a = score_artifact url EmptyString date + 2 /\
    (0 < score_artifact url EmptyString date + 4 ->
     forall source_url is_wayback original_url st,
       match Process.process_one source_url is_wayback original_url st a with
       | (st', None) =>
           st' = st /\
           exists e, In e (Process.discoveries st) /\
             (Process.d_id e = a_hash a \/
              (Process.d_content e = a_content a /\ a_content a <> EmptyString))
       | (_, Some d) =>
           Process.d_content d = a_content a /\
           Process.d_score d =
             score_artifact url EmptyString date + 4
             + (if existsb (fun al => Py.contains (Py.lower (a_content a)) (Py.lower al))
                           (Process.entity_aliases st) then 1 else 0)
       end).
Proof.
  intros sha loc text url date hs a Hin.
  assert (Hbase : a_type a = "private_key" /\ a_score a = score_artifact url EmptyString date + 2).
  { unfold extract_private_keys in Hin.
    destruct (dedup_pass sha url date (private_key_candidates loc text) hs) as [a1 h1] eqn:E1.
    destruct (dedup_pass sha url date (hex64_candidates loc text) h1) as [a2 h2] eqn:E2.
    simpl in Hin. apply in_app_or in Hin as [Hin|Hin].
    - assert (Hin' : In a (fst (dedup_pass sha url date (private_key_candidates loc text) hs)))
        by (rewrite E1; exact Hin).
      destruct (dedup_pass_from _ _ _ _ _ _ Hin') as [c [Hc [Ht [_ Hs]]]].
      unfold private_key_candidates in Hc. apply in_map_iff in Hc as [k [<- Hk]].
      pose proof (finditer_forall key_like match_private_key match_private_key_key_like
                    (S (String.length text)) text) as F.
      rewrite Forall_forall in F. destruct (F k Hk) as [K1 K2].
      split; [exact Ht|]. rewrite Hs. exact (score_content_plus2 _ _ _ K1 K2).
    - assert (Hin' : In a (fst (dedup_pass sha url date (hex64_candidates loc text) h1)))
        by (rewrite E2; exact Hin).
      destruct (dedup_pass_from _ _ _ _ _ _ Hin') as [c [Hc [Ht [_ Hs]]]].
      unfold hex64_candidates in Hc. apply in_map_iff in Hc as [k [<- Hk]].
      pose proof (finditer_forall key_like (match_0x_hex 64)
                    (fun s g r => match_0x_hex_key_like 64 s g r ltac:(lia))
                    (S (String.length text)) text) as F.
      rewrite Forall_forall in F. destruct (F k Hk) as [K1 K2].
      split; [exact Ht|]. rewrite Hs. exact (score_content_plus2 _ _ _ K1 K2). }
  destruct Hbase as [Ht Hs]. split; [exact Ht|]. split; [exact Hs|].
  intros Hpos source_url is_wayback original_url st.
  set (al := existsb (fun al => Py.contains (Py.lower (a_content a)) (Py.lower al))
                     (Process.entity_aliases st)).
  assert (Hadj : Process.adjusted_score st a = score_artifact url EmptyString date + 4
                                               + (if al then 1 else 0)).
  { unfold Process.adjusted_score, Py.mem, Process.HIGH_VALUE_TYPES. rewrite Ht.
    replace (existsb (String.eqb "private_key")
               ["username"; "alias"; "wallet_address"; "private_key"]) with true
      by reflexivity.
    fold al. rewrite Hs. destruct al; lia. }
  unfold Process.process_one. rewrite Hadj.
  replace (score_artifact url EmptyString date + 4 + (if al then 1 else 0) <=? 0) with false
    by (symmetry; apply Z.leb_gt; destruct al; lia).
  match goal with
  | |- context [Process.is_duplicate_discovery st ?d] =>
      destruct (Process.is_duplicate_discovery st d) eqn:Dup
  end.
  - split; [reflexivity|].
    unfold Process.is_duplicate_discovery in Dup. apply existsb_exists in Dup as [e [He Hm]].
    exists e. split; [exact He|]. simpl in Hm.
    apply orb_true_iff in Hm as [Hm|Hm].
    + left. apply String.eqb_eq. exact Hm.
    + right. apply andb_true_iff in Hm as [H1 H2]. split.
      * apply String.eqb_eq. exact H1.
      * intros E. rewrite E in H2. discriminate.
  - split; reflexivity.
Qed.

Lemma private_key_score_ignores_document_witness :
  In example_key_artifact
     (fst (extract_private_keys id_digest no_location example_key_text example_url None [])) /\
  0 < score_artifact example_url EmptyString None + 4 /\
  a_type example_key_artifact = "private_key" /\
  a_score example_key_artifact = score_artifact example_url EmptyString None + 2 /\
  match Process.process_one example_url false None agent0 example_key_artifact with
  | (st', None) =>
      st' = agent0 /\
      exists e, In e (Process.discoveries agent0) /\
        (Process.d_id e = a_hash example_key_artifact \/
         (Process.d_content e = a_content example_key_artifact /\
          a_content example_key_artifact <> EmptyString))
  | (_, Some d) =>
      Process.d_content d = a_content example_key_artifact /\
      Process.d_score d =
        score_artifact example_url EmptyString None + 4
        + (if existsb (fun al => Py.contains (Py.lower (a_content example_key_artifact)) (Py.lower al))
                      (Process.entity_aliases agent0) then 1 else 0)
  end.
Proof.
  assert (H : In example_key_artifact
     (fst (extract_private_keys id_digest no_location example_key_text example_url None [])))
    by (vm_compute; left; reflexivity).
  assert (P : 0 < score_artifact example_url EmptyString None + 4) by (vm_compute; reflexivity).
  destruct (private_key_score_ignores_document id_digest no_location example_key_text
              example_url None [] example_key_artifact H) as [T [S R]].
  split; [exact H|]. split; [exact P|]. split; [exact T|]. split; [exact S|].
  exact (R P example_url false None agent0).
Defined.

(** C1 fails as stated: a page that labels a 64-hex-digit key and says
    "example only" gives a private-key artifact of score 2, and
    [_process_artifacts] promotes it to a discovery of score 4. *)
Lemma example_only_key_promoted :
  Py.contains example_key_text "example only" = true /\
  map a_score (fst (extract_private_keys id_digest no_location example_key_text example_url None [])) = [2] /\
  map Process.d_score
    (snd (Process.process_artifacts agent0
            (fst (extract_private_keys id_digest no_location example_key_text example_url None []))
            example_url false None)) = [4].
Proof. vm_compute. repeat split. Qed.

(** C9: one step of [_process_artifacts] adjusts the score by +2 for the
    high-value types and +1 for an alias match; an artifact whose adjusted
    score is not positive is skipped with the state unchanged, and a
    discovery it yields carries the adjusted score, which is positive. *)
Theorem process_adjusts_and_gates :
  forall source_url is_wayback original_url st a,
    (adjusted_score_spec (Process.entity_aliases st) a <= 0 ->
       Process.process_one source_url is_wayback original_url st a = (st, None)) /\
    (forall st' d,
       Process.process_one source_url is_wayback original_url st a = (st', Some d) ->
       Process.d_score d = adjusted_score_spec (Process.entity_aliases st) a /\ 0 < Process.d_score d).
Proof.
  intros source_url is_wayback original_url st a.
  assert (Hadj : Process.adjusted_score st a = adjusted_score_spec (Process.entity_aliases st) a).
  { unfold Process.adjusted_score, adjusted_score_spec, Py.mem, Process.HIGH_VALUE_TYPES.
    destruct (existsb (String.eqb (a_type a)) _), (existsb _ (Process.entity_aliases st)); lia. }
  unfold Process.process_one. rewrite Hadj. split.
  - intros H. apply Z.leb_le in H. rewrite H. reflexivity.
  - intros st' d. destruct (adjusted_score_spec _ a <=? 0) eqn:E; [discriminate|].
    apply Z.leb_gt in E.
    destruct (Process.is_duplicate_discovery _ _); [discriminate|].
    intros X. inversion X; subst. simpl. split; [reflexivity|exact E].
Qed.

Lemma process_adjusts_and_gates_witness :
  (adjusted_score_spec (Process.entity_aliases agent0) low_artifact <= 0 /\
   Process.process_one example_url false None agent0 low_artifact = (agent0, None)) /\
  (Process.process_one example_url false None agent0 key_artifact =
     (fst (Process.process_one example_url false None agent0 key_artifact),
      Some (Process.mk_discovery "h" "private_key" k64 "s" example_url (Some example_url) false None 4 1)) /\
   4 = adjusted_score_spec (Process.entity_aliases agent0) key_artifact /\ 0 < 4).
Proof.
  assert (H1 : adjusted_score_spec (Process.entity_aliases agent0) low_artifact <= 0)
    by (vm_compute; discriminate).
  assert (H2 : Process.process_one example_url false None agent0 key_artifact =
     (fst (Process.process_one example_url false None agent0 key_artifact),
      Some (Process.mk_discovery "h" "private_key" k64 "s" example_url (Some example_url) false None 4 1)))
    by reflexivity.
  split.
  - split; [exact H1|]. exact (proj1 (process_adjusts_and_gates example_url false None agent0 low_artifact) H1).
  - split; [exact H2|].
    exact (proj2 (process_adjusts_and_gates example_url false None agent0 key_artifact) _ _ H2).
Defined.

(** C7: the artifacts returned by one call of [extract_artifacts_from_html]
    carry the hash of their own normalised content, and these hashes are
    pairwise distinct across all the passes of the call (for any digest
    function, any parser and any candidates the passes find). *)
Theorem extract_hashes_distinct :
  forall sha Soup parse get_text loc sol ks seed api html url date,
    let arts := Entry.extract_artifacts_from_html sha Soup parse get_text loc sol ks seed api
                  html url date in
    (forall a, In a arts -> a_hash a = generate_hash sha (a_content a)) /\
    NoDup (map a_hash arts).
Proof.
  intros sha Soup parse get_text loc sol ks seed api html url date arts.
  assert (F : exists hs', Props.fresh_pass sha [] arts hs').
  { unfold arts, Entry.extract_artifacts_from_html.
    destruct html as [html|];
      [|exists []; repeat split; try constructor; simpl; intros; contradiction].
    destruct (Z.of_nat (String.length html) <? 100);
      [exists []; repeat split; try constructor; simpl; intros; contradiction|].
    destruct (parse html) as [soup|];
      [|exists []; repeat split; try constructor; simpl; intros; contradiction].
    destruct (dedup_pass sha url date (sol soup) []) as [a1 h1] eqn:E1.
    destruct (extract_wallet_addresses sha (loc soup) (get_text soup) url date h1) as [a2 h2] eqn:E2.
    destruct (extract_private_keys sha (loc soup) (get_text soup) url date h2) as [a3 h3] eqn:E3.
    destruct (dedup_pass sha url date (ks soup) h3) as [a4 h4] eqn:E4.
    destruct (dedup_pass sha url date (seed soup) h4) as [a5 h5] eqn:E5.
    destruct (dedup_pass sha url date (api soup) h5) as [a6 h6] eqn:E6.
    exists h6.
    apply DedupFacts.dedup_pass_fresh' in E1, E4, E5, E6.
    apply DedupFacts.dedup_pass_fresh' in E2.
    apply DedupFacts.extract_private_keys_fresh in E3.
    eapply DedupFacts.fresh_pass_app; [exact E1|].
    eapply DedupFacts.fresh_pass_app; [exact E2|].
    eapply DedupFacts.fresh_pass_app; [exact E3|].
    eapply DedupFacts.fresh_pass_app; [exact E4|].
    eapply DedupFacts.fresh_pass_app; [exact E5|].
    exact E6. }
  destruct F as [hs' [_ [N [_ C]]]]. split; [exact C|exact N].
Qed.


(** C2: after any sequence of pushes and pops starting from an empty queue,
    the next pop returns a target whose priority is at least that of every
    target still queued; and, for each priority, the targets of that
    priority are popped (and then remain queued) in the order in which the
    pushes admitted them. *)
Theorem frontier_pop_max_stable :
  forall ops : list Frontier.op,
    let (queue, popped) := Frontier.run_ops ops [] in
    (forall t rest, Frontier.get_next queue = (Some t, rest) ->
       forall u, In u rest -> Frontier.prio u <= Frontier.prio t) /\
    (forall k, Props.filter_k k (popped ++ queue)%list
               = Props.filter_k k (Frontier.admitted ops)).
Proof.
  intros ops.
  destruct (FrontierFacts.run_ops_spec ops [] (SSorted_nil _)) as [S F].
  destruct (Frontier.run_ops ops []) as [queue popped]. simpl in S, F.
  split.
  - intros t rest E u Hu. destruct queue as [|t' q]; simpl in E; [discriminate|].
    injection E as <- <-. apply StronglySorted_inv in S as [_ Hf].
    rewrite Forall_forall in Hf. exact (Hf u Hu).
  - exact F.
Qed.

(** C3 (amended): a target of one of the four kinds (website, search,
    wayback, github) that has a non-empty locator and is not a website
    target with a Wayback-calendar URL records its VisitedKey [k] when it
    is dispatched; from then on, as the visited set only grows, a pushed
    target whose VisitedKey is [k] (of whichever kind) is dropped by the
    push filter, so the push leaves the queue as without it. *)
Theorem visited_key_suppresses_repush :
  forall (fetch : string -> Dispatch.fetch_result) (t t' : Frontier.target)
         (v v' : list string) (k : string),
    Dispatch.visited_key t = Some k ->
    Py.truthy (Dispatch.locator t) = true ->
    Dispatch.is_calendar_target t = false ->
    (forall x, Py.mem x (Dispatch.dispatch_v fetch t v) = true -> Py.mem x v' = true) ->
    Dispatch.visited_key t' = Some k ->
    Frontier.keep v' t' = false /\
    (forall q ts, Frontier.update_research_queue v' q (t' :: ts)
                  = Frontier.update_research_queue v' q ts).
Proof.
  intros fetch t t' v v' k Hk Hl Hc Hsub Hk'.
  assert (Hf : Frontier.keep v' t' = false).
  { rewrite DispatchFacts.keep_visited_key, Hk'.
    rewrite (Hsub k (DispatchFacts.dispatch_records fetch t v k Hk Hl Hc)). reflexivity. }
  split; [exact Hf|].
  intros q ts. unfold Frontier.update_research_queue. simpl. rewrite Hf. reflexivity.
Qed.

Lemma visited_key_suppresses_repush_witness :
  Frontier.keep (Dispatch.dispatch_v fetch_ok vitalik_site []) vitalik_repo = false.
Proof.
  apply (proj1 (visited_key_suppresses_repush fetch_ok vitalik_site vitalik_repo []
                  (Dispatch.dispatch_v fetch_ok vitalik_site []) "https://vitalik.ca"
                  eq_refl eq_refl eq_refl (fun x H => H) eq_refl)).
Defined.

(** A website target with a Wayback-calendar URL: dispatching it records
    only the fallback key of the original site, never its own URL, so the
    same target pushed again passes the filter. *)
Lemma calendar_target_not_suppressed :
  Dispatch.visited_key calendar_target = Some "https://web.archive.org/web/2014*/vitalik.ca" /\
  Dispatch.dispatch_v fetch_empty calendar_target [] = ["wayback:vitalik.ca"] /\
  Frontier.keep (Dispatch.dispatch_v fetch_empty calendar_target []) calendar_target = true.
Proof. vm_compute. repeat split. Qed.

(** C4: the sampler of [_investigate_wayback] returns at most 5 snapshots;
    with at most 5 snapshots it returns the input list itself; otherwise it
    returns the first and the last of the timestamp-sorted list (a
    snapshot with the smallest and one with the largest timestamp) followed
    by the interior snapshots at the distinct positions drawn by
    [random.sample], at most 3 of them. *)
Theorem snapshot_sampler_shape :
  forall (snaps : list Snapshots.snapshot) (picks : list nat),
    ((5 < List.length snaps)%nat ->
       Snapshots.sample_ok (List.length snaps - 2) (Nat.min 3 (List.length snaps - 2)) picks) ->
    let sel := Snapshots.select_snapshots snaps picks in
    (List.length sel <= 5)%nat /\
    ((List.length snaps <= 5)%nat -> sel = snaps) /\
    ((5 < List.length snaps)%nat ->
       exists e l interior,
         Permutation snaps (e :: interior ++ [l])%list /\
         StronglySorted Snapshots.ts_le (e :: interior ++ [l])%list /\
         (forall s, In s snaps -> Snapshots.ts_le e s /\ Snapshots.ts_le s l) /\
         sel = e :: l :: map (fun i => nth i interior Snapshots.no_snapshot) picks /\
         NoDup picks /\ Forall (fun i => (i < List.length interior)%nat) picks /\
         (List.length picks <= 3)%nat).
Proof.
  intros snaps picks Hs sel.
  destruct (Nat.ltb_spec 5 (List.length snaps)) as [Hn|Hn].
  - destruct (Hs Hn) as [Nd [Lp Fp]].
    destruct (SnapFacts.sort_asc_spec snaps) as [P S].
    pose proof (SnapFacts.sort_asc_length snaps) as Ls.
    set (sorted := Snapshots.sort_asc snaps) in *.
    set (e := hd Snapshots.no_snapshot sorted).
    set (l := last sorted Snapshots.no_snapshot).
    set (interior := removelast (tl sorted)).
    assert (Sp : sorted = (e :: interior ++ [l])%list)
      by (apply SnapFacts.split_ends; lia).
    assert (Li : List.length interior = (List.length snaps - 2)%nat).
    { rewrite <- Ls, Sp. simpl. rewrite length_app. simpl. lia. }
    assert (Sel : sel = e :: l :: map (fun i => nth i interior Snapshots.no_snapshot) picks).
    { unfold sel, Snapshots.select_snapshots.
      replace (5 <? List.length snaps)%nat with true by (symmetry; apply Nat.ltb_lt; lia).
      fold sorted.
      replace (2 <? List.length sorted)%nat with true by (symmetry; apply Nat.ltb_lt; lia).
      reflexivity. }
    split; [rewrite Sel; simpl; rewrite length_map; lia|].
    split; [lia|].
    intros _. exists e, l, interior.
    rewrite Sp in P, S.
    split; [exact P|]. split; [exact S|].
    split.
    + intros s Hin. apply (Permutation_in _ P) in Hin.
      apply StronglySorted_inv in S as [S1 Fe]. rewrite Forall_forall in Fe.
      destruct Hin as [<-|Hin].
      * split; [apply SnapFacts.ts_le_refl|].
        apply Fe. apply in_or_app. right. now left.
      * split; [exact (Fe s Hin)|].
        apply in_app_or in Hin as [Hin|[<-|[]]]; [|apply SnapFacts.ts_le_refl].
        apply (SnapFacts.sorted_app_before _ _ _ s l S1 Hin). now left.
    + split; [exact Sel|]. split; [exact Nd|]. split; [|lia].
      rewrite Li. exact Fp.
  - split; [|split].
    + unfold sel, Snapshots.select_snapshots.
      replace (5 <? List.length snaps)%nat with false by (symmetry; apply Nat.ltb_ge; lia).
      exact Hn.
    + intros _. unfold sel, Snapshots.select_snapshots.
      replace (5 <? List.length snaps)%nat with false by (symmetry; apply Nat.ltb_ge; lia).
      reflexivity.
    + intros H. lia.
Qed.

Lemma snapshot_sampler_shape_witness :
  Snapshots.select_snapshots seven_snapshots [0; 2; 4]%nat
  = map snap ["20130101000000"; "20190101000000"; "20140101000000"; "20160101000000";
              "20180101000000"] /\
  (List.length (Snapshots.select_snapshots seven_snapshots [0; 2; 4]%nat) <= 5)%nat.
Proof.
  split; [vm_compute; reflexivity|].
  apply (snapshot_sampler_shape seven_snapshots [0; 2; 4]%nat).
  intros _. unfold Snapshots.sample_ok. simpl. split; [|split; [reflexivity|]].
  - repeat constructor; simpl; intuition discriminate.
  - repeat constructor.
Defined.

(** C8 (amended): with [max_iterations = 3], [max_idle_iterations <= 3]
    and a frontier that never yields a target, the loop stops with
    [current_iteration] at most 3; it is stopped by the idle count (the
    guard or the [break] in the loop body) unless the wall-clock guard
    fires first at some check, and when the clock never runs out it is
    always the idle count. *)
Theorem empty_frontier_stops_by_idle_or_time :
  forall (m : Z) (time_up : Z -> bool) (fuel : nat),
    m <= 3 -> (3 <= fuel)%nat ->
    let (r, n) := Controller.start_investigation 3 m time_up (fun _ => false) (fun _ => false) fuel in
    0 <= n <= 3 /\
    (Controller.idle_guard r \/ (r = Controller.MaxTime /\ time_up n = true)) /\
    ((forall i, time_up i = false) -> Controller.idle_guard r).
Proof.
  intros m time_up fuel Hm Hf.
  destruct fuel as [|[|[|fuel]]]; try lia.
  unfold Controller.idle_guard.
  assert (Hc : m <= 0 \/ m = 1 \/ m = 2 \/ m = 3) by lia.
  destruct Hc as [Hc|[Hc|[Hc|Hc]]]; [|subst m ..].
  - cbn. replace (m <=? 0) with true by (symmetry; apply Z.leb_le; lia).
    repeat split; try lia; auto.
  - cbn. destruct (time_up 0) eqn:T0; cbn; repeat split; auto; try lia.
    intros H. rewrite H in T0. discriminate.
  - cbn. destruct (time_up 0) eqn:T0; cbn; [repeat split; auto; try lia|].
    + intros H. rewrite H in T0. discriminate.
    + destruct (time_up 1) eqn:T1; cbn; repeat split; auto; try lia.
      intros H. rewrite H in T1. discriminate.
  - cbn. destruct (time_up 0) eqn:T0; cbn; [repeat split; auto; try lia|].
    + intros H. rewrite H in T0. discriminate.
    + destruct (time_up 1) eqn:T1; cbn; [repeat split; auto; try lia|].
      * intros H. rewrite H in T1. discriminate.
      * destruct (time_up 2) eqn:T2; cbn; repeat split; auto; try lia.
        intros H. rewrite H in T2. discriminate.
Qed.

Lemma empty_frontier_stops_by_idle_or_time_witness :
  Controller.start_investigation 3 3 (fun _ => false) (fun _ => false) (fun _ => false) 3
  = (Controller.IdleBreak, 3) /\
  Controller.idle_guard
    (fst (Controller.start_investigation 3 3 (fun _ => false) (fun _ => false) (fun _ => false) 3)).
Proof.
  split; [reflexivity|].
  pose proof (empty_frontier_stops_by_idle_or_time 3 (fun _ => false) 3
                ltac:(lia) ltac:(lia)) as H.
  destruct (Controller.start_investigation 3 3 (fun _ => false) (fun _ => false) (fun _ => false) 3)
    as [r n].
  exact (proj2 (proj2 H) (fun _ => eq_refl)).
Defined.

(** With a zero time budget the wall-clock guard ends the run at the first
    check, before any iteration, although the frontier is empty and
    [max_idle_iterations = 3]. *)
Lemma zero_time_budget_stops_by_time :
  Controller.start_investigation 3 3 (fun _ => true) (fun _ => false) (fun _ => false) 4
  = (Controller.MaxTime, 0) /\
  ~ Controller.idle_guard Controller.MaxTime.
Proof.
  split; [reflexivity|]. unfold Controller.idle_guard. intros [H|H]; discriminate.
Qed.

(** C5: the [```json] branch of [_extract_json] returns the stripped block
    without trying [json.loads] on it: a response whose [```json] block
    holds text that is not JSON yields that text, which is not valid JSON,
    and not ['{}']. *)
Theorem extract_json_returns_unvalidated_block :
  Json.extract_json fenced_non_json = "not json" /\
  Json.json_valid "not json" = false /\
  Json.extract_json fenced_non_json <> "{}".
Proof. vm_compute. split; [reflexivity|split; [reflexivity|discriminate]]. Qed.

End Claims.
(* ------------------------------------------------------------------ *)
(** ** Further facts on the extractor *)

Module ExtraFacts.
Import Extractor Props StrFacts ScoreFacts.

(** Each artifact of a pass is built from one candidate, with the hash of
    its content, its score, the URL and the date of the call. *)
Lemma dedup_pass_shape sha url date cands hs a :
  In a (fst (dedup_pass sha url date cands hs)) ->
  exists c, In c cands /\
    a = mk_artifact (c_type c) (c_content c) (c_summary c) (c_location c)
          (generate_hash sha (c_content c)) (score_artifact url (c_content c) date) url date.
Proof.
  revert hs. induction cands as [|c cs IH]; intros hs Hin; simpl in Hin; [contradiction|].
  destruct (Py.mem (generate_hash sha (c_content c)) hs).
  - destruct (IH _ Hin) as [c' [H1 H2]]. exists c'. split; [now right|exact H2].
  - destruct (dedup_pass sha url date cs _) as [rest hs'] eqn:E. simpl in Hin.
    destruct Hin as [<-|Hin].
    + exists c. split; [now left|reflexivity].
    + assert (Hin' : In a (fst (dedup_pass sha url date cs
                                  (hs ++ [generate_hash sha (c_content c)])%list)))
        by (rewrite E; exact Hin).
      destruct (IH _ Hin') as [c' [H1 H2]]. exists c'. split; [now right|exact H2].
Qed.

Lemma dedup_pass_scored sha url date cands hs :
  Forall (scored sha url date) (fst (dedup_pass sha url date cands hs)).
Proof.
  apply Forall_forall. intros a Hin.
  destruct (dedup_pass_shape _ _ _ _ _ _ Hin) as [c [_ ->]].
  repeat split.
Qed.

Lemma extract_private_keys_scored sha loc text url date hs :
  Forall (scored sha url date) (fst (extract_private_keys sha loc text url date hs)).
Proof.
  unfold extract_private_keys.
  pose proof (dedup_pass_scored sha url date (private_key_candidates loc text) hs) as F1.
  destruct (dedup_pass sha url date (private_key_candidates loc text) hs) as [a1 h1].
  pose proof (dedup_pass_scored sha url date (hex64_candidates loc text) h1) as F2.
  destruct (dedup_pass sha url date (hex64_candidates loc text) h1) as [a2 h2].
  simpl in *. apply Forall_app. split; assumption.
Qed.

(** The whole of one extraction call starting from an empty hash set is a
    fresh pass (the chain of the six passes). *)
Lemma extract_fresh sha Soup parse get_text loc sol ks seed api html url date :
  exists hs', fresh_pass sha []
    (Entry.extract_artifacts_from_html sha Soup parse get_text loc sol ks seed api html url date) hs'.
Proof.
  unfold Entry.extract_artifacts_from_html.
  destruct html as [html|];
    [|exists []; repeat split; try constructor; simpl; intros; contradiction].
  destruct (Z.of_nat (String.length html) <? 100);
    [exists []; repeat split; try constructor; simpl; intros; contradiction|].
  destruct (parse html) as [soup|];
    [|exists []; repeat split; try constructor; simpl; intros; contradiction].
  destruct (dedup_pass sha url date (sol soup) []) as [a1 h1] eqn:E1.
  destruct (extract_wallet_addresses sha (loc soup) (get_text soup) url date h1) as [a2 h2] eqn:E2.
  destruct (extract_private_keys sha (loc soup) (get_text soup) url date h2) as [a3 h3] eqn:E3.
  destruct (dedup_pass sha url date (ks soup) h3) as [a4 h4] eqn:E4.
  destruct (dedup_pass sha url date (seed soup) h4) as [a5 h5] eqn:E5.
  destruct (dedup_pass sha url date (api soup) h5) as [a6 h6] eqn:E6.
  exists h6.
  apply DedupFacts.dedup_pass_fresh' in E1, E4, E5, E6.
  apply DedupFacts.dedup_pass_fresh' in E2.
  apply DedupFacts.extract_private_keys_fresh in E3.
  eapply DedupFacts.fresh_pass_app; [exact E1|].
  eapply DedupFacts.fresh_pass_app; [exact E2|].
  eapply DedupFacts.fresh_pass_app; [exact E3|].
  eapply DedupFacts.fresh_pass_app; [exact E4|].
  eapply DedupFacts.fresh_pass_app; [exact E5|].
  exact E6.
Qed.

Lemma extract_scored sha Soup parse get_text loc sol ks seed api html url date :
  Forall (scored sha url date)
    (Entry.extract_artifacts_from_html sha Soup parse get_text loc sol ks seed api html url date).
Proof.
  unfold Entry.extract_artifacts_from_html.
  destruct html as [html|]; [|constructor].
  destruct (Z.of_nat (String.length html) <? 100); [constructor|].
  destruct (parse html) as [soup|]; [|constructor].
  pose proof (dedup_pass_scored sha url date (sol soup) []) as F1.
  destruct (dedup_pass sha url date (sol soup) []) as [a1 h1].
  pose proof (dedup_pass_scored sha url date (wallet_candidates (loc soup) (get_text soup)) h1) as F2.
  unfold extract_wallet_addresses.
  destruct (dedup_pass sha url date (wallet_candidates (loc soup) (get_text soup)) h1) as [a2 h2].
  pose proof (extract_private_keys_scored sha (loc soup) (get_text soup) url date h2) as F3.
  destruct (extract_private_keys sha (loc soup) (get_text soup) url date h2) as [a3 h3].
  pose proof (dedup_pass_scored sha url date (ks soup) h3) as F4.
  destruct (dedup_pass sha url date (ks soup) h3) as [a4 h4].
  pose proof (dedup_pass_scored sha url date (seed soup) h4) as F5.
  destruct (dedup_pass sha url date (seed soup) h4) as [a5 h5].
  pose proof (dedup_pass_scored sha url date (api soup) h5) as F6.
  destruct (dedup_pass sha url date (api soup) h5) as [a6 h6].
  simpl in *. repeat (apply Forall_app; split); assumption.
Qed.

Lemma match_0x_hex_shape n s g r :
  match_0x_hex n s = Some (g, r) ->
  exists h, s = ("0x" ++ h ++ r)%string /\ g = ("0x" ++ h)%string /\
            String.length h = n /\ str_forall is_hex h = true.
Proof.
  intros E. unfold match_0x_hex in E.
  destruct s as [|c0 s]; [discriminate|].
  destruct c0 as [[] [] [] [] [] [] [] []]; try (simpl in E; discriminate E).
  destruct s as [|c1 s]; [discriminate|].
  destruct c1 as [[] [] [] [] [] [] [] []]; try (simpl in E; discriminate E).
  simpl in E.
  destruct (take_hex n s) as [[h rest]|] eqn:Eh; [|discriminate].
  inversion E; subst. apply take_hex_spec in Eh as [H1 [H2 H3]].
  exists h. subst. repeat split; assumption.
Qed.

Lemma finditer_none (Q : string -> Prop) m :
  (forall s, Q s -> m s = None) ->
  (forall c s, Q (String c s) -> Q s) ->
  forall fuel s, Q s -> finditer m fuel s = [].
Proof.
  intros Hm Ht fuel. induction fuel as [|f IH]; intros s Hs; simpl; [reflexivity|].
  rewrite (Hm s Hs). destruct s as [|c s]; [reflexivity|]. apply IH, (Ht c s Hs).
Qed.

Lemma hex_no_0x n s : str_forall is_hex s = true -> match_0x_hex n s = None.
Proof.
  intros H. destruct (match_0x_hex n s) as [[g r]|] eqn:E; [|reflexivity].
  apply match_0x_hex_shape in E as [h [-> _]]. discriminate H.
Qed.

Lemma ci_prefix_head c p d s r :
  ci_prefix (String c p) (String d s) = Some r -> c = Py.lower_char d.
Proof. simpl. destruct (Ascii.eqb_spec c (Py.lower_char d)); [auto|discriminate]. Qed.

Lemma no_label_no_key s :
  str_forall no_label_start s = true -> match_private_key s = None.
Proof.
  destruct s as [|d s]; [reflexivity|]. simpl. intros H. apply andb_prop in H as [H _].
  unfold no_label_start in H.
  unfold match_private_key, match_label_key, opt_orelse.
  destruct (ci_prefix "private" (String d s)) eqn:E1.
  { apply ci_prefix_head in E1. rewrite <- E1 in H. discriminate H. }
  destruct (ci_prefix "secret" (String d s)) eqn:E2.
  { apply ci_prefix_head in E2. rewrite <- E2 in H. discriminate H. }
  destruct (ci_prefix "key" (String d s)) eqn:E3; [|reflexivity].
  apply ci_prefix_head in E3. rewrite <- E3 in H. discriminate H.
Qed.

Lemma hex_no_label c : is_hex c = true -> no_label_start c = true.
Proof. destruct c as [[] [] [] [] [] [] [] []]; intro H; try discriminate H; reflexivity. Qed.

Lemma community_excl d :
  existsb (Py.endswith d) COMMUNITY_DOMAINS = true ->
  existsb (Py.endswith d) TRUSTED_DOMAINS = false /\ Py.endswith d ".org" = false.
Proof.
  unfold Py.endswith. generalize (Py.rev_str d) as R. intros R. simpl.
  destruct R as [|c r]; simpl; [discriminate|].
  destruct c as [[] [] [] [] [] [] [] []]; simpl; intros H; try discriminate H; split; reflexivity.
Qed.

Lemma findall_wallet_form text :
  Forall (fun g => exists h, g = ("0x" ++ h)%string /\ String.length h = 40%nat /\
                             str_forall is_hex h = true)
         (findall (match_0x_hex 40) text).
Proof.
  apply finditer_forall. intros s g r E.
  apply match_0x_hex_shape in E as [h [_ [-> [H1 H2]]]]. eauto.
Qed.

Lemma hex64_form text :
  Forall (fun g => exists h, g = ("0x" ++ h)%string /\ String.length h = 64%nat /\
                             str_forall is_hex h = true)
         (findall (match_0x_hex 64) text).
Proof.
  apply finditer_forall. intros s g r E.
  apply match_0x_hex_shape in E as [h [_ [-> [H1 H2]]]]. eauto.
Qed.

Lemma findall_key_form text :
  Forall (fun g => String.length g = 64%nat /\ str_forall is_hex g = true)
         (findall match_private_key text).
Proof.
  apply finditer_forall. intros s g r.
  assert (Hl : forall p s g r, match_label_key p s = Some (g, r) ->
                 String.length g = 64%nat /\ str_forall is_hex g = true).
  { intros p s0 g0 r0. unfold match_label_key.
    destruct (ci_prefix p s0); [|discriminate].
    destruct (ci_prefix "key" (skip_ws s1)); [|discriminate].
    apply match_key_tail_hex. }
  unfold match_private_key, opt_orelse.
  destruct (match_label_key "private" s) as [[g1 r1]|] eqn:E1.
  { intros X. inversion X; subst. exact (Hl _ _ _ _ E1). }
  destruct (match_label_key "secret" s) as [[g2 r2]|] eqn:E2.
  { intros X. inversion X; subst. exact (Hl _ _ _ _ E2). }
  destruct (ci_prefix "key" s); [|discriminate].
  apply match_key_tail_hex.
Qed.

Lemma str_app_nil' s : (s ++ EmptyString)%string = s.
Proof. induction s as [|c s IH]; simpl; [reflexivity|now rewrite IH]. Qed.

Lemma str_app_assoc s t u : ((s ++ t) ++ u)%string = (s ++ (t ++ u))%string.
Proof. induction s as [|c s IH]; simpl; [reflexivity|now rewrite IH]. Qed.

Lemma str_length_app s t : String.length (s ++ t) = (String.length s + String.length t)%nat.
Proof. induction s as [|c s IH]; simpl; [reflexivity|now rewrite IH]. Qed.

Lemma finditer_step' m f s :
  finditer m (S f) s =
  match m s with
  | Some (g, rest) => g :: finditer m f rest
  | None => match s with EmptyString => [] | String _ r => finditer m f r end
  end.
Proof. reflexivity. Qed.

Lemma match_0x_hex_app h r :
  str_forall is_hex h = true ->
  match_0x_hex (String.length h) ("0x" ++ h ++ r) = Some ("0x" ++ h, r).
Proof. intros H. unfold match_0x_hex. simpl. now rewrite take_hex_all. Qed.

Lemma findall_hex_tail h1 h2 :
  str_forall is_hex h1 = true -> str_forall is_hex h2 = true ->
  findall (match_0x_hex (String.length h1)) ("0x" ++ h1 ++ h2) = ["0x" ++ h1].
Proof.
  intros H1 H2. unfold findall. rewrite finditer_step', match_0x_hex_app by exact H1.
  f_equal. apply (finditer_none (fun s => str_forall is_hex s = true)); [|simpl|exact H2].
  - intros s Hs. now apply hex_no_0x.
  - intros c s Hs. apply andb_prop in Hs. apply Hs.
Qed.

Lemma findall_no_key h :
  str_forall is_hex h = true -> findall match_private_key ("0x" ++ h) = [].
Proof.
  intros H. unfold findall.
  apply (finditer_none (fun s => str_forall no_label_start s = true)).
  - intros s Hs. now apply no_label_no_key.
  - intros c s Hs. apply andb_prop in Hs. apply Hs.
  - simpl. eapply str_forall_impl; [exact hex_no_label|exact H].
Qed.


End ExtraFacts.
(* ------------------------------------------------------------------ *)
(** ** Properties of the extraction code *)

Module Extras.
Import Extractor Props StrFacts ScoreFacts ExtraFacts Scenarios.

(** X1: [score_artifact] always lies between -15 and 7, and content that
    contains one of the warning phrases (lower-cased) scores at most -3,
    whatever the domain, the date and the length. *)
Theorem score_artifact_range url content date :
  -15 <= score_artifact url content date <= 7 /\
  (existsb (Py.contains (Py.lower content)) WARNING_PHRASES = true ->
   score_artifact url content date <= -3).
Proof.
  unfold score_artifact. cbv zeta.
  destruct (existsb (Py.endswith (Url.netloc url)) TRUSTED_DOMAINS),
           (Py.endswith (Url.netloc url) ".org"),
           (existsb (Py.endswith (Url.netloc url)) COMMUNITY_DOMAINS),
           (existsb (Py.contains (Py.lower content)) WARNING_PHRASES),
           (20 <? Z.of_nat (String.length content));
    destruct date as [d|]; try destruct (Py.truthy (Some d) && (d <? "2022-01-01")%string);
    split; intros; try lia; discriminate.
Qed.

(** X2: a URL whose host ends with one of the community domains scores at
    most -2: no such host also ends with a trusted domain or with [.org]. *)
Theorem community_domain_score_cap url content date :
  existsb (Py.endswith (Url.netloc url)) COMMUNITY_DOMAINS = true ->
  score_artifact url content date <= -2.
Proof.
  intros H. destruct (community_excl _ H) as [T O].
  unfold score_artifact. cbv zeta. rewrite H, T, O.
  destruct (existsb (Py.contains (Py.lower content)) WARNING_PHRASES),
           (20 <? Z.of_nat (String.length content));
    destruct date as [d|]; try destruct (Py.truthy (Some d) && (d <? "2022-01-01")%string); lia.
Qed.

Lemma community_domain_score_cap_witness :
  existsb (Py.endswith (Url.netloc "https://medium.com/@vitalik/post")) COMMUNITY_DOMAINS = true /\
  score_artifact "https://medium.com/@vitalik/post" Scenarios.k64 (Some "2015-03-01") <= -2.
Proof. split; [vm_compute; reflexivity|apply community_domain_score_cap; vm_compute; reflexivity]. Defined.

(** X3: every artifact returned by [extract_artifacts_from_html] carries the
    URL and the date of the call, the score [score_artifact] gives its
    content, and the hash [generate_hash] gives its content. *)
Theorem extract_artifacts_scored sha Soup parse get_text loc sol ks seed api html url date :
  Forall (fun a => a_score a = score_artifact url (a_content a) date /\ a_url a = url /\
                   a_date a = date /\ a_hash a = generate_hash sha (a_content a))
    (Entry.extract_artifacts_from_html sha Soup parse get_text loc sol ks seed api html url date).
Proof. exact (extract_scored sha Soup parse get_text loc sol ks seed api html url date). Qed.

(** X4: no two artifacts returned by one call of
    [extract_artifacts_from_html] have the same content once lower-cased and
    stripped of whitespace, whatever the hash function. *)
Theorem extract_artifacts_normalised_distinct sha Soup parse get_text loc sol ks seed api html url date :
  NoDup (map (fun a => Py.remove_ws (Py.lower (a_content a)))
    (Entry.extract_artifacts_from_html sha Soup parse get_text loc sol ks seed api html url date)).
Proof.
  destruct (extract_fresh sha Soup parse get_text loc sol ks seed api html url date)
    as [hs [_ [N [_ C]]]].
  set (arts := Entry.extract_artifacts_from_html _ _ _ _ _ _ _ _ _ _ _ _) in *.
  apply (NoDup_map_inv sha). rewrite map_map.
  erewrite map_ext_in; [exact N|]. intros a Ha. simpl. now rewrite (C a Ha).
Qed.

(** X5: every artifact of [extract_wallet_addresses] has type
    [wallet_address], its summary equal to its content, and content [0x]
    followed by exactly 40 hexadecimal digits. *)
Theorem wallet_addresses_form sha loc text url date hs :
  Forall (fun a => a_type a = "wallet_address" /\ a_summary a = a_content a /\
                   exists h, a_content a = ("0x" ++ h)%string /\ String.length h = 40%nat /\
                             str_forall is_hex h = true)
    (fst (extract_wallet_addresses sha loc text url date hs)).
Proof.
  apply Forall_forall. intros a Ha.
  destruct (dedup_pass_shape _ _ _ _ _ _ Ha) as [c [Hc ->]]. simpl.
  unfold wallet_candidates in Hc. apply in_map_iff in Hc as [g [<- Hg]]. simpl.
  pose proof (findall_wallet_form text) as F. rewrite Forall_forall in F.
  repeat split. exact (F g Hg).
Qed.

(** X6: every artifact of [extract_private_keys] has type [private_key] and
    is either 64 hexadecimal digits with the summary
    "[private key redacted - 64 chars]", or [0x] and 64 hexadecimal digits
    with the summary "[private key redacted - 66 chars]": the summary never
    holds key material. *)
Theorem private_keys_form sha loc text url date hs :
  Forall (fun a => a_type a = "private_key" /\
                   ((String.length (a_content a) = 64%nat /\ str_forall is_hex (a_content a) = true /\
                     a_summary a = "[private key redacted - 64 chars]") \/
                    (exists h, a_content a = ("0x" ++ h)%string /\ String.length h = 64%nat /\
                               str_forall is_hex h = true /\
                               a_summary a = "[private key redacted - 66 chars]")))
    (fst (extract_private_keys sha loc text url date hs)).
Proof.
  unfold extract_private_keys.
  destruct (dedup_pass sha url date (private_key_candidates loc text) hs) as [a1 h1] eqn:E1.
  destruct (dedup_pass sha url date (hex64_candidates loc text) h1) as [a2 h2] eqn:E2.
  simpl. apply Forall_forall. intros a Ha. apply in_app_or in Ha as [Ha|Ha].
  - assert (Ha' : In a (fst (dedup_pass sha url date (private_key_candidates loc text) hs)))
      by now rewrite E1.
    destruct (dedup_pass_shape _ _ _ _ _ _ Ha') as [c [Hc ->]]. simpl.
    unfold private_key_candidates in Hc. apply in_map_iff in Hc as [g [<- Hg]]. simpl.
    pose proof (findall_key_form text) as F. rewrite Forall_forall in F.
    destruct (F g Hg) as [L X]. split; [reflexivity|left].
    unfold private_key_summary. rewrite L. auto.
  - assert (Ha' : In a (fst (dedup_pass sha url date (hex64_candidates loc text) h1)))
      by now rewrite E2.
    destruct (dedup_pass_shape _ _ _ _ _ _ Ha') as [c [Hc ->]]. simpl.
    unfold hex64_candidates in Hc. apply in_map_iff in Hc as [g [<- Hg]]. simpl.
    pose proof (hex64_form text) as F. rewrite Forall_forall in F.
    destruct (F g Hg) as [h [-> [L X]]]. split; [reflexivity|right].
    exists h. unfold private_key_summary. simpl String.length. rewrite L. auto.
Qed.

(** X7: on a page whose text is [0x] followed by 64 hexadecimal digits and
    which has no other candidates, the first 40 digits are reported as a
    wallet address and the whole string as a private key: the address
    pattern has no word boundary.  The preconditions are that the markup
    is at least 100 characters long (shorter input returns [] before any
    parsing) and that the two strings hash differently. *)
Theorem hex64_after_address_reported_twice sha Soup parse get_text loc sol ks seed api
    html soup url date h1 h2 :
  (100 <= String.length html)%nat -> parse html = Some soup ->
  get_text soup = ("0x" ++ h1 ++ h2)%string ->
  sol soup = [] -> ks soup = [] -> seed soup = [] -> api soup = [] ->
  String.length h1 = 40%nat -> str_forall is_hex h1 = true ->
  String.length h2 = 24%nat -> str_forall is_hex h2 = true ->
  generate_hash sha ("0x" ++ h1 ++ h2) <> generate_hash sha ("0x" ++ h1) ->
  map (fun a => (a_type a, a_content a))
    (Entry.extract_artifacts_from_html sha Soup parse get_text loc sol ks seed api (Some html) url date)
  = [("wallet_address", "0x" ++ h1); ("private_key", "0x" ++ h1 ++ h2)].
Proof.
  intros Hlen Hp Ht Hs Hk Hse Ha L1 X1 L2 X2 Hd.
  assert (X12 : str_forall is_hex (h1 ++ h2) = true) by (rewrite str_forall_app, X1, X2; reflexivity).
  set (text := ("0x" ++ h1 ++ h2)%string) in *.
  set (w := ("0x" ++ h1)%string) in *.
  assert (W : findall (match_0x_hex 40) text = [w]).
  { rewrite <- L1. exact (findall_hex_tail h1 h2 X1 X2). }
  assert (K : findall match_private_key text = []) by exact (findall_no_key _ X12).
  assert (H64 : findall (match_0x_hex 64) text = [text]).
  { assert (E : String.length (h1 ++ h2) = 64%nat) by (rewrite str_length_app; lia).
    pose proof (findall_hex_tail (h1 ++ h2) "" X12 eq_refl) as F.
    rewrite str_app_nil', E in F. exact F. }
  unfold Entry.extract_artifacts_from_html.
  replace (Z.of_nat (String.length html) <? 100) with false by (symmetry; apply Z.ltb_ge; lia).
  rewrite Hp, Ht, Hs, Hk, Hse, Ha.
  unfold extract_wallet_addresses, wallet_candidates, extract_private_keys,
    private_key_candidates, hex64_candidates.
  rewrite W, K, H64. simpl.
  destruct (String.eqb_spec (generate_hash sha text) (generate_hash sha w)) as [E|_];
    [contradiction|reflexivity].
Qed.

Lemma hex64_after_address_reported_twice_witness :
  map (fun a => (a_type a, a_content a))
    (Entry.extract_artifacts_from_html id_digest unit (fun _ => Some tt)
       (fun _ => ("0x" ++ addr40 ++ tail24)%string) (fun _ => no_location)
       (fun _ => []) (fun _ => []) (fun _ => []) (fun _ => [])
       (Some wallet_page) example_url None)
  = [("wallet_address", "0x" ++ addr40); ("private_key", "0x" ++ addr40 ++ tail24)].
Proof.
  apply (hex64_after_address_reported_twice id_digest unit (fun _ => Some tt)
           (fun _ => ("0x" ++ addr40 ++ tail24)%string) (fun _ => no_location)
           (fun _ => []) (fun _ => []) (fun _ => []) (fun _ => []) wallet_page tt);
    try reflexivity.
  - vm_compute. lia.
  - vm_compute. discriminate.
Defined.

End Extras.

(* ------------------------------------------------------------------ *)
Module ProcessExtras.
Import Extractor Props StrFacts Process.

Lemma is_duplicate_false st d :
  is_duplicate_discovery st d = false -> Forall (fun e => distinct_disc e d) (discoveries st).
Proof.
  unfold is_duplicate_discovery. intros H. apply Forall_forall. intros e He.
  match type of H with existsb ?f _ = false =>
    assert (X : f e = false)
      by (destruct (f e) eqn:F; [|reflexivity];
          rewrite <- H; symmetry; apply existsb_exists; eauto) end.
  apply orb_false_iff in X as [X1 X2]. split.
  - intros E. rewrite E, String.eqb_refl in X1. discriminate.
  - intros E. rewrite E, String.eqb_refl in X2. simpl in X2.
    destruct (String.eqb_spec (d_content d) EmptyString); [assumption|discriminate].
Qed.

Lemma ForallOrdPairs_snoc {A} (R : A -> A -> Prop) l x :
  ForallOrdPairs R l -> Forall (fun e => R e x) l -> ForallOrdPairs R (l ++ [x]).
Proof.
  induction l as [|y l IH]; intros Hl Hx; simpl.
  - repeat constructor.
  - inversion Hl; subst. inversion Hx; subst. constructor.
    + apply Forall_app. split; [assumption|]. repeat constructor. assumption.
    + apply IH; assumption.
Qed.

Lemma process_one_spec src w o st a st1 od :
  process_one src w o st a = (st1, od) ->
  current_iteration st1 = current_iteration st /\
  subset_v (entity_aliases st) (entity_aliases st1) /\
  match od with
  | None => discoveries st1 = discoveries st
  | Some d => discoveries st1 = (discoveries st ++ [d])%list /\
              0 < d_score d /\ d_iteration d = current_iteration st /\ d_source_url d = src /\
              Forall (fun e => distinct_disc e d) (discoveries st) /\
              (Py.mem (d_type d) NAME_TYPES = true -> Py.mem (d_content d) (entity_aliases st1) = true)
  end.
Proof.
  unfold process_one. destruct (adjusted_score st a <=? 0) eqn:Es.
  { intros X. inversion X; subst. split; [reflexivity|]. split; [apply DispatchFacts.subset_v_refl|reflexivity]. }
  match goal with |- context [is_duplicate_discovery st ?d] => set (dd := d) end.
  destruct (is_duplicate_discovery st dd) eqn:Ed.
  { intros X. inversion X; subst. split; [reflexivity|]. split; [apply DispatchFacts.subset_v_refl|reflexivity]. }
  apply Z.leb_gt in Es.
  destruct (Py.mem (a_type a) NAME_TYPES) eqn:Em;
    intros X; inversion X; subst; clear X; cbn [entity_aliases discoveries current_iteration];
    (split; [reflexivity|]).
  - split; [apply DispatchFacts.subset_v_add|].
    repeat split; try assumption; try reflexivity.
    + apply is_duplicate_false. exact Ed.
    + intros _. apply set_add_self.
  - split; [apply DispatchFacts.subset_v_refl|].
    repeat split; try assumption; try reflexivity.
    + apply is_duplicate_false. exact Ed.
    + unfold dd. cbn [d_type]. rewrite Em. discriminate.
Qed.

Lemma process_loop_spec src w o arts st st' ds :
  process_loop src w o st arts = (st', ds) ->
  discoveries st' = (discoveries st ++ ds)%list /\
  current_iteration st' = current_iteration st /\
  subset_v (entity_aliases st) (entity_aliases st') /\
  Forall (fun d => 0 < d_score d /\ d_iteration d = current_iteration st /\ d_source_url d = src /\
                   (Py.mem (d_type d) NAME_TYPES = true -> Py.mem (d_content d) (entity_aliases st') = true)) ds /\
  (ForallOrdPairs distinct_disc (discoveries st) -> ForallOrdPairs distinct_disc (discoveries st')).
Proof.
  revert st st' ds. induction arts as [|a rest IH]; intros st st' ds E; simpl in E.
  - inversion E; subst. rewrite app_nil_r. repeat split; auto using DispatchFacts.subset_v_refl.
  - destruct (process_one src w o st a) as [st1 od] eqn:E1.
    destruct (process_loop src w o st1 rest) as [st2 ds2] eqn:E2.
    inversion E; subst st2 ds. clear E.
    destruct (process_one_spec _ _ _ _ _ _ _ E1) as [I1 [A1 M1]].
    destruct (IH _ _ _ E2) as [D2 [I2 [A2 [F2 P2]]]].
    destruct od as [d|].
    + destruct M1 as [D1 [S1 [It1 [Src1 [Dd1 N1]]]]].
      split; [rewrite D2, D1, <- app_assoc; reflexivity|].
      split; [congruence|].
      split; [eapply DispatchFacts.subset_v_trans; eassumption|].
      split.
      * constructor.
        -- repeat split; try assumption. intros Hm. apply A2, N1, Hm.
        -- eapply Forall_impl; [|exact F2]. simpl. intros x [H1 [H2 H3]]. rewrite I1 in H2. auto.
      * intros H. apply P2. rewrite D1. apply ForallOrdPairs_snoc; assumption.
    + split; [rewrite D2, M1; reflexivity|].
      split; [congruence|].
      split; [eapply DispatchFacts.subset_v_trans; eassumption|].
      split.
      * eapply Forall_impl; [|exact F2]. simpl. intros x [H1 [H2 H3]]. rewrite I1 in H2. auto.
      * intros H. apply P2. rewrite M1. exact H.
Qed.

Lemma process_artifacts_loop st arts src w o :
  process_artifacts st arts src w o = process_loop src w o st arts.
Proof. destruct arts; reflexivity. Qed.

(** X8: [_process_artifacts] only appends to the discovery list: afterwards the list is the old one followed by the returned discoveries, the iteration counter is unchanged and the alias set only grows.  Every returned discovery has a positive score, the current iteration and the source URL, and a discovery of a name type has its content among the aliases. *)
Theorem process_artifacts_frame st arts src w o st' ds :
  process_artifacts st arts src w o = (st', ds) ->
  discoveries st' = (discoveries st ++ ds)%list /\
  current_iteration st' = current_iteration st /\
  subset_v (entity_aliases st) (entity_aliases st') /\
  Forall (fun d => 0 < d_score d /\ d_iteration d = current_iteration st /\ d_source_url d = src /\
                   (Py.mem (d_type d) NAME_TYPES = true -> Py.mem (d_content d) (entity_aliases st') = true)) ds.
Proof.
  rewrite process_artifacts_loop. intros E.
  destruct (process_loop_spec _ _ _ _ _ _ _ E) as [H1 [H2 [H3 [H4 _]]]]. auto.
Qed.

Lemma process_artifacts_frame_witness :
  discoveries (fst (process_artifacts Scenarios.agent0 [Scenarios.key_artifact] Scenarios.example_url false None))
  = (discoveries Scenarios.agent0 ++ snd (process_artifacts Scenarios.agent0 [Scenarios.key_artifact] Scenarios.example_url false None))%list.
Proof.
  exact (proj1 (process_artifacts_frame Scenarios.agent0 [Scenarios.key_artifact] Scenarios.example_url
    false None _ _ ltac:(reflexivity))).
Defined.

(** X9: If no two discoveries of the agent share an id, or share a content that is not empty, the same holds after [_process_artifacts]. *)
Theorem process_artifacts_keeps_distinct st arts src w o st' ds :
  process_artifacts st arts src w o = (st', ds) ->
  ForallOrdPairs distinct_disc (discoveries st) ->
  ForallOrdPairs distinct_disc (discoveries st').
Proof.
  rewrite process_artifacts_loop. intros E.
  destruct (process_loop_spec _ _ _ _ _ _ _ E) as [_ [_ [_ [_ H]]]]. exact H.
Qed.

Lemma process_artifacts_keeps_distinct_witness :
  ForallOrdPairs distinct_disc
    (discoveries (fst (process_artifacts Scenarios.agent0
                         [Scenarios.key_artifact; Scenarios.key_artifact] Scenarios.example_url false None))).
Proof.
  apply (process_artifacts_keeps_distinct Scenarios.agent0 [Scenarios.key_artifact; Scenarios.key_artifact]
           Scenarios.example_url false None _ (snd (process_artifacts Scenarios.agent0
                         [Scenarios.key_artifact; Scenarios.key_artifact] Scenarios.example_url false None))).
  - reflexivity.
  - constructor.
Defined.

End ProcessExtras.

(* ------------------------------------------------------------------ *)
Module QueueExtras.
Import Frontier Dispatch Props StrFacts FrontierFacts DispatchFacts.

Lemma insert_desc_perm t q : Permutation (t :: q) (insert_desc t q).
Proof.
  induction q as [|u q IH]; simpl; [reflexivity|].
  destruct (prio u <? prio t); [reflexivity|].
  etransitivity; [apply perm_swap|]. now constructor.
Qed.

Lemma fold_insert_desc_perm l acc :
  Permutation (acc ++ l)%list (fold_left (fun acc t => insert_desc t acc) l acc).
Proof.
  revert acc. induction l as [|t l IH]; intros acc; simpl; [now rewrite app_nil_r|].
  etransitivity; [|apply IH].
  etransitivity; [apply Permutation_sym, Permutation_middle|].
  change (t :: acc ++ l)%list with ((t :: acc) ++ l)%list.
  apply Permutation_app_tail, insert_desc_perm.
Qed.

(** X10: [_update_research_queue] returns a permutation of the old queue followed by the new targets its filter admits, sorted by descending priority, each priority class keeping the old queue first and then the new targets in arrival order. *)
Theorem update_research_queue_spec inv q ts :
  Permutation (q ++ filter (keep inv) ts)%list (update_research_queue inv q ts) /\
  sorted_desc (update_research_queue inv q ts) /\
  forall k, filter_k k (update_research_queue inv q ts)
            = (filter_k k q ++ filter_k k (filter (keep inv) ts))%list.
Proof.
  destruct (update_queue_spec inv q ts) as [H1 H2]. split; [|split; assumption].
  unfold update_research_queue, sort_desc. exact (fold_insert_desc_perm _ []).
Qed.


Lemma set_add_nodup x v : NoDup v -> NoDup (Py.set_add x v).
Proof.
  unfold Py.set_add. intros H. destruct (Py.mem x v) eqn:E; [exact H|].
  apply mem_false_iff in E. apply NoDup_app; [exact H|repeat constructor; simpl; tauto|].
  intros y Hy [<-|[]]. exact (E Hy).
Qed.

Section NoDupV.
Variable fetch : string -> fetch_result.

Lemma dispatch_nodup t v : NoDup v -> NoDup (dispatch_v fetch t v).
Proof.
  assert (Wb : forall u v, NoDup v -> NoDup (investigate_wayback_v u v)).
  { intros u v0 H. unfold investigate_wayback_v. destruct (Py.truthy u); auto using set_add_nodup. }
  assert (Ws : forall u w v, NoDup v -> NoDup (investigate_website_v fetch u w v)).
  { intros u w v0 H. unfold investigate_website_v, investigate_wayback_calendar_v.
    destruct u as [u|]; [|exact H].
    destruct (negb (Py.truthy (Some u))); [exact H|].
    destruct (Py.contains u "*" && Py.contains u "web.archive.org/web/").
    - destruct (parse_calendar u) as [[ts o]|]; [|exact H].
      destruct (fetch _); auto.
    - destruct (Py.mem u v0); [exact H|].
      destruct (fetch u); [| destruct w|]; auto using set_add_nodup. }
  intros H. unfold dispatch_v, execute_search_v, investigate_github_v.
  destruct (is_type t "website"); [auto|].
  destruct (is_type t "search"); [destruct (Py.truthy (t_query t)); auto using set_add_nodup|].
  destruct (is_type t "wayback"); [auto|].
  destruct (is_type t "github"); [|exact H].
  destruct (t_url t) as [u|]; [|exact H].
  destruct (negb (Py.truthy (Some u))); [exact H|].
  destruct (Py.mem u v); [exact H|]. auto using set_add_nodup.
Qed.

End NoDupV.

(** X11: Dispatching any target only adds to the visited set, and never adds a URL or query that is already in it. *)
Theorem dispatch_visited_grows_as_set fetch t v :
  subset_v v (dispatch_v fetch t v) /\ (NoDup v -> NoDup (dispatch_v fetch t v)).
Proof. split; [apply dispatch_mono|apply dispatch_nodup]. Qed.

End QueueExtras.

(* ------------------------------------------------------------------ *)
Module CalendarExtras.
Import Frontier Dispatch Props StrFacts.

Lemma startswith_app p x : Py.startswith (p ++ x) p = true.
Proof. induction p as [|c p IH]; simpl; [now destruct x|]. now rewrite Ascii.eqb_refl. Qed.

Lemma drop_n_app p x : drop_n (String.length p) (p ++ x) = x.
Proof. induction p as [|c p IH]; simpl; [reflexivity|exact IH]. Qed.

Lemma take_digits_app ts c r :
  str_forall Url.is_digit ts = true -> Url.is_digit c = false ->
  take_digits (ts ++ String c r) = (ts, String c r).
Proof.
  induction ts as [|d ts IH]; simpl; intros H Hc.
  - now rewrite Hc.
  - apply andb_prop in H as [Hd H]. rewrite Hd, IH; auto.
Qed.

Lemma take_line_all o : str_forall not_newline o = true -> take_line o = o.
Proof.
  induction o as [|c o IH]; simpl; intros H; [reflexivity|].
  apply andb_prop in H as [Hc H]. unfold not_newline in Hc.
  destruct (Ascii.eqb c (ascii_of_nat 10)); [discriminate|]. now rewrite IH.
Qed.

(** X12: The calendar-URL parser of [_investigate_wayback_calendar] gives back the timestamp and original URL of a calendar URL built from a 4 to 14 digit timestamp and a non-empty original URL without a newline. *)
Theorem parse_calendar_roundtrip ts orig :
  str_forall Url.is_digit ts = true -> (4 <= String.length ts <= 14)%nat ->
  orig <> EmptyString -> str_forall not_newline orig = true ->
  parse_calendar ("https://web.archive.org/web/" ++ ts ++ "*/" ++ orig) = Some (ts, orig).
Proof.
  intros Hd Hl Hne Hnl. unfold parse_calendar.
  rewrite startswith_app, drop_n_app.
  change ("*/" ++ orig)%string with (String "*" ("/" ++ orig)).
  rewrite take_digits_app by (assumption || reflexivity).
  replace ((4 <=? String.length ts) && (String.length ts <=? 14))%nat with true
    by (symmetry; apply andb_true_iff; split; apply Nat.leb_le; lia).
  simpl. rewrite take_line_all by exact Hnl. destruct orig; [contradiction|reflexivity].
Qed.

Lemma startswith_split s p : Py.startswith s p = true -> s = (p ++ drop_n (String.length p) s)%string.
Proof.
  revert s. induction p as [|c p IH]; intros s H; [reflexivity|].
  destruct s as [|d s]; simpl in H; [discriminate|].
  apply andb_prop in H as [Hc H]. apply Ascii.eqb_eq in Hc. subst d. simpl. f_equal. now apply IH.
Qed.

Lemma take_digits_split s : 
  s = (fst (take_digits s) ++ snd (take_digits s))%string /\
  str_forall Url.is_digit (fst (take_digits s)) = true.
Proof.
  induction s as [|c s IH]; simpl; [auto|].
  destruct (Url.is_digit c) eqn:Ec; [|auto].
  destruct (take_digits s) as [d r]. simpl in *. destruct IH as [-> H]. rewrite Ec, H. auto.
Qed.

Lemma take_line_split r :
  exists rest, r = (take_line r ++ rest)%string /\ str_forall not_newline (take_line r) = true.
Proof.
  induction r as [|c r IH]; simpl; [exists EmptyString; auto|].
  destruct (Ascii.eqb c (ascii_of_nat 10)) eqn:E.
  - exists (String c r). auto.
  - destruct IH as [rest [H1 H2]]. exists rest. simpl. rewrite H2, andb_true_r.
    unfold not_newline. rewrite E. split; [f_equal; exact H1|reflexivity].
Qed.

(** X13: When the calendar-URL parser succeeds, the URL starts with the Wayback prefix, the timestamp (4 to 14 digits), [*/] and the original URL, which is non-empty and has no newline. *)
Theorem parse_calendar_sound url ts orig :
  parse_calendar url = Some (ts, orig) ->
  (exists rest, url = ("https://web.archive.org/web/" ++ ts ++ "*/" ++ orig ++ rest)%string) /\
  str_forall Url.is_digit ts = true /\ (4 <= String.length ts <= 14)%nat /\
  orig <> EmptyString /\ str_forall not_newline orig = true.
Proof.
  unfold parse_calendar.
  destruct (Py.startswith url "https://web.archive.org/web/") eqn:Es; [|discriminate].
  apply startswith_split in Es.
  set (pre := "https://web.archive.org/web/") in *.
  destruct (take_digits_split (drop_n (String.length pre) url)) as [Ed Hd].
  destruct (take_digits (drop_n (String.length pre) url)) as [d r] eqn:Et. cbn [fst snd] in Ed, Hd.
  destruct ((4 <=? String.length d) && (String.length d <=? 14))%nat eqn:Hl; [|discriminate].
  apply andb_prop in Hl as [Hl1 Hl2]. apply Nat.leb_le in Hl1, Hl2.
  intros X.
  destruct r as [|c1 r]; [discriminate X|].
  destruct r as [|c2 r]; [destruct c1 as [[] [] [] [] [] [] [] []]; discriminate X|].
  destruct (Ascii.eqb_spec c1 "*"); [subst c1|destruct c1 as [[] [] [] [] [] [] [] []]; try discriminate X; congruence].
  destruct (Ascii.eqb_spec c2 "/"); [subst c2|destruct c2 as [[] [] [] [] [] [] [] []]; try discriminate X; congruence].
  destruct (take_line_split r) as [rest [Er Hn]].
  destruct (take_line r) as [|c o] eqn:Eo; [discriminate X|].
  inversion X; subst ts orig. clear X.
  split; [|repeat split; try assumption; try lia; discriminate].
  exists rest. rewrite Es, Ed, Er. reflexivity.
Qed.

Lemma parse_calendar_roundtrip_witness :
  parse_calendar ("https://web.archive.org/web/" ++ "2014" ++ "*/" ++ "vitalik.ca") = Some ("2014", "vitalik.ca").
Proof.
  apply parse_calendar_roundtrip; [reflexivity|simpl; lia|discriminate|reflexivity].
Defined.

Lemma parse_calendar_sound_witness :
  (exists rest, "https://web.archive.org/web/2014*/vitalik.ca" =
     ("https://web.archive.org/web/" ++ "2014" ++ "*/" ++ "vitalik.ca" ++ rest)%string) /\
  str_forall Url.is_digit "2014" = true /\ (4 <= String.length "2014" <= 14)%nat /\
  "vitalik.ca" <> EmptyString /\ str_forall not_newline "vitalik.ca" = true.
Proof.
  apply (parse_calendar_sound "https://web.archive.org/web/2014*/vitalik.ca"). vm_compute. reflexivity.
Defined.

End CalendarExtras.

(* ------------------------------------------------------------------ *)
Module LoopExtras.
Import Controller.

Section L.
Variables (max_it max_idle : Z) (time_up has_target found : Z -> bool).

Lemma should_continue_not_fuel it idle r :
  should_continue max_it max_idle time_up it idle = Some r -> r <> OutOfFuel.
Proof.
  unfold should_continue.
  destruct (max_it <=? it); [intros X; inversion X; discriminate|].
  destruct (max_idle <=? idle); [intros X; inversion X; discriminate|].
  destruct (time_up it); [intros X; inversion X; discriminate|discriminate].
Qed.

Lemma loop_bounds fuel it idle r n :
  it <= max_it ->
  investigation_loop max_it max_idle time_up has_target found fuel it idle = (r, n) ->
  it <= n <= max_it /\ (max_it - it < Z.of_nat fuel -> r <> OutOfFuel) /\
  (r = MaxIterations -> n = max_it).
Proof.
  revert it idle. induction fuel as [|f IH]; intros it idle Hit E; simpl in E.
  - inversion E; subst. split; [lia|]. split; [lia|discriminate].
  - destruct (should_continue max_it max_idle time_up it idle) as [r'|] eqn:Es.
    + inversion E; subst r' n. split; [lia|]. split; [intros _; exact (should_continue_not_fuel _ _ _ Es)|].
      intros ->. unfold should_continue in Es.
      destruct (max_it <=? it) eqn:Em; [apply Z.leb_le in Em; lia|].
      destruct (max_idle <=? idle); [discriminate|]. destruct (time_up it); discriminate.
    + assert (Hlt : it < max_it).
      { unfold should_continue in Es. destruct (max_it <=? it) eqn:Em; [discriminate|].
        apply Z.leb_gt in Em. exact Em. }
      destruct (negb (has_target (it + 1))).
      * destruct (max_idle <=? idle + 1).
        -- inversion E; subst. split; [lia|]. split; [discriminate|discriminate].
        -- destruct (IH (it + 1) (idle + 1) ltac:(lia) E) as [H1 [H2 H3]].
           split; [lia|]. split; [intros Hf; apply H2; lia|exact H3].
      * destruct (found (it + 1));
          [destruct (IH (it + 1) 0 ltac:(lia) E) as [H1 [H2 H3]]
          |destruct (IH (it + 1) (idle + 1) ltac:(lia) E) as [H1 [H2 H3]]];
          (split; [lia|]; split; [intros Hf; apply H2; lia|exact H3]).
Qed.

(** X14: [start_investigation] stops with its iteration counter between 0 and [max_iterations]; it never runs out of loop budget when the budget exceeds [max_iterations], and when it stops on the iteration limit the counter equals that limit. *)
Theorem loop_iteration_bound fuel r n :
  0 <= max_it ->
  start_investigation max_it max_idle time_up has_target found fuel = (r, n) ->
  0 <= n <= max_it /\ (max_it < Z.of_nat fuel -> r <> OutOfFuel) /\
  (r = MaxIterations -> n = max_it).
Proof.
  intros H E. destruct (loop_bounds fuel 0 0 r n H E) as [H1 [H2 H3]].
  split; [lia|]. split; [intros Hf; apply H2; lia|exact H3].
Qed.

Lemma loop_idle fuel it idle r n :
  0 <= idle <= it ->
  (forall j, it - idle < j <= it -> (has_target j = false \/ found j = false)) ->
  investigation_loop max_it max_idle time_up has_target found fuel it idle = (r, n) ->
  idle_guard r ->
  forall j, n - max_idle < j <= n -> (has_target j = false \/ found j = false).
Proof.
  revert it idle. induction fuel as [|f IH]; intros it idle Hb Hu E Hg; simpl in E.
  - inversion E; subst. destruct Hg; discriminate.
  - destruct (should_continue max_it max_idle time_up it idle) as [r'|] eqn:Es.
    + inversion E; subst r' n. unfold should_continue in Es.
      destruct (max_it <=? it); [inversion Es; subst; destruct Hg; discriminate|].
      destruct (max_idle <=? idle) eqn:Ei.
      * apply Z.leb_le in Ei. intros j Hj. apply Hu. lia.
      * destruct (time_up it); inversion Es; subst; destruct Hg; discriminate.
    + destruct (has_target (it + 1)) eqn:Ht; cbn [negb] in E.
      * destruct (found (it + 1)) eqn:Hf.
        -- eapply IH; [| |exact E|exact Hg]; [lia|]. intros j Hj. lia.
        -- eapply IH; [| |exact E|exact Hg]; [lia|].
           intros j Hj. destruct (Z.eq_dec j (it + 1)) as [->|Hne]; [right; exact Hf|apply Hu; lia].
      * destruct (max_idle <=? idle + 1) eqn:Ei.
        -- inversion E; subst. apply Z.leb_le in Ei. intros j Hj.
           destruct (Z.eq_dec j (it + 1)) as [->|Hne]; [left; exact Ht|apply Hu; lia].
        -- eapply IH; [| |exact E|exact Hg]; [lia|].
           intros j Hj. destruct (Z.eq_dec j (it + 1)) as [->|Hne]; [left; exact Ht|apply Hu; lia].
Qed.

(** X15: When the investigation stops on the idle count (the guard or the in-loop break), each of the last [max_idle_iterations] iterations either found no target or found nothing. *)
Theorem idle_stop_after_idle_run fuel r n :
  start_investigation max_it max_idle time_up has_target found fuel = (r, n) ->
  idle_guard r ->
  forall j, n - max_idle < j <= n -> has_target j = false \/ found j = false.
Proof.
  intros E Hg. apply (loop_idle fuel 0 0 r n); [lia|intros j Hj; lia|exact E|exact Hg].
Qed.

End L.

Lemma loop_iteration_bound_witness :
  (0 <= snd (start_investigation 3 2 (fun _ => false) (fun _ => true) (fun _ => true) 10) <= 3 /\
   (3 < Z.of_nat 10 ->
    fst (start_investigation 3 2 (fun _ => false) (fun _ => true) (fun _ => true) 10) <> OutOfFuel)).
Proof.
  destruct (loop_iteration_bound 3 2 (fun _ => false) (fun _ => true) (fun _ => true) 10
              MaxIterations 3 ltac:(lia) ltac:(reflexivity)) as [H1 [H2 _]].
  split; [exact H1|exact H2].
Defined.

Lemma idle_stop_after_idle_run_witness :
  (fun _ : Z => false) 2 = false \/ (fun _ : Z => true) 2 = false.
Proof.
  apply (idle_stop_after_idle_run 10 2 (fun _ => false) (fun _ => false) (fun _ => true) 5
           IdleBreak 2 ltac:(reflexivity) (or_intror eq_refl) 2).
  lia.
Defined.

End LoopExtras.

(* ------------------------------------------------------------------ *)
Module JsonExtras.
Import Json Props StrFacts.

(** X16: For a response with no [```json] marker, [_extract_json] always returns valid JSON (a validated block, brace span, or ['{}']). *)
Theorem extract_json_valid_without_json_fence text :
  Py.contains text "```json" = false -> json_valid (extract_json text) = true.
Proof.
  intros H. unfold extract_json. rewrite H. cbn [andb].
  repeat match goal with
         | |- context [if json_valid ?x then _ else _] =>
             let V := fresh "V" in destruct (json_valid x) eqn:V
         | |- context [if ?b then _ else _] => destruct b
         | |- context [match find_char ?c ?t with Some _ => _ | None => _ end] => destruct (find_char c t)
         | |- context [match rfind_char ?c ?t with Some _ => _ | None => _ end] => destruct (rfind_char c t)
         end; first [assumption|reflexivity].
Qed.

Lemma rev_str_app s t : Py.rev_str (s ++ t) = (Py.rev_str t ++ Py.rev_str s)%string.
Proof.
  induction s as [|c s IH]; simpl; [now rewrite ExtraFacts.str_app_nil'|].
  rewrite IH. apply ExtraFacts.str_app_assoc.
Qed.

Lemma rev_str_involutive s : Py.rev_str (Py.rev_str s) = s.
Proof. induction s as [|c s IH]; simpl; [reflexivity|]. rewrite rev_str_app, IH. reflexivity. Qed.

Lemma no_backtick_no_fence text sep :
  str_forall no_backtick text = true -> str_forall no_backtick sep = false ->
  Py.contains text sep = false.
Proof.
  intros H1 H2. destruct (Py.contains text sep) eqn:E; [|reflexivity].
  rewrite (contains_forall _ _ _ H1 E) in H2. discriminate.
Qed.

Lemma startswith_self s : Py.startswith s s = true.
Proof. induction s as [|c s IH]; simpl; [reflexivity|now rewrite Ascii.eqb_refl]. Qed.

Lemma contains_suffix s t : Py.contains (s ++ t) t = true.
Proof.
  induction s as [|c s IH]; simpl.
  - destruct t; simpl; [reflexivity|]. now rewrite Ascii.eqb_refl, startswith_self.
  - rewrite IH. apply orb_true_r.
Qed.

Lemma rfind_char_last c s :
  rfind_char c (s ++ String c EmptyString) = Some (String.length s).
Proof.
  induction s as [|d s IH]; simpl; [now rewrite Ascii.eqb_refl|now rewrite IH].
Qed.

Lemma substring_all s : substring 0 (String.length s) s = s.
Proof. induction s as [|c s IH]; simpl; [reflexivity|now rewrite IH]. Qed.

Lemma strip_braces mid : Py.strip ("{" ++ mid ++ "}") = ("{" ++ mid ++ "}")%string.
Proof.
  unfold Py.strip.
  assert (L : forall x, Py.lstrip (String "{" x) = String "{" x) by reflexivity.
  assert (L' : forall x, Py.lstrip (String "}" x) = String "}" x) by reflexivity.
  change ("{" ++ mid ++ "}")%string with (String "{" (mid ++ "}")). rewrite L.
  change (String "{" (mid ++ "}")) with ((String "{" mid) ++ String "}" EmptyString)%string.
  rewrite rev_str_app. change (Py.rev_str (String "}" EmptyString)) with (String "}" EmptyString).
  change ((String "}" EmptyString) ++ Py.rev_str (String "{" mid))%string
    with (String "}" (Py.rev_str (String "{" mid))).
  rewrite L'.
  change (String "}" (Py.rev_str (String "{" mid)))
    with (Py.rev_str (String "}" EmptyString) ++ Py.rev_str (String "{" mid))%string.
  rewrite <- rev_str_app. apply rev_str_involutive.
Qed.

(** X17: A response that is exactly a valid JSON object without
    backticks, and within the resource limits of [json.loads] (at most 200
    opening brackets, no run of more than 4300 digits), comes back
    unchanged from [_extract_json]. *)
Theorem extract_json_object_unchanged mid :
  str_forall no_backtick mid = true ->
  within_limits ("{" ++ mid ++ "}") = true ->
  json_valid ("{" ++ mid ++ "}") = true ->
  extract_json ("{" ++ mid ++ "}") = ("{" ++ mid ++ "}")%string.
Proof.
  intros Hb _ Hv.
  assert (Hb' : str_forall no_backtick ("{" ++ mid ++ "}") = true).
  { simpl. rewrite str_forall_app, Hb. reflexivity. }
  assert (T : ("{" ++ mid ++ "}")%string = (("{" ++ mid) ++ "}")%string)
    by (symmetry; apply ExtraFacts.str_app_assoc).
  assert (F1 : Py.contains ("{" ++ mid ++ "}") "```json" = false)
    by (apply no_backtick_no_fence; [exact Hb'|reflexivity]).
  assert (F2 : Py.contains ("{" ++ mid ++ "}") "```" = false)
    by (apply no_backtick_no_fence; [exact Hb'|reflexivity]).
  assert (C1 : Py.contains ("{" ++ mid ++ "}") "{" = true).
  { change ("{" ++ mid ++ "}")%string with (String "{" (mid ++ "}")).
    destruct (mid ++ "}")%string; reflexivity. }
  assert (C2 : Py.contains ("{" ++ mid ++ "}") "}" = true) by (rewrite T; apply contains_suffix).
  assert (R : rfind_char "}" ("{" ++ mid ++ "}") = Some (String.length ("{" ++ mid)))
    by (rewrite T; apply rfind_char_last).
  assert (S : substring 0 (S (String.length ("{" ++ mid)) - 0) ("{" ++ mid ++ "}")
              = ("{" ++ mid ++ "}")%string).
  { replace (S (String.length ("{" ++ mid)) - 0)%nat with (String.length ("{" ++ mid ++ "}")).
    - apply substring_all.
    - rewrite T, ExtraFacts.str_length_app. simpl. lia. }
  unfold extract_json. rewrite F1, F2. cbn [andb]. rewrite C1, C2. cbn [andb].
  replace (find_char "{" ("{" ++ mid ++ "}")) with (Some 0%nat) by reflexivity.
  rewrite R, S, strip_braces, Hv. reflexivity.
Qed.

Lemma extract_json_valid_without_json_fence_witness :
  json_valid (extract_json Scenarios.fenced_plain) = true.
Proof. apply extract_json_valid_without_json_fence. vm_compute. reflexivity. Defined.

Lemma extract_json_object_unchanged_witness :
  extract_json ("{" ++ Scenarios.json_mid ++ "}") = ("{" ++ Scenarios.json_mid ++ "}")%string.
Proof. apply extract_json_object_unchanged; vm_compute; reflexivity. Defined.

End JsonExtras.

(* ------------------------------------------------------------------ *)
Module StoreExtras.
Import Extractor Store StrFacts.

Lemma safe_artifact_content a :
  (Py.mem (a_type a) SENSITIVE_TYPES = true ->
   dict_get "content" (safe_artifact a) = None /\
   dict_get "content_hash" (safe_artifact a) = Some (JStr (a_hash a))) /\
  (Py.mem (a_type a) SENSITIVE_TYPES = false ->
   dict_get "content" (safe_artifact a) = Some (JStr (a_content a))).
Proof.
  unfold safe_artifact. split; intros H; rewrite H; split || reflexivity; reflexivity.
Qed.

Lemma store_loop_files today arts p d :
  In (p, d) (fst (store_loop today arts)) ->
  exists a, In a arts /\ 0 < a_score a /\ p = artifact_path today a /\ d = safe_artifact a.
Proof.
  induction arts as [|a rest IH]; simpl; [contradiction|].
  destruct (store_loop today rest) as [files found] eqn:E. simpl in IH.
  destruct (0 <? a_score a) eqn:Es; simpl.
  - intros [X|X].
    + inversion X; subst. exists a. apply Z.ltb_lt in Es. auto.
    + destruct (IH X) as [a' [H1 H2]]. exists a'. auto.
  - intros X. destruct (IH X) as [a' [H1 H2]]. exists a'. auto.
Qed.

(** X18: Every file [store_artifacts] writes belongs to an artifact with a positive score and is named by its hash; for a private key, seed phrase or API key the stored dictionary has no [content] field and a [content_hash] equal to the hash, for other types it keeps the content. *)
Theorem store_artifacts_hides_sensitive_content today arts p d :
  In (p, d) (fst (fst (store_artifacts today arts))) ->
  exists a, In a arts /\ 0 < a_score a /\ p = artifact_path today a /\
    (if Py.mem (a_type a) SENSITIVE_TYPES
     then dict_get "content" d = None /\ dict_get "content_hash" d = Some (JStr (a_hash a))
     else dict_get "content" d = Some (JStr (a_content a))).
Proof.
  unfold store_artifacts. destruct (store_loop today arts) as [files found] eqn:E. cbn [fst].
  intros H. assert (H' : In (p, d) (fst (store_loop today arts))) by (rewrite E; exact H).
  destruct (store_loop_files _ _ _ _ H') as [a [H1 [H2 [H3 ->]]]].
  exists a. repeat split; try assumption.
  destruct (safe_artifact_content a) as [S1 S2].
  destruct (Py.mem (a_type a) SENSITIVE_TYPES); [apply S1|apply S2]; reflexivity.
Qed.

Lemma str_app_cancel_r s s' t : (s ++ t)%string = (s' ++ t)%string -> s = s'.
Proof.
  revert s'. induction s as [|c s IH]; intros s' E; destruct s' as [|c' s']; simpl in E.
  - reflexivity.
  - exfalso. apply (f_equal String.length) in E. simpl in E.
    rewrite ExtraFacts.str_length_app in E. lia.
  - exfalso. apply (f_equal String.length) in E. simpl in E.
    rewrite ExtraFacts.str_length_app in E. lia.
  - injection E as -> E. f_equal. exact (IH _ E).
Qed.

Lemma str_app_cancel_l s t t' : (s ++ t)%string = (s ++ t')%string -> t = t'.
Proof. induction s as [|c s IH]; simpl; [auto|]. intros E. injection E. exact IH. Qed.

Lemma artifact_path_inj today a b :
  artifact_path today a = artifact_path today b -> a_hash a = a_hash b.
Proof.
  unfold artifact_path. intros E. apply str_app_cancel_l in E.
  change ("/" ++ a_hash a ++ ".json")%string with (String "/" (a_hash a ++ ".json")) in E.
  change ("/" ++ a_hash b ++ ".json")%string with (String "/" (a_hash b ++ ".json")) in E.
  injection E as E. exact (str_app_cancel_r _ _ _ E).
Qed.

Lemma store_loop_map today arts :
  map fst (fst (store_loop today arts)) = map (artifact_path today) (filter (fun a => 0 <? a_score a) arts) /\
  fst (store_loop today arts) = map (fun a => (artifact_path today a, safe_artifact a))
                                    (filter (fun a => 0 <? a_score a) arts).
Proof.
  induction arts as [|a rest IH]; simpl; [auto|].
  destruct (store_loop today rest) as [files found]. simpl in *. destruct IH as [IH1 IH2].
  destruct (0 <? a_score a); simpl; [rewrite IH1, IH2|]; auto.
Qed.

Lemma written_some files p d : written files p = Some d -> In p (map fst files).
Proof.
  revert d. induction files as [|[p' d'] files IH]; intros d; simpl; [discriminate|].
  destruct (written files p) eqn:E; [intros _; right; now apply (IH d0)|].
  destruct (String.eqb_spec p p'); [intros _; now left|discriminate].
Qed.

Lemma written_in files p d : NoDup (map fst files) -> In (p, d) files -> written files p = Some d.
Proof.
  induction files as [|[p' d'] files IH]; simpl; [contradiction|].
  intros N [X|X]; inversion N as [|? ? N1 N2]; subst.
  - inversion X; subst. destruct (written files p) eqn:E.
    + exfalso. apply N1. exact (written_some _ _ _ E).
    + now rewrite String.eqb_refl.
  - now rewrite (IH N2 X).
Qed.

Lemma nodup_paths today arts :
  NoDup (map a_hash arts) -> NoDup (map (artifact_path today) (filter (fun a => 0 <? a_score a) arts)).
Proof.
  induction arts as [|a rest IH]; simpl; [constructor|].
  intros N. inversion N as [|? ? N1 N2]; subst.
  destruct (0 <? a_score a); simpl; [|auto].
  constructor; [|auto].
  intros Hin. apply in_map_iff in Hin as [b [Eb Hb]]. apply filter_In in Hb as [Hb _].
  apply artifact_path_inj in Eb. apply N1. rewrite <- Eb. now apply in_map.
Qed.

Section StoreAfterExtract.
Variables (sha : string -> string) (Soup : Type) (parse : string -> option Soup)
  (get_text : Soup -> string) (loc : Soup -> string -> string)
  (sol ks seed api : Soup -> list candidate) (html : option string) (url : string)
  (date : option string) (today : string).

Local Abbreviation arts :=
  (Entry.extract_artifacts_from_html sha Soup parse get_text loc sol ks seed api html url date).

(** X19: Storing the artifacts of one [extract_artifacts_from_html] call writes one file per positive-score artifact, no file overwrites another, each artifact's file ends up holding its safe dictionary, and the count returned is the number of files written. *)
Theorem extract_then_store_one_file_each :
  (forall a, In a arts -> 0 < a_score a ->
     written (fst (fst (store_artifacts today arts))) (artifact_path today a) = Some (safe_artifact a)) /\
  snd (store_artifacts today arts) = List.length (fst (fst (store_artifacts today arts))).
Proof.
  destruct (ExtraFacts.extract_fresh sha Soup parse get_text loc sol ks seed api html url date)
    as [hs [_ [N _]]].
  destruct (store_loop_map today arts) as [M1 M2].
  unfold store_artifacts. destruct (store_loop today arts) as [files found] eqn:E.
  cbn [fst snd] in *. split.
  - intros a Ha Hs. apply written_in.
    + rewrite M1. apply nodup_paths, N.
    + rewrite M2. apply in_map_iff. exists a. split; [reflexivity|].
      apply filter_In. split; [exact Ha|]. now apply Z.ltb_lt.
  - rewrite M2, length_map. reflexivity.
Qed.

End StoreAfterExtract.

Lemma store_artifacts_hides_sensitive_content_witness :
  exists a, In a [Scenarios.key_artifact] /\ 0 < a_score a /\
    artifact_path "2024-05-01" Scenarios.key_artifact = artifact_path "2024-05-01" a /\
    (if Py.mem (a_type a) SENSITIVE_TYPES
     then dict_get "content" (safe_artifact Scenarios.key_artifact) = None /\
          dict_get "content_hash" (safe_artifact Scenarios.key_artifact) = Some (JStr (a_hash a))
     else dict_get "content" (safe_artifact Scenarios.key_artifact) = Some (JStr (a_content a))).
Proof.
  apply (store_artifacts_hides_sensitive_content "2024-05-01" [Scenarios.key_artifact]).
  vm_compute. left. reflexivity.
Defined.

End StoreExtras.

(* ------------------------------------------------------------------ *)
Module SampleExtras.
Import Snapshots SnapFacts.

Lemma nth_picks_nodup {A} (l : list A) d picks :
  NoDup l -> NoDup picks -> Forall (fun i => (i < List.length l)%nat) picks ->
  NoDup (map (fun i => nth i l d) picks).
Proof.
  intros Nl. induction picks as [|i ps IH]; intros Np Hf; simpl; [constructor|].
  inversion Np as [|? ? Ni Nps]; subst. inversion Hf as [|? ? Hi Hps]; subst.
  constructor; [|auto].
  intros Hin. apply in_map_iff in Hin as [j [Ej Hj]].
  rewrite Forall_forall in Hps. specialize (Hps j Hj).
  apply (proj1 (NoDup_nth l d) Nl j i Hps Hi) in Ej. subst j. exact (Ni Hj).
Qed.

Lemma nth_picks_in {A} (l : list A) d picks :
  Forall (fun i => (i < List.length l)%nat) picks ->
  forall x, In x (map (fun i => nth i l d) picks) -> In x l.
Proof.
  intros Hf x Hx. apply in_map_iff in Hx as [i [<- Hi]].
  rewrite Forall_forall in Hf. apply nth_In, Hf, Hi.
Qed.

(** X20: For a snapshot list without repeats and a sample of distinct in-range indices, the snapshots [_investigate_wayback] selects are distinct and all come from the list. *)
Theorem select_snapshots_no_repeats snapshots picks :
  ((5 < List.length snapshots)%nat ->
   sample_ok (List.length snapshots - 2) (Nat.min 3 (List.length snapshots - 2)) picks) ->
  NoDup snapshots ->
  NoDup (select_snapshots snapshots picks) /\
  (forall s, In s (select_snapshots snapshots picks) -> In s snapshots).
Proof.
  intros Hsm Ns. unfold select_snapshots.
  destruct (5 <? List.length snapshots)%nat eqn:E5; [|auto].
  apply Nat.ltb_lt in E5. destruct (Hsm E5) as [Np [_ Hf]].
  destruct (sort_asc_spec snapshots) as [P _].
  set (sorted := sort_asc snapshots) in *.
  assert (Ls : List.length sorted = List.length snapshots) by (symmetry; apply Permutation_length, P).
  replace (2 <? List.length sorted)%nat with true by (symmetry; apply Nat.ltb_lt; lia).
  assert (Sp : sorted = (hd no_snapshot sorted :: removelast (tl sorted) ++ [last sorted no_snapshot])%list)
    by (apply split_ends; lia).
  assert (Nsorted : NoDup sorted) by (eapply Permutation_NoDup; [exact P|exact Ns]).
  assert (Insorted : forall s, In s sorted -> In s snapshots)
    by (intros s Hs; eapply Permutation_in; [apply Permutation_sym, P|exact Hs]).
  set (first := hd no_snapshot sorted) in *.
  set (lst := last sorted no_snapshot) in *.
  set (mid := removelast (tl sorted)) in *.
  assert (Lm : List.length mid = (List.length snapshots - 2)%nat).
  { rewrite <- Ls, Sp. simpl. rewrite length_app. simpl. lia. }
  rewrite Sp in Nsorted, Insorted.
  inversion Nsorted as [|? ? Nf Nrest]; subst.
  assert (Nmid : NoDup mid) by (apply NoDup_app_remove_r in Nrest; exact Nrest).
  assert (Nl : ~ In lst mid).
  { apply (Permutation_NoDup (Permutation_sym (Permutation_cons_append mid lst))) in Nrest.
    inversion Nrest; assumption. }
  assert (Hf' : Forall (fun i => (i < List.length mid)%nat) picks) by (rewrite Lm; exact Hf).
  pose proof (nth_picks_in mid no_snapshot picks Hf') as Inm.
  change ([first; lst] ++ map (fun i => nth i mid no_snapshot) picks)%list
    with (first :: lst :: map (fun i => nth i mid no_snapshot) picks).
  split.
  - constructor; [|constructor].
    + intros [E|Hin].
      * apply Nf. apply in_or_app. right. left. exact E.
      * apply Nf. apply in_or_app. left. exact (Inm _ Hin).
    + intros Hin. exact (Nl (Inm _ Hin)).
    + apply nth_picks_nodup; assumption.
  - intros s [<-|[<-|Hin]]; apply Insorted.
    + now left.
    + right. apply in_or_app. right. now left.
    + right. apply in_or_app. left. exact (Inm _ Hin).
Qed.

Lemma select_snapshots_no_repeats_witness :
  NoDup (select_snapshots Scenarios.seven_snapshots [0; 2; 4]%nat) /\
  (forall s, In s (select_snapshots Scenarios.seven_snapshots [0; 2; 4]%nat) ->
             In s Scenarios.seven_snapshots).
Proof.
  apply select_snapshots_no_repeats.
  - intros _. vm_compute. split; [repeat constructor; simpl; intuition discriminate|].
    split; [reflexivity|repeat constructor].
  - vm_compute. repeat constructor; simpl; intuition discriminate.
Defined.

End SampleExtras.

(* ------------------------------------------------------------------ *)
Module LeadsExtras.
Import Frontier Dispatch Leads Props.

Section Fresh.
Variables (is_valid_url should_check_wayback : string -> bool) (inv : list string).

Lemma flat_map_fresh (f : suggestion -> list target) l :
  (forall s t, In t (f s) -> fresh_target is_valid_url inv t) -> forall t, In t (flat_map f l) -> fresh_target is_valid_url inv t.
Proof. intros H t Ht. apply in_flat_map in Ht as [s [_ Ht]]. exact (H s t Ht). Qed.

Lemma convert_fresh pw ps pb pg sg t :
  In t (convert is_valid_url should_check_wayback inv pw ps pb pg sg) -> fresh_target is_valid_url inv t.
Proof.
  unfold convert. rewrite !in_app_iff.
  intros [H|[H|[H|H]]]; revert t H; apply flat_map_fresh; intros [[u|] [q|]] t;
    unfold website_target, search_target, wayback_target, github_target; cbn [s_url s_query];
    try contradiction;
    lazymatch goal with
    | |- In t (if ?c then _ else _) -> _ =>
        destruct c eqn:E; [|contradiction]; intros [<-|[]];
        repeat rewrite andb_true_iff in E; rewrite ?negb_true_iff in E
    | _ => idtac
    end;
    destruct E as [[E1 E2] E3] || destruct E as [E1 E3];
    unfold fresh_target, visited_key, locator, is_type; simpl;
    (split; [eexists; split; [reflexivity|assumption]|]);
    (split; [assumption|eauto]).
Qed.

Lemma convert_kept pw ps pb pg sg :
  filter (keep inv) (convert is_valid_url should_check_wayback inv pw ps pb pg sg)
  = convert is_valid_url should_check_wayback inv pw ps pb pg sg.
Proof.
  apply forallb_filter_id, forallb_forall. intros t Ht.
  destruct (convert_fresh _ _ _ _ _ _ Ht) as [[k [Ek Hk]] _].
  rewrite DispatchFacts.keep_visited_key, Ek, Hk. reflexivity.
Qed.

End Fresh.

(** X21: Every target the advisor-suggestion conversion produces (in [_consult_llm_for_next_steps] and [_generate_new_leads]) has a VisitedKey not yet in the investigated set and a non-empty locator, and a website, Wayback or GitHub target has a URL that passed [_is_valid_url]. *)
Theorem suggested_targets_fresh is_valid_url should_check_wayback inv pw ps pb pg sg t :
  In t (convert is_valid_url should_check_wayback inv pw ps pb pg sg) ->
  (exists k, visited_key t = Some k /\ Py.mem k inv = false) /\
  Py.truthy (locator t) = true /\
  (t_type t = Some "search" \/ exists u, t_url t = Some u /\ is_valid_url u = true).
Proof. apply convert_fresh. Qed.

(** X22: [_update_research_queue] drops none of the targets [_consult_llm_for_next_steps] returns when the investigated set has not changed in between, and [_generate_new_leads] adds all the targets it converts: the new queue is a permutation of the old queue followed by them. *)
Theorem suggested_targets_all_queued is_valid_url should_check_wayback inv ds sg q :
  Permutation (q ++ consult_llm_for_next_steps is_valid_url should_check_wayback inv ds sg)%list
    (update_research_queue inv q (consult_llm_for_next_steps is_valid_url should_check_wayback inv ds sg)) /\
  forall s, Permutation (q ++ convert is_valid_url should_check_wayback inv 7 6 5 6 s)%list
              (generate_new_leads is_valid_url should_check_wayback inv q (Some s)).
Proof.
  assert (P : forall ts, filter (keep inv) ts = ts ->
                Permutation (q ++ ts)%list (update_research_queue inv q ts)).
  { intros ts Hts. unfold update_research_queue, sort_desc. rewrite Hts.
    exact (QueueExtras.fold_insert_desc_perm _ []). }
  split.
  - apply P. unfold consult_llm_for_next_steps.
    destruct ds; [reflexivity|]. destruct sg; [apply convert_kept|reflexivity].
  - intros s. apply P, convert_kept.
Qed.

Lemma suggested_targets_fresh_witness :
  (exists k, visited_key Scenarios.wallet_search = Some k /\ Py.mem k [] = false) /\
  Py.truthy (locator Scenarios.wallet_search) = true /\
  (t_type Scenarios.wallet_search = Some "search" \/
   exists u, t_url Scenarios.wallet_search = Some u /\ (fun _ : string => true) u = true).
Proof.
  apply (suggested_targets_fresh (fun _ => true) (fun _ => false) [] 9 8 7 8
           Scenarios.some_suggestions Scenarios.wallet_search).
  vm_compute. right. left. reflexivity.
Defined.

End LeadsExtras.

(* ------------------------------------------------------------------ *)
Module SolidityExtras.
Import Extractor Props StrFacts Solidity.

Lemma take_while_split p s : 
  s = (fst (take_while p s) ++ snd (take_while p s))%string /\ str_forall p (fst (take_while p s)) = true.
Proof.
  induction s as [|c s IH]; simpl; [auto|].
  destruct (p c) eqn:E; [|auto].
  destruct (take_while p s) as [w r]. simpl in *. destruct IH as [-> H]. rewrite E, H. auto.
Qed.

Lemma skip_ws_split s :
  exists ws, s = (ws ++ skip_ws s)%string /\ str_forall Py.isspace ws = true.
Proof.
  induction s as [|c s IH]; simpl; [exists EmptyString; auto|].
  destruct (Py.isspace c) eqn:E.
  - destruct IH as [ws [H1 H2]]. exists (String c ws). simpl. rewrite E, H2. split; [f_equal; exact H1|reflexivity].
  - exists EmptyString. auto.
Qed.

Lemma match_contract_shape s name rest :
  match_contract s = Some (name, rest) ->
  exists ws1 ws2, s = ("contract" ++ ws1 ++ name ++ ws2 ++ "{" ++ rest)%string /\
    ws1 <> EmptyString /\ str_forall Py.isspace ws1 = true /\
    name <> EmptyString /\ str_forall is_word name = true /\ str_forall Py.isspace ws2 = true.
Proof.
  unfold match_contract.
  destruct (Py.startswith s "contract") eqn:Es; [|discriminate].
  apply CalendarExtras.startswith_split in Es.
  destruct (take_while_split Py.isspace (Dispatch.drop_n 8 s)) as [E1 F1].
  destruct (take_while Py.isspace (Dispatch.drop_n 8 s)) as [ws1 r1]. cbn [fst snd] in E1, F1.
  destruct (take_while_split is_word r1) as [E2 F2].
  destruct (take_while is_word r1) as [nm r2]. cbn [fst snd] in E2, F2.
  destruct (skip_ws_split r2) as [ws2 [E3 F3]].
  destruct ws1 as [|a1 ws1']; [discriminate|].
  destruct nm as [|a2 nm']; [discriminate|].
  destruct (skip_ws r2) as [|c r3] eqn:Ek; [discriminate|].
  destruct (Ascii.eqb_spec c "{") as [->|Nc];
    [|destruct c as [[] [] [] [] [] [] [] []]; try discriminate; congruence].
  intros X. inversion X; subst name rest. clear X.
  exists (String a1 ws1'), ws2. repeat split; try assumption; try discriminate.
  change (String.length "contract") with 8%nat in Es.
  rewrite Es, E1, E2, E3. simpl. reflexivity.
Qed.

Lemma scan_braces_head d head t :
  str_forall no_brace head = true ->
  scan_braces d (head ++ t) = option_map (fun b => head ++ b)%string (scan_braces d t).
Proof.
  induction head as [|c head IH]; simpl; intros H.
  - destruct (scan_braces d t); reflexivity.
  - apply andb_prop in H as [Hc H]. unfold no_brace in Hc.
    destruct (Ascii.eqb c "{"); [discriminate|]. destruct (Ascii.eqb c "}"); [discriminate|].
    rewrite IH by exact H. destruct (scan_braces d t); reflexivity.
Qed.

Lemma space_no_brace c : Py.isspace c = true -> no_brace c = true.
Proof. destruct c as [[] [] [] [] [] [] [] []]; try reflexivity; discriminate. Qed.

Lemma word_no_brace c : is_word c = true -> no_brace c = true.
Proof. destruct c as [[] [] [] [] [] [] [] []]; try reflexivity; discriminate. Qed.

Lemma depth_open r : brace_depth (String "{" r) = 1 + brace_depth r.
Proof. reflexivity. Qed.

Lemma depth_close r : brace_depth (String "}" r) = -1 + brace_depth r.
Proof. reflexivity. Qed.

Lemma depth_other c r :
  c <> "{"%char -> c <> "}"%char -> brace_depth (String c r) = brace_depth r.
Proof.
  intros N1 N2. simpl.
  destruct (Ascii.eqb_spec c "{"); [contradiction|]. destruct (Ascii.eqb_spec c "}"); [contradiction|].
  reflexivity.
Qed.

Lemma scan_braces_balanced s d code :
  1 <= d -> scan_braces d s = Some code ->
  d + brace_depth code = 0 /\
  (forall p q, code = (p ++ q)%string -> q <> EmptyString -> 1 <= d + brace_depth p).
Proof.
  revert d code. induction s as [|c s IH]; intros d code Hd; simpl; [discriminate|].
  destruct (Ascii.eqb_spec c "{") as [->|N1].
  - destruct (scan_braces (d + 1) s) as [b|] eqn:E; [|discriminate]. intros X. injection X as <-.
    destruct (IH (d + 1) b ltac:(lia) E) as [B P]. rewrite depth_open. split; [lia|].
    intros [|c' p] q Eq Hq; [simpl; lia|].
    injection Eq as <- Eq. specialize (P p q Eq Hq). rewrite depth_open. lia.
  - destruct (Ascii.eqb_spec c "}") as [->|N2].
    + destruct (d - 1 =? 0) eqn:Z0.
      * apply Z.eqb_eq in Z0. intros X. injection X as <-. rewrite depth_close. split; [simpl; lia|].
        intros [|c' p] q Eq Hq; [simpl; lia|].
        injection Eq as <- Eq. destruct p, q; simpl in Eq; try discriminate; contradiction.
      * apply Z.eqb_neq in Z0.
        destruct (scan_braces (d - 1) s) as [b|] eqn:E; [|discriminate]. intros X. injection X as <-.
        destruct (IH (d - 1) b ltac:(lia) E) as [B P]. rewrite depth_close. split; [lia|].
        intros [|c' p] q Eq Hq; [simpl; lia|].
        injection Eq as <- Eq. specialize (P p q Eq Hq). rewrite depth_close. lia.
    + destruct (scan_braces d s) as [b|] eqn:E; [|discriminate]. intros X. injection X as <-.
      destruct (IH d b Hd E) as [B P]. rewrite depth_other by assumption. split; [lia|].
      intros [|c' p] q Eq Hq; [simpl; lia|].
      injection Eq as <- Eq. specialize (P p q Eq Hq). rewrite depth_other by assumption. lia.
Qed.

Lemma substring_0_length n s : (n <= String.length s)%nat -> String.length (substring 0 n s) = n.
Proof.
  revert s. induction n as [|n IH]; intros [|c s] H; simpl in *; try reflexivity; try lia.
  f_equal. apply IH. lia.
Qed.

Lemma truncate_summary_length s : (String.length (truncate_summary s) <= 100)%nat.
Proof.
  unfold truncate_summary. destruct (100 <? String.length s)%nat eqn:E.
  - apply Nat.ltb_lt in E. rewrite ExtraFacts.str_length_app, substring_0_length by lia. simpl. lia.
  - apply Nat.ltb_ge in E. exact E.
Qed.

Lemma finditer_start_match m fuel s g t :
  In (g, t) (finditer_start m fuel s) -> exists rest, m t = Some (g, rest).
Proof.
  revert s. induction fuel as [|f IH]; intros s; simpl; [contradiction|].
  destruct (m s) as [[g' rest]|] eqn:E.
  - intros [X|X]; [injection X as <- <-; eauto|eauto].
  - destruct s; [contradiction|apply IH].
Qed.

Lemma blocks_from_in i bs c :
  In c (blocks_from i bs) -> exists j b, In c (block_candidates j b).
Proof.
  revert i. induction bs as [|b bs IH]; intros i; simpl; [contradiction|].
  intros H. apply in_app_iff in H as [H|H]; [eauto|exact (IH _ H)].
Qed.

(** X23: Every candidate of [extract_solidity_contracts] is a [solidity_contract] whose content is [contract], whitespace, the contract name, optional whitespace and a brace block that the bracket matching closed: the braces after the opening one never go below it before the last character and end balanced.  Its summary is [Contract <name>: ] followed by at most 100 characters. *)
Theorem solidity_contract_shape blocks c :
  In c (solidity_candidates blocks) ->
  c_type c = "solidity_contract" /\
  exists name ws1 ws2 body,
    c_content c = ("contract" ++ ws1 ++ name ++ ws2 ++ "{" ++ body)%string /\
    ws1 <> EmptyString /\ str_forall Py.isspace ws1 = true /\
    name <> EmptyString /\ str_forall is_word name = true /\ str_forall Py.isspace ws2 = true /\
    brace_depth body = -1 /\
    (forall p q, body = (p ++ q)%string -> q <> EmptyString -> 0 <= brace_depth p) /\
    exists s, c_summary c = ("Contract " ++ name ++ ": " ++ s)%string /\ (String.length s <= 100)%nat.
Proof.
  unfold solidity_candidates. intros H. apply blocks_from_in in H as [j [b H]].
  unfold block_candidates in H. apply in_flat_map in H as [[name t] [Hm H]].
  destruct (finditer_start_match _ _ _ _ _ Hm) as [rest Em].
  destruct (match_contract_shape _ _ _ Em) as [ws1 [ws2 [Et [N1 [S1 [N2 [W2 S2]]]]]]].
  set (head := ("contract" ++ ws1 ++ name ++ ws2)%string).
  assert (Hh : str_forall no_brace head = true).
  { unfold head. rewrite !str_forall_app. simpl.
    rewrite (str_forall_impl _ _ _ space_no_brace S1), (str_forall_impl _ _ _ word_no_brace W2),
      (str_forall_impl _ _ _ space_no_brace S2). reflexivity. }
  assert (Et' : t = (head ++ String "{" rest)%string).
  { rewrite Et. unfold head. rewrite !ExtraFacts.str_app_assoc. reflexivity. }
  rewrite Et', scan_braces_head in H by exact Hh. simpl in H.
  destruct (scan_braces 1 rest) as [body|] eqn:Eb; [|contradiction].
  destruct H as [<-|[]]. cbn [c_type c_content c_summary]. split; [reflexivity|].
  destruct (scan_braces_balanced rest 1 body ltac:(lia) Eb) as [B P].
  exists name, ws1, ws2, body. repeat split; try assumption; try lia.
  - unfold head. rewrite !ExtraFacts.str_app_assoc. reflexivity.
  - intros p q Ep Hq. specialize (P p q Ep Hq). lia.
  - eexists. split; [reflexivity|apply truncate_summary_length].
Qed.

Lemma solidity_contract_shape_witness :
  c_type Scenarios.wallet_contract = "solidity_contract" /\
  exists name ws1 ws2 body,
    c_content Scenarios.wallet_contract = ("contract" ++ ws1 ++ name ++ ws2 ++ "{" ++ body)%string /\
    ws1 <> EmptyString /\ str_forall Py.isspace ws1 = true /\
    name <> EmptyString /\ str_forall is_word name = true /\ str_forall Py.isspace ws2 = true /\
    brace_depth body = -1 /\
    (forall p q, body = (p ++ q)%string -> q <> EmptyString -> 0 <= brace_depth p) /\
    exists s, c_summary Scenarios.wallet_contract = ("Contract " ++ name ++ ": " ++ s)%string /\
      (String.length s <= 100)%nat.
Proof.
  apply (solidity_contract_shape [Scenarios.contract_block]). vm_compute. left. reflexivity.
Defined.

End SolidityExtras.

(* ------------------------------------------------------------------ *)
Module SeedExtras.
Import Extractor Props StrFacts Seeds.

Lemma split_go_word w t :
  str_forall word_char w = true ->
  split_go (w ++ t) = ((w ++ fst (split_go t))%string, snd (split_go t)).
Proof.
  induction w as [|c w IH]; simpl; intros H; [destruct (split_go t); reflexivity|].
  apply andb_prop in H as [Hc H]. unfold word_char in Hc. rewrite IH by exact H.
  destruct (Py.isspace c); [discriminate|reflexivity].
Qed.

Lemma split_go_concat w ws :
  Forall (fun v => v <> EmptyString /\ str_forall word_char v = true) (w :: ws) ->
  split_go (String.concat " " (w :: ws)) = (w, ws).
Proof.
  revert w. induction ws as [|w2 ws IH]; intros w H; inversion H as [|? ? [Nw Hw] H']; subst.
  - simpl. rewrite <- (ExtraFacts.str_app_nil' w) at 1. rewrite split_go_word by exact Hw.
    simpl. rewrite ExtraFacts.str_app_nil'. reflexivity.
  - change (String.concat " " (w :: w2 :: ws)) with (w ++ String " " (String.concat " " (w2 :: ws)))%string.
    rewrite split_go_word by exact Hw. cbn [split_go fst snd].
    rewrite (IH w2 H'). cbn [fst snd].
    inversion H' as [|? ? [N2 _] _]; subst.
    change (Py.isspace " ") with true. cbn iota.
    rewrite ExtraFacts.str_app_nil'. destruct w2; [contradiction|reflexivity].
Qed.

Lemma split_concat ws :
  Forall (fun v => v <> EmptyString /\ str_forall word_char v = true) ws ->
  split (String.concat " " ws) = ws.
Proof.
  destruct ws as [|w ws]; [reflexivity|]. intros H. unfold split. rewrite split_go_concat by exact H.
  inversion H as [|? ? [Nw _] _]; subst. destruct w; [contradiction|reflexivity].
Qed.

Lemma bip39_words_ok :
  Forall (fun v => v <> EmptyString /\ str_forall word_char v = true) BIP39_WORDS.
Proof.
  assert (B : forallb (fun v => match v with EmptyString => false | _ => str_forall word_char v end)
                BIP39_WORDS = true) by reflexivity.
  rewrite forallb_forall in B. apply Forall_forall. intros v Hv. specialize (B v Hv).
  destruct v; [discriminate|]. split; [discriminate|exact B].
Qed.

Lemma mem_nat_in n l : mem_nat n l = true -> In n l.
Proof. unfold mem_nat. intros H. apply existsb_exists in H as [m [Hm E]]. apply Nat.eqb_eq in E. now subst. Qed.

(** X24: Every candidate of [extract_seed_phrases] is a [seed_phrase] whose content splits into 12, 15, 18, 21 or 24 words, all in [BIP39_WORDS], and whose summary reports that word count. *)
Theorem seed_phrase_words loc groups blocks c :
  In c (seed_candidates loc groups blocks) ->
  c_type c = "seed_phrase" /\
  In (List.length (split (c_content c))) PHRASE_LENGTHS /\
  Forall (fun w => In w BIP39_WORDS) (split (c_content c)) /\
  c_summary c = seed_summary (List.length (split (c_content c))).
Proof.
  unfold seed_candidates. rewrite in_app_iff. intros [H|H].
  - apply in_flat_map in H as [g [_ H]]. unfold mnemonic_candidate in H.
    match type of H with In _ (if ?b then _ else _) => destruct b eqn:E; [|contradiction] end.
    destruct H as [<-|[]]. cbn [c_type c_content c_summary].
    apply andb_prop in E as [E1 E2]. rewrite forallb_forall in E2.
    split; [reflexivity|]. split; [apply mem_nat_in, E1|]. split; [|reflexivity].
    apply Forall_forall. intros w Hw. apply mem_true_iff, E2, Hw.
  - assert (G : forall i, In c (blocks_from i blocks) -> exists j b, In c (block_candidate j b)).
    { clear H. induction blocks as [|b bs IH]; intros i; simpl; [contradiction|].
      rewrite in_app_iff. intros [X|X]; [eauto|exact (IH _ X)]. }
    destruct (G 0%nat H) as [j [b Hb]]. clear G H. unfold block_candidate in Hb.
    destruct (mem_nat (List.length (split (Py.lower b))) PHRASE_LENGTHS); [|contradiction].
    set (valid := filter (fun w => Py.mem w BIP39_WORDS) (split (Py.lower b))) in Hb.
    destruct (mem_nat (List.length valid) PHRASE_LENGTHS) eqn:E; [|contradiction].
    destruct Hb as [<-|[]]. cbn [c_type c_content c_summary].
    assert (Iv : forall w, In w valid -> In w BIP39_WORDS).
    { intros w Hw. apply filter_In in Hw as [_ Hw]. apply mem_true_iff, Hw. }
    rewrite split_concat.
    + split; [reflexivity|]. split; [apply mem_nat_in, E|]. split; [|reflexivity].
      apply Forall_forall. exact Iv.
    + apply Forall_forall. intros w Hw. apply (proj1 (Forall_forall _ _) bip39_words_ok), Iv, Hw.
Qed.

Lemma seed_phrase_words_witness :
  c_type Scenarios.seed_candidate = "seed_phrase" /\
  In (List.length (split (c_content Scenarios.seed_candidate))) PHRASE_LENGTHS /\
  Forall (fun w => In w BIP39_WORDS) (split (c_content Scenarios.seed_candidate)) /\
  c_summary Scenarios.seed_candidate = seed_summary (List.length (split (c_content Scenarios.seed_candidate))).
Proof.
  apply (seed_phrase_words Scenarios.no_location [Scenarios.seed_text] []). vm_compute. left. reflexivity.
Defined.

End SeedExtras.
